(** * Booking settlement engine: the create-transaction route

    A shallow embedding of the handler [router.post "/"] of the
    transactions route and of the helpers [calculatePoints] and
    [addPointsToUser] of [src/lib/utils.ts], over the tables of
    [prisma/schema.prisma].

    Numbers are integers, as [Z]: the [Int] columns hold integers of 32
    bits, and a write of the booking that would leave that range fails.
    Instants are milliseconds since the epoch, as [Z]; keys are the
    [uuid()] strings.  A table is the list of its rows in the order the
    store returns them when a query gives no [orderBy] (or leaves
    ties). *)

From Stdlib Require Import ZArith QArith List String Bool Lia Permutation.
Import ListNotations.
Local Open Scope Z_scope.

(** ** [Int] columns

    An [Int] of the schema is a signed integer of 32 bits.  The client
    refuses a [create] with a number outside of that range, and the
    store an [increment] that leaves it. *)

Definition INT_MIN : Z := -2147483648.
Definition INT_MAX : Z := 2147483647.

Definition isInt (n : Z) : bool := (INT_MIN <=? n) && (n <=? INT_MAX).

(** ** Enumerations of the schema *)

Module EventStatus.
Inductive t := DRAFT | PUBLISHED | CANCELLED | COMPLETED.

Definition eqb (a b : t) : bool :=
  match a, b with
  | DRAFT, DRAFT | PUBLISHED, PUBLISHED
  | CANCELLED, CANCELLED | COMPLETED, COMPLETED => true
  | _, _ => false
  end.
End EventStatus.

Module TransactionStatus.
Inductive t := PENDING | COMPLETED | CANCELLED | REFUNDED.
End TransactionStatus.

Module TicketType.
Inductive t := REGULAR | VIP | EARLY_BIRD.

Definition name (ty : t) : string :=
  match ty with
  | REGULAR => "REGULAR"
  | VIP => "VIP"
  | EARLY_BIRD => "EARLY_BIRD"
  end.
End TicketType.

(** ** Rows

    Each model keeps the columns the route reads or writes, under the
    names of the schema.  Columns it never touches (e-mail, password,
    dates of the event, ...) are left out. *)

Module User.
Record t := mk { id : string; pointsBalance : Z }.

(** [data: { pointsBalance: { increment: n } }] and [{ decrement: n }]. *)
Definition incrementPointsBalance (n : Z) (u : t) : t :=
  mk (id u) (pointsBalance u + n).
Definition decrementPointsBalance (n : Z) (u : t) : t :=
  mk (id u) (pointsBalance u - n).
End User.

Module Event.
Record t := mk {
  id : string;
  name : string;
  availableSeats : Z;
  bookedSeats : Z;
  status : EventStatus.t
}.

(** [data: { bookedSeats: { increment: n } }]. *)
Definition incrementBookedSeats (n : Z) (e : t) : t :=
  mk (id e) (name e) (availableSeats e) (bookedSeats e + n) (status e).
End Event.

Module Ticket.
Record t := mk {
  id : string;
  eventId : string;
  type : TicketType.t;
  price : Z;
  quantity : Z;
  sold : Z
}.

(** [data: { sold: { increment: n } }]. *)
Definition incrementSold (n : Z) (tk : t) : t :=
  mk (id tk) (eventId tk) (type tk) (price tk) (quantity tk) (sold tk + n).
End Ticket.

Module Transaction.
Record t := mk {
  id : string;
  userId : string;
  eventId : string;
  totalAmount : Z;
  discountAmount : Z;
  finalAmount : Z;
  status : TransactionStatus.t;
  pointsUsed : Z
}.
End Transaction.

Module TransactionItem.
Record t := mk {
  transactionId : string;
  ticketId : string;
  quantity : Z;
  unitPrice : Z;
  totalPrice : Z
}.
End TransactionItem.

Module Point.
Record t := mk {
  id : string;
  earnedById : option string;
  usedById : option string;
  amount : Z;
  description : string;
  expiresAt : Z;
  isUsed : bool;
  createdAt : Z
}.
End Point.

Module DiscountCoupon.
Record t := mk {
  id : string;
  userId : string;
  code : string;
  discountPercent : Z;
  isUsed : bool;
  expiresAt : Z;
  createdAt : Z
}.

(** [data: { isUsed: true }]. *)
Definition setUsed (k : t) : t :=
  mk (id k) (userId k) (code k) (discountPercent k) true (expiresAt k)
     (createdAt k).
End DiscountCoupon.

Module TransactionCoupon.
Record t := mk { transactionId : string; discountCouponId : string }.
End TransactionCoupon.

(** ** The store *)

Record Store := mkStore {
  users : list User.t;
  events : list Event.t;
  tickets : list Ticket.t;
  transactions : list Transaction.t;
  transactionItems : list TransactionItem.t;
  points : list Point.t;
  discountCoupons : list DiscountCoupon.t;
  transactionCoupons : list TransactionCoupon.t
}.

Definition with_users (f : list User.t -> list User.t) (s : Store) : Store :=
  mkStore (f (users s)) (events s) (tickets s) (transactions s)
          (transactionItems s) (points s) (discountCoupons s)
          (transactionCoupons s).

Definition with_events (f : list Event.t -> list Event.t) (s : Store) : Store :=
  mkStore (users s) (f (events s)) (tickets s) (transactions s)
          (transactionItems s) (points s) (discountCoupons s)
          (transactionCoupons s).

Definition with_tickets (f : list Ticket.t -> list Ticket.t) (s : Store) : Store :=
  mkStore (users s) (events s) (f (tickets s)) (transactions s)
          (transactionItems s) (points s) (discountCoupons s)
          (transactionCoupons s).

Definition with_transactions
  (f : list Transaction.t -> list Transaction.t) (s : Store) : Store :=
  mkStore (users s) (events s) (tickets s) (f (transactions s))
          (transactionItems s) (points s) (discountCoupons s)
          (transactionCoupons s).

Definition with_transactionItems
  (f : list TransactionItem.t -> list TransactionItem.t) (s : Store) : Store :=
  mkStore (users s) (events s) (tickets s) (transactions s)
          (f (transactionItems s)) (points s) (discountCoupons s)
          (transactionCoupons s).

Definition with_points (f : list Point.t -> list Point.t) (s : Store) : Store :=
  mkStore (users s) (events s) (tickets s) (transactions s)
          (transactionItems s) (f (points s)) (discountCoupons s)
          (transactionCoupons s).

Definition with_discountCoupons
  (f : list DiscountCoupon.t -> list DiscountCoupon.t) (s : Store) : Store :=
  mkStore (users s) (events s) (tickets s) (transactions s)
          (transactionItems s) (points s) (f (discountCoupons s))
          (transactionCoupons s).

Definition with_transactionCoupons
  (f : list TransactionCoupon.t -> list TransactionCoupon.t) (s : Store) : Store :=
  mkStore (users s) (events s) (tickets s) (transactions s)
          (transactionItems s) (points s) (discountCoupons s)
          (f (transactionCoupons s)).

(** ** ECMAScript dates

    [new Date()] is an instant in milliseconds since the epoch.
    [getMonth] and [setMonth] follow ECMA-262: they read and set the
    month of the local time of the host, [LocalTime(t) = t +
    LocalTZA(t, true)], and go back to an instant by [UTC(t) = t -
    LocalTZA(t, false)].  [LocalTZA] is the host's: the offset of its
    zone, in milliseconds, at an instant ([true]) or at a local time
    ([false]).  The civil calendar is computed by the usual era
    arithmetic on days.  ([TimeClip], which only matters some 270000
    years from the epoch, is left out.) *)

Module JSDate.
Definition msPerDay : Z := 86400000.

Definition Day (t : Z) : Z := t / msPerDay.
Definition TimeWithinDay (t : Z) : Z := t mod msPerDay.

(** Days since the epoch of the civil date [y]-[m]-[d], [m] in 1..12. *)
Definition days_from_civil (y m d : Z) : Z :=
  let y' := if m <=? 2 then y - 1 else y in
  let era := y' / 400 in
  let yoe := y' - era * 400 in
  let mp := if 2 <? m then m - 3 else m + 9 in
  let doy := (153 * mp + 2) / 5 + d - 1 in
  let doe := yoe * 365 + yoe / 4 - yoe / 100 + doy in
  era * 146097 + doe - 719468.

(** The civil date (year, month in 1..12, day of the month) of a day. *)
Definition civil_from_days (z : Z) : Z * Z * Z :=
  let z' := z + 719468 in
  let era := z' / 146097 in
  let doe := z' - era * 146097 in
  let yoe := (doe - doe / 1460 + doe / 36524 - doe / 146096) / 365 in
  let doy := doe - (365 * yoe + yoe / 4 - yoe / 100) in
  let mp := (5 * doy + 2) / 153 in
  let d := doy - (153 * mp + 2) / 5 + 1 in
  let m := if mp <? 10 then mp + 3 else mp - 9 in
  let y := yoe + era * 400 in
  ((if m <=? 2 then y + 1 else y), m, d).

Definition YearFromTime (t : Z) : Z :=
  let '(y, _, _) := civil_from_days (Day t) in y.

(** Months are numbered from 0, as in JavaScript. *)
Definition MonthFromTime (t : Z) : Z :=
  let '(_, m, _) := civil_from_days (Day t) in m - 1.

Definition DateFromTime (t : Z) : Z :=
  let '(_, _, d) := civil_from_days (Day t) in d.

(** [MakeDay]: a month outside 0..11 carries into the year, a day past
    the end of the month carries into the next month. *)
Definition MakeDay (year month date : Z) : Z :=
  let ym := year + month / 12 in
  let mn := month mod 12 in
  days_from_civil ym (mn + 1) 1 + date - 1.

Definition MakeDate (day time : Z) : Z := day * msPerDay + time.

Section Zone.

Variable LocalTZA : Z -> bool -> Z.

Definition LocalTime (t : Z) : Z := t + LocalTZA t true.
Definition UTC (t : Z) : Z := t - LocalTZA t false.

Definition getMonth (t : Z) : Z := MonthFromTime (LocalTime t).

(** [setMonth(month)], the day of the month being left as it is. *)
Definition setMonth (t : Z) (month : Z) : Z :=
  let t' := LocalTime t in
  UTC (MakeDate (MakeDay (YearFromTime t') month (DateFromTime t'))
                (TimeWithinDay t')).

End Zone.

(** A host that keeps UTC. *)
Definition utc : Z -> bool -> Z := fun _ _ => 0.
End JSDate.

(** ** Requests

    [validatedData], the value [transactionSchema.parse] returns, for a
    body whose numbers are whole.  [z.number()] also lets a fraction
    through (a [quantity] of 1.5), which the route then hands to [Int]
    columns; what the client stores for it is not in the source, and
    such a body is outside of this development: [wholeNumbers] below
    says which bodies are covered. *)

Module Item.
Record t := mk { ticketId : string; quantity : Z }.
End Item.

Record ValidatedData := mkValidatedData {
  eventId : string;
  items : list Item.t;
  couponCode : option string;
  pointsToUse : Z
}.

(** The numeric constraints of [transactionSchema]: [quantity] is
    [min(1)], [pointsToUse] is [min(0)]. *)
Definition transactionSchema (d : ValidatedData) : bool :=
  forallb (fun it => 1 <=? Item.quantity it) (items d) && (0 <=? pointsToUse d).

(** [req.body], as far as the schema reads it: a number of JSON is a
    rational, and [pointsToUse] may be missing. *)
Module Body.
Record item := mkItem { ticketId : string; quantity : Q }.

Record t := mk {
  eventId : string;
  items : list item;
  couponCode : option string;
  pointsToUse : option Q
}.
End Body.

(** The integer a number of the body is, if it is one. *)
Definition whole (q : Q) : option Z :=
  if Qnum q mod Zpos (Qden q) =? 0 then Some (Qnum q / Zpos (Qden q))
  else None.

Fixpoint wholeItems (l : list Body.item) : option (list Item.t) :=
  match l with
  | [] => Some []
  | it :: rest =>
      match whole (Body.quantity it), wholeItems rest with
      | Some quantity, Some rest' =>
          Some (Item.mk (Body.ticketId it) quantity :: rest')
      | _, _ => None
      end
  end.

(** The bodies with whole numbers only, and what the schema makes of
    them: the numbers as they are, [pointsToUse] with its default of 0. *)
Definition wholeNumbers (body : Body.t) : option ValidatedData :=
  match wholeItems (Body.items body),
        match Body.pointsToUse body with
        | Some q => whole q
        | None => Some 0
        end with
  | Some items_, Some pointsToUse_ =>
      Some (mkValidatedData (Body.eventId body) items_ (Body.couponCode body)
                            pointsToUse_)
  | _, _ => None
  end.

(** What the host supplies during one request: the readings of the
    clock, in the order the [new Date()] calls are made, the keys and the
    timestamp the store generates for the rows created, whether the
    store commits the transaction once the callback has returned and the
    transaction is still open, and the zone of the host. *)
Record Env := mkEnv {
  couponClock : Z;
  pointsClock : Z;
  creditClock : Z;
  transactionUuid : string;
  pointUuid : string;
  pointCreatedAt : Z;
  commits : bool;
  LocalTZA : Z -> bool -> Z
}.

(** ** Errors

    One constructor for each [throw new Error(...)] of the callback,
    named after its text ("Event not found", "Event is not available for
    booking", "Ticket <id> not found", "Not enough tickets available for
    <type>", "Not enough seats available", "User not found"), one for a
    number that does not fit its [Int] column, and one for a transaction
    the store does not commit. *)
Inductive Error :=
| Event_not_found
| Event_is_not_available_for_booking
| Ticket_not_found (ticketId : string)
| Not_enough_tickets_available_for (type : TicketType.t)
| Not_enough_seats_available
| User_not_found
| Integer_out_of_range
| Transaction_not_committed.

(** The specification names failures by kind (section 7); the route
    throws plain errors that carry a message. *)
Inductive BookingError :=
| EventNotBookable
| TicketNotFound
| CapacityExceeded
| InvalidCoupon
| InsufficientFunds
| ConcurrencyConflict
| PersistenceFailure.

(** Each error of the route under the kind whose description it meets:
    "event missing or not PUBLISHED", "a referenced ticket does not
    belong to the event", "per-ticket or per-event capacity would be
    exceeded", "the atomic unit could not be committed".  A missing user
    row and a number out of range have no kind, and no error of the
    route is about a coupon. *)
Definition kind (e : Error) : option BookingError :=
  match e with
  | Event_not_found | Event_is_not_available_for_booking => Some EventNotBookable
  | Ticket_not_found _ => Some TicketNotFound
  | Not_enough_tickets_available_for _ | Not_enough_seats_available =>
      Some CapacityExceeded
  | User_not_found | Integer_out_of_range => None
  | Transaction_not_committed => Some ConcurrencyConflict
  end.

(** ** The transaction monad

    Inside [db.$transaction(async (prisma) => ...)] two clients are in
    reach.  What is written through [prisma] belongs to the transaction:
    it is seen by the later reads of the callback and reaches the store
    only when the transaction commits.  What is written through the
    global client [db] is committed at once, on its own.  A state of the
    callback therefore holds two stores: [inTx], the rows as the
    transaction sees them, and [outside], the rows as committed.  The
    updates [db] makes here are relative ([increment]) or inserts, so
    they are applied to both.

    A row of a user that the transaction has updated is held by it
    until it ends ([lockedUsers]).  An update of [db] to such a row has
    to wait for that end, and the callback, which awaits the update,
    cannot bring it about: the transaction reaches its time limit (the
    route sets none, so the default of the client applies) and the store
    rolls it back.  The update then goes through on the rows as
    committed and the callback goes on, but the transaction has
    [expired] and will not be committed; its view [inTx] is not looked
    at again. *)

Record TxState := mkTx {
  inTx : Store;
  outside : Store;
  lockedUsers : list string;
  expired : bool
}.

(** The state in which [db.$transaction] starts the callback. *)
Abbreviation begin s := (mkTx s s [] false).

Inductive Outcome (A : Type) :=
| Returned (a : A) (st : TxState)
| Thrown (e : Error) (st : TxState).
Arguments Returned {A} a st.
Arguments Thrown {A} e st.

Definition M (A : Type) : Type := TxState -> Outcome A.

Definition ret {A} (a : A) : M A := fun st => Returned a st.

Definition bind {A B} (c : M A) (k : A -> M B) : M B :=
  fun st =>
    match c st with
    | Returned a st' => k a st'
    | Thrown e st' => Thrown e st'
    end.

Definition throw {A} (e : Error) : M A := fun st => Thrown e st.

Declare Scope tx_scope.
Delimit Scope tx_scope with tx.
Notation "x <- c ;; k" := (bind c (fun x => k))
  (at level 61, c at next level, right associativity) : tx_scope.
Notation "' pat <- c ;; k" := (bind c (fun x => match x with pat => k end))
  (at level 61, pat pattern, c at next level, right associativity) : tx_scope.
Notation "c ;; k" := (bind c (fun _ => k))
  (at level 61, right associativity) : tx_scope.
Local Open Scope tx_scope.

(** A read through [prisma]. *)
Definition txRead {A} (q : Store -> A) : M A :=
  fun st => Returned (q (inTx st)) st.

(** A write through [prisma]. *)
Definition txWrite (w : Store -> Store) : M unit :=
  fun st =>
    Returned tt (mkTx (w (inTx st)) (outside st) (lockedUsers st) (expired st)).

(** A write through [prisma] that updates the row of the user [id]. *)
Definition txWriteUser (id : string) (w : Store -> Store) : M unit :=
  fun st =>
    Returned tt (mkTx (w (inTx st)) (outside st) (id :: lockedUsers st)
                      (expired st)).

(** A write through the global client [db] that waits for no row. *)
Definition dbWrite (w : Store -> Store) : M unit :=
  fun st =>
    Returned tt (mkTx (w (inTx st)) (w (outside st)) (lockedUsers st)
                      (expired st)).

(** A write through [db] that updates the row of the user [id]: if the
    transaction holds the row, it has expired by the time the write is
    made. *)
Definition dbWriteUser (id : string) (w : Store -> Store) : M unit :=
  fun st =>
    Returned tt (mkTx (w (inTx st)) (w (outside st)) (lockedUsers st)
                      (expired st || existsb (String.eqb id) (lockedUsers st))).

(** A [create] or an [increment] of a number that does not fit. *)
Definition fitsOrThrow (fits : bool) (c : M unit) : M unit :=
  if fits then c else throw Integer_out_of_range.

(** Whether the column of the row under [id] still fits after an
    [increment] of [n]. *)
Definition incrementFits {A} (key : A -> string) (id : string)
  (column : A -> Z) (n : Z) (table : list A) : bool :=
  match find (fun row => String.eqb (key row) id) table with
  | Some row => isInt (column row + n)
  | None => true
  end.

Fixpoint forM_ {A} (l : list A) (body : A -> M unit) : M unit :=
  match l with
  | [] => ret tt
  | x :: rest => body x ;; forM_ rest body
  end.

Inductive Result (A : Type) :=
| Ok (a : A)
| Err (e : Error).
Arguments Ok {A} a.
Arguments Err {A} e.

(** [db.$transaction(callback)]: the callback runs on the store as it
    is; if it throws, the transaction is rolled back; if it returns, the
    store is asked to commit, which it refuses to a transaction that has
    expired.  Either way what went through [db] stays. *)
Definition run_transaction {A} (commit : bool) (callback : M A) (s : Store)
  : Result A * Store :=
  match callback (begin s) with
  | Thrown e st => (Err e, outside st)
  | Returned a st =>
      if commit && negb (expired st) then (Ok a, inTx st)
      else (Err Transaction_not_committed, outside st)
  end.

(** ** Queries

    [orderBy]: a stable insertion sort; rows the key does not tell apart
    stay in table order. *)

Fixpoint insertBy {A} (le : A -> A -> bool) (x : A) (l : list A) : list A :=
  match l with
  | [] => [x]
  | y :: rest => if le x y then x :: y :: rest else y :: insertBy le x rest
  end.

Fixpoint sortBy {A} (le : A -> A -> bool) (l : list A) : list A :=
  match l with
  | [] => []
  | x :: rest => insertBy le x (sortBy le rest)
  end.

Definition asc {A} (key : A -> Z) (a b : A) : bool := key a <=? key b.
Definition desc {A} (key : A -> Z) (a b : A) : bool := key b <=? key a.

(** [findFirst({ where, orderBy })]. *)
Definition findFirst {A} (where_ : A -> bool) (orderBy : option (A -> A -> bool))
  (table : list A) : option A :=
  match orderBy with
  | None => find where_ table
  | Some le => hd_error (sortBy le (filter where_ table))
  end.

(** [findMany({ where, orderBy })]. *)
Definition findMany {A} (where_ : A -> bool) (le : A -> A -> bool)
  (table : list A) : list A :=
  sortBy le (filter where_ table).

(** [update({ where: { id }, data })].  Prisma rejects an update of a
    missing row; every update of the route is of a row that a read of the
    same transaction has returned. *)
Definition update {A} (key : A -> string) (id : string) (data : A -> A)
  (table : list A) : list A :=
  map (fun row => if String.eqb (key row) id then data row else row) table.

Definition create {A} (row : A) (table : list A) : list A := table ++ [row].

(** ** [src/lib/utils.ts] *)

(** [calculatePoints]: one point per 1000 spent, [Math.floor(amount / 1000)]. *)
Definition calculatePoints (amount : Z) : Z := amount / 1000.

(** [db.user.update({ where: { id }, data: { pointsBalance: {
    increment: n } } })]: the balance as committed has to stay an
    [Int]. *)
Definition dbIncrementPointsBalance (id : string) (n : Z) : M unit :=
  fun st =>
    fitsOrThrow
      (incrementFits User.id id User.pointsBalance n (users (outside st)))
      (dbWriteUser id
         (with_users (update User.id id (User.incrementPointsBalance n))))
      st.

(** [addPointsToUser].  Both statements go through the global client
    [db]: [db.point.create], then [db.user.update] with an [increment]. *)
Definition addPointsToUser (env : Env) (userId : string) (points_ : Z)
  (description : string) : M unit :=
  let now := creditClock env in
  let expiresAt :=
    JSDate.setMonth (LocalTZA env) now (JSDate.getMonth (LocalTZA env) now + 3) in
  fitsOrThrow (isInt points_)
    (dbWrite (with_points (create
      (Point.mk (pointUuid env) (Some userId) None points_ description
                expiresAt false (pointCreatedAt env))))) ;;
  dbIncrementPointsBalance userId points_.

(** ** The create-transaction route *)

Module TicketUpdate.
Record t := mk { id : string; quantity : Z; price : Z }.
End TicketUpdate.

(** [Math.min] of three numbers. *)
Definition Math_min (a b c : Z) : Z := Z.min a (Z.min b c).

(** The first loop: every line item is checked against the tickets read
    with the event, and priced. *)
Fixpoint validateItems (eventTickets : list Ticket.t) (items_ : list Item.t)
  (totalAmount : Z) (ticketUpdates : list TicketUpdate.t)
  : M (Z * list TicketUpdate.t) :=
  match items_ with
  | [] => ret (totalAmount, ticketUpdates)
  | item :: rest =>
      match find (fun t => String.eqb (Ticket.id t) (Item.ticketId item))
                 eventTickets with
      | None => throw (Ticket_not_found (Item.ticketId item))
      | Some ticket =>
          if Ticket.sold ticket + Item.quantity item >? Ticket.quantity ticket
          then throw (Not_enough_tickets_available_for (Ticket.type ticket))
          else validateItems eventTickets rest
                 (totalAmount + Ticket.price ticket * Item.quantity item)
                 (ticketUpdates ++
                  [TicketUpdate.mk (Ticket.id ticket) (Item.quantity item)
                                   (Ticket.price ticket)])
      end
  end.

(** A non-empty string is what [if (validatedData.couponCode)] lets in. *)
Definition truthy (code : option string) : option string :=
  match code with
  | Some (String _ _ as c) => Some c
  | _ => None
  end.

(** The coupon step: the discount and the ids pushed on [usedCoupons]. *)
Definition applyCoupon (env : Env) (userId : string) (code : option string)
  (totalAmount : Z) : M (Z * list string) :=
  coupon <-
    match truthy code with
    | Some c =>
        txRead (fun s => findFirst
          (fun k => String.eqb (DiscountCoupon.code k) c
                    && negb (DiscountCoupon.isUsed k)
                    && (couponClock env <=? DiscountCoupon.expiresAt k))
          None (discountCoupons s))
    | None =>
        txRead (fun s => findFirst
          (fun k => String.eqb (DiscountCoupon.userId k) userId
                    && negb (DiscountCoupon.isUsed k)
                    && (couponClock env <=? DiscountCoupon.expiresAt k))
          (Some (desc DiscountCoupon.discountPercent)) (discountCoupons s))
    end ;;
  match coupon with
  | Some coupon =>
      ret (totalAmount * DiscountCoupon.discountPercent coupon / 100,
           [DiscountCoupon.id coupon])
  | None => ret (0, [])
  end.

(** The [Int] columns of a transaction and of an item. *)
Definition transactionFits (t : Transaction.t) : bool :=
  isInt (Transaction.totalAmount t) && isInt (Transaction.discountAmount t)
  && isInt (Transaction.finalAmount t) && isInt (Transaction.pointsUsed t).

Definition itemFits (row : TransactionItem.t) : bool :=
  isInt (TransactionItem.quantity row) && isInt (TransactionItem.unitPrice row)
  && isInt (TransactionItem.totalPrice row).

(** [prisma.ticket.update({ where: { id }, data: { sold: { increment:
    n } } })]: the count as the transaction sees it has to stay an
    [Int]. *)
Definition txIncrementSold (id : string) (n : Z) : M unit :=
  fun st =>
    fitsOrThrow (incrementFits Ticket.id id Ticket.sold n (tickets (inTx st)))
      (txWrite (with_tickets (update Ticket.id id (Ticket.incrementSold n))))
      st.

(** The second loop: [items[i]] and [ticketUpdates[i]] run in step (the
    first loop pushed one update for each item). *)
Definition createItems (transactionId : string)
  (lines : list (Item.t * TicketUpdate.t)) : M unit :=
  forM_ lines (fun '(item, ticketUpdate) =>
    let row :=
      TransactionItem.mk transactionId (Item.ticketId item)
        (Item.quantity item) (TicketUpdate.price ticketUpdate)
        (TicketUpdate.price ticketUpdate * Item.quantity item) in
    fitsOrThrow (itemFits row)
      (txWrite (with_transactionItems (create row))) ;;
    txIncrementSold (Item.ticketId item) (Item.quantity item)).

Definition markCouponsUsed (transactionId : string) (usedCoupons : list string)
  : M unit :=
  forM_ usedCoupons (fun couponId =>
    txWrite (with_discountCoupons (update DiscountCoupon.id couponId
      DiscountCoupon.setUsed)) ;;
    txWrite (with_transactionCoupons (create
      (TransactionCoupon.mk transactionId couponId)))).

Definition optionEqb (a : option string) (b : string) : bool :=
  match a with
  | Some x => String.eqb x b
  | None => false
  end.

(** A grant of the user that can still be spent at instant [now]. *)
Definition live (userId : string) (now : Z) (p : Point.t) : bool :=
  optionEqb (Point.earnedById p) userId
  && negb (Point.isUsed p)
  && (now <=? Point.expiresAt p).

Definition markUsed (userId : string) (p : Point.t) : Point.t :=
  Point.mk (Point.id p) (Point.earnedById p) (Some userId) (Point.amount p)
           (Point.description p) (Point.expiresAt p) true (Point.createdAt p).

(** The loop over [userPoints]: a grant is taken whole when it fits into
    what remains, and passed over otherwise. *)
Fixpoint markPoints (userId : string) (userPoints : list Point.t)
  (remainingPointsToUse : Z) : M unit :=
  match userPoints with
  | [] => ret tt
  | point :: rest =>
      if remainingPointsToUse <=? 0 then ret tt
      else if Point.amount point <=? remainingPointsToUse then
        txWrite (with_points
          (update Point.id (Point.id point) (markUsed userId))) ;;
        markPoints userId rest (remainingPointsToUse - Point.amount point)
      else markPoints userId rest remainingPointsToUse
  end.

(** "Deduct points from user": the balance, then the grants.  (The
    decrement cannot leave the [Int]s: it is positive and at most the
    balance read.) *)
Definition deductPoints (env : Env) (userId : string) (pointsToUse_ : Z)
  : M unit :=
  if 0 <? pointsToUse_ then
    txWriteUser userId (with_users (update User.id userId
      (User.decrementPointsBalance pointsToUse_))) ;;
    userPoints <- txRead (fun s =>
      findMany (live userId (pointsClock env)) (asc Point.createdAt)
               (points s)) ;;
    markPoints userId userPoints pointsToUse_
  else ret tt.

(** The callback given to [db.$transaction]; [userId] is [req.user.id].
    (The increment of [bookedSeats] cannot leave the [Int]s: the seats
    have just been checked against [availableSeats], and the schema
    lets no quantity below 1 through.  Nor can the amount of the grant,
    a thousandth of a [finalAmount] that has been stored.) *)
Definition callback (env : Env) (userId : string) (validatedData : ValidatedData)
  : M Transaction.t :=
  event <- txRead (fun s =>
    find (fun e => String.eqb (Event.id e) (eventId validatedData))
         (events s)) ;;
  match event with
  | None => throw Event_not_found
  | Some event =>
  eventTickets <- txRead (fun s =>
    filter (fun t => String.eqb (Ticket.eventId t) (Event.id event))
           (tickets s)) ;;
  if negb (EventStatus.eqb (Event.status event) EventStatus.PUBLISHED)
  then throw Event_is_not_available_for_booking
  else
  '(totalAmount, ticketUpdates) <-
    validateItems eventTickets (items validatedData) 0 [] ;;
  let totalTickets :=
    fold_left (fun sum item => sum + Item.quantity item)
              (items validatedData) 0 in
  if Event.bookedSeats event + totalTickets >? Event.availableSeats event
  then throw Not_enough_seats_available
  else
  '(discountAmount, usedCoupons) <-
    applyCoupon env userId (couponCode validatedData) totalAmount ;;
  user <- txRead (fun s =>
    find (fun u => String.eqb (User.id u) userId) (users s)) ;;
  match user with
  | None => throw User_not_found
  | Some user =>
  let pointsToUse_ :=
    Math_min (pointsToUse validatedData) (User.pointsBalance user)
             (totalAmount - discountAmount) in
  let pointsDiscount := pointsToUse_ in
  let finalAmount := totalAmount - discountAmount - pointsDiscount in
  let transaction :=
    Transaction.mk (transactionUuid env) userId (eventId validatedData)
      totalAmount discountAmount finalAmount TransactionStatus.COMPLETED
      pointsToUse_ in
  fitsOrThrow (transactionFits transaction)
    (txWrite (with_transactions (create transaction))) ;;
  createItems (Transaction.id transaction)
    (combine (items validatedData) ticketUpdates) ;;
  txWrite (with_events (update Event.id (eventId validatedData)
    (Event.incrementBookedSeats totalTickets))) ;;
  markCouponsUsed (Transaction.id transaction) usedCoupons ;;
  deductPoints env userId pointsToUse_ ;;
  let earnedPoints := calculatePoints finalAmount in
  (if 0 <? earnedPoints
   then addPointsToUser env userId earnedPoints
          ("Purchase points for " ++ Event.name event)%string
   else ret tt) ;;
  ret transaction
  end
  end.

(** [bookTickets]: the callback, run as one transaction of the store. *)
Definition bookTickets (env : Env) (userId : string)
  (validatedData : ValidatedData) (s : Store) : Result Transaction.t * Store :=
  run_transaction (commits env) (callback env userId validatedData) s.

(** ** The writes of a run, as store transformers

    What each group of writes of the callback leaves in the
    transaction's view, when every number fits, is given here as a
    function of the store, to state the lemmas about a run. *)

Definition itemsWritten (transactionId : string)
  (lines : list (Item.t * TicketUpdate.t)) (s : Store) : Store :=
  fold_left (fun s '(item, ticketUpdate) =>
    with_tickets (update Ticket.id (Item.ticketId item)
      (Ticket.incrementSold (Item.quantity item)))
    (with_transactionItems (create
      (TransactionItem.mk transactionId (Item.ticketId item)
         (Item.quantity item) (TicketUpdate.price ticketUpdate)
         (TicketUpdate.price ticketUpdate * Item.quantity item))) s))
    lines s.

Definition couponsWritten (transactionId : string) (usedCoupons : list string)
  (s : Store) : Store :=
  fold_left (fun s couponId =>
    with_transactionCoupons (create
      (TransactionCoupon.mk transactionId couponId))
    (with_discountCoupons (update DiscountCoupon.id couponId
      DiscountCoupon.setUsed)
       s))
    usedCoupons s.

(** The grants the loop of [markPoints] marks, in the order it does. *)
Fixpoint taken (userPoints : list Point.t) (remainingPointsToUse : Z)
  : list Point.t :=
  match userPoints with
  | [] => []
  | point :: rest =>
      if remainingPointsToUse <=? 0 then []
      else if Point.amount point <=? remainingPointsToUse then
        point :: taken rest (remainingPointsToUse - Point.amount point)
      else taken rest remainingPointsToUse
  end.

Definition markAll (userId : string) (marked : list Point.t)
  (table : list Point.t) : list Point.t :=
  fold_left (fun tbl point =>
    update Point.id (Point.id point) (markUsed userId) tbl) marked table.

Definition debited (env : Env) (userId : string) (pointsToUse_ : Z)
  (s : Store) : Store :=
  if 0 <? pointsToUse_ then
    with_points (fun tbl =>
      markAll userId
        (taken (findMany (live userId (pointsClock env))
                         (asc Point.createdAt) tbl) pointsToUse_) tbl)
    (with_users (update User.id userId
      (User.decrementPointsBalance pointsToUse_)) s)
  else s.

(** The grant [addPointsToUser] creates. *)
Definition grant (env : Env) (userId : string) (points_ : Z)
  (description : string) : Point.t :=
  Point.mk (pointUuid env) (Some userId) None points_ description
    (JSDate.setMonth (LocalTZA env) (creditClock env)
       (JSDate.getMonth (LocalTZA env) (creditClock env) + 3))
    false (pointCreatedAt env).

Definition credited (env : Env) (userId : string) (earnedPoints : Z)
  (description : string) (s : Store) : Store :=
  if 0 <? earnedPoints then
    with_users (update User.id userId
      (User.incrementPointsBalance earnedPoints))
    (with_points (create (grant env userId earnedPoints description)) s)
  else s.

Definition totalTickets (validatedData : ValidatedData) : Z :=
  fold_left (fun sum item => sum + Item.quantity item)
            (items validatedData) 0.

(** The transaction row a run creates from what it has computed. *)
Definition transactionOf (env : Env) (userId : string)
  (validatedData : ValidatedData) (user : User.t)
  (totalAmount discountAmount : Z) : Transaction.t :=
  let pointsToUse_ :=
    Math_min (pointsToUse validatedData) (User.pointsBalance user)
             (totalAmount - discountAmount) in
  Transaction.mk (transactionUuid env) userId (eventId validatedData)
    totalAmount discountAmount (totalAmount - discountAmount - pointsToUse_)
    TransactionStatus.COMPLETED pointsToUse_.

(** Whether every [increment] of [sold] and every item of the second
    loop fits, on the tickets as the loop finds them. *)
Fixpoint itemsFit (lines : list (Item.t * TicketUpdate.t))
  (table : list Ticket.t) : bool :=
  match lines with
  | [] => true
  | (item, ticketUpdate) :: rest =>
      isInt (Item.quantity item) && isInt (TicketUpdate.price ticketUpdate)
      && isInt (TicketUpdate.price ticketUpdate * Item.quantity item)
      && incrementFits Ticket.id (Item.ticketId item) Ticket.sold
           (Item.quantity item) table
      && itemsFit rest
           (update Ticket.id (Item.ticketId item)
              (Ticket.incrementSold (Item.quantity item)) table)
  end.

(** Whether every number a run writes fits its column: the amounts of
    the transaction, the items and the tickets sold, and the balance
    with the points earned. *)
Definition writesFit (env : Env) (userId : string)
  (validatedData : ValidatedData) (user : User.t) (totalAmount : Z)
  (ticketUpdates : list TicketUpdate.t) (discountAmount : Z) (st : TxState)
  : bool :=
  let transaction :=
    transactionOf env userId validatedData user totalAmount discountAmount in
  let earnedPoints := calculatePoints (Transaction.finalAmount transaction) in
  transactionFits transaction
  && itemsFit (combine (items validatedData) ticketUpdates) (tickets (inTx st))
  && (negb (0 <? earnedPoints)
      || incrementFits User.id userId User.pointsBalance earnedPoints
           (users (outside st))).

(** Whether a transaction has both spent points and earned points. *)
Definition spendsAndEarns (t : Transaction.t) : bool :=
  (0 <? Transaction.pointsUsed t)
  && (0 <? calculatePoints (Transaction.finalAmount t)).

(** The state in which a run that has passed every check, and whose
    numbers all fit, ends. *)
Definition settled (env : Env) (userId : string) (validatedData : ValidatedData)
  (event : Event.t) (user : User.t) (totalAmount : Z)
  (ticketUpdates : list TicketUpdate.t) (discountAmount : Z)
  (usedCoupons : list string) (st : TxState) : TxState :=
  let transaction :=
    transactionOf env userId validatedData user totalAmount discountAmount in
  let earnedPoints := calculatePoints (Transaction.finalAmount transaction) in
  let description := ("Purchase points for " ++ Event.name event)%string in
  let locked :=
    if 0 <? Transaction.pointsUsed transaction
    then userId :: lockedUsers st else lockedUsers st in
  mkTx
    (credited env userId earnedPoints description
      (debited env userId (Transaction.pointsUsed transaction)
        (couponsWritten (Transaction.id transaction) usedCoupons
          (with_events (update Event.id (eventId validatedData)
             (Event.incrementBookedSeats (totalTickets validatedData)))
            (itemsWritten (Transaction.id transaction)
               (combine (items validatedData) ticketUpdates)
               (with_transactions (create transaction) (inTx st)))))))
    (credited env userId earnedPoints description (outside st))
    locked
    (if 0 <? earnedPoints
     then expired st || existsb (String.eqb userId) locked
     else expired st).

(** ** Sums over the ledger *)

Fixpoint sumZ {A} (f : A -> Z) (l : list A) : Z :=
  match l with
  | [] => 0
  | x :: rest => f x + sumZ f rest
  end.

(** The sum of the live grants of a user at instant [now]. *)
Definition liveSum (userId : string) (now : Z) (table : list Point.t) : Z :=
  sumZ Point.amount (filter (live userId now) table).

(** The total amount of the grants whose [isUsed] has gone from [false]
    to [true] between two states of the table (rows keep their place). *)
Definition markedAmount (before after : list Point.t) : Z :=
  sumZ (fun '(p, q) =>
          if negb (Point.isUsed p) && Point.isUsed q then Point.amount q else 0)
       (combine before after).

Definition balanceOf (userId : string) (s : Store) : option Z :=
  option_map User.pointsBalance
    (find (fun u => String.eqb (User.id u) userId) (users s)).

(** What a run has to pass, and what it computes on the way: the event
    and the user it reads, the total, the updates of the first loop, the
    discount and the coupons of the coupon step. *)
Definition passes (env : Env) (userId : string) (validatedData : ValidatedData)
  (st : TxState) (event : Event.t) (user : User.t) (totalAmount : Z)
  (ticketUpdates : list TicketUpdate.t) (discountAmount : Z)
  (usedCoupons : list string) : Prop :=
  find (fun e => String.eqb (Event.id e) (eventId validatedData))
       (events (inTx st)) = Some event
  /\ Event.status event = EventStatus.PUBLISHED
  /\ validateItems
       (filter (fun t => String.eqb (Ticket.eventId t) (Event.id event))
               (tickets (inTx st)))
       (items validatedData) 0 [] st
     = Returned (totalAmount, ticketUpdates) st
  /\ Event.bookedSeats event + totalTickets validatedData
     <= Event.availableSeats event
  /\ applyCoupon env userId (couponCode validatedData) totalAmount st
     = Returned (discountAmount, usedCoupons) st
  /\ find (fun u => String.eqb (User.id u) userId) (users (inTx st))
     = Some user.

(** The part of the callback that comes after its last check: the
    writes, for the transaction row it has made up. *)
Definition writes (env : Env) (userId : string) (validatedData : ValidatedData)
  (event : Event.t) (transaction : Transaction.t)
  (ticketUpdates : list TicketUpdate.t) (usedCoupons : list string)
  : M Transaction.t :=
  (fitsOrThrow (transactionFits transaction)
     (txWrite (with_transactions (create transaction))) ;;
   createItems (Transaction.id transaction)
     (combine (items validatedData) ticketUpdates) ;;
   txWrite (with_events (update Event.id (eventId validatedData)
     (Event.incrementBookedSeats (totalTickets validatedData)))) ;;
   markCouponsUsed (Transaction.id transaction) usedCoupons ;;
   deductPoints env userId (Transaction.pointsUsed transaction) ;;
   (if 0 <? calculatePoints (Transaction.finalAmount transaction)
    then addPointsToUser env userId
           (calculatePoints (Transaction.finalAmount transaction))
           ("Purchase points for " ++ Event.name event)%string
    else ret tt) ;;
   ret transaction)%tx.

(** What a run that throws has committed all the same: nothing, or the
    grant of a credit whose increment did not fit. *)
Definition nothingButAGrant (env : Env) (userId : string) (before after : Store)
  : Prop :=
  after = before
  \/ exists points_ description,
       after = with_points (create (grant env userId points_ description))
                 before.

(** A coupon that is neither used nor expired at instant [now]. *)
Definition usable (now : Z) (k : DiscountCoupon.t) : bool :=
  negb (DiscountCoupon.isUsed k) && (now <=? DiscountCoupon.expiresAt k).

(** The coupons the auto-apply branch chooses from. *)
Definition candidates (env : Env) (userId : string)
  (table : list DiscountCoupon.t) : list DiscountCoupon.t :=
  filter (fun k => String.eqb (DiscountCoupon.userId k) userId
                   && negb (DiscountCoupon.isUsed k)
                   && (couponClock env <=? DiscountCoupon.expiresAt k))
         table.

(** The choice in the words of the specification (section 4.2): among
    the user's unused unexpired coupons, the highest [discountPercent],
    "tie-break: oldest [createdAt] first". *)
Definition highestThenOldest (a b : DiscountCoupon.t) : bool :=
  (DiscountCoupon.discountPercent b <? DiscountCoupon.discountPercent a)
  || ((DiscountCoupon.discountPercent a =? DiscountCoupon.discountPercent b)
      && (DiscountCoupon.createdAt a <=? DiscountCoupon.createdAt b)).

Definition spec_autoSelect (env : Env) (userId : string)
  (table : list DiscountCoupon.t) : option DiscountCoupon.t :=
  hd_error (sortBy highestThenOldest (candidates env userId table)).

(** The invariant of the ledger: the cached balance of the user is the
    sum of the grants of the user that are live at instant [now]. *)
Definition ledgerAgrees (userId : string) (now : Z) (s : Store) : Prop :=
  balanceOf userId s = Some (liveSum userId now (points s)).

(** Whether a row has the id of one of the rows of [marked]. *)
Definition idIn (marked : list Point.t) (q : Point.t) : bool :=
  existsb (fun p => String.eqb (Point.id q) (Point.id p)) marked.

(** ** Sample rows

    A small store and a few requests, on which the statements below are
    run. *)

Module Sample.
Local Open Scope string_scope.

Definition alice : string := "3f2b1c9e-5a47-4d13-9c6e-0b1d2a3c4e5f".
Definition bob : string := "7d8e9f10-1a2b-4c3d-8e4f-5a6b7c8d9e0f".
Definition concert : string := "0a1b2c3d-4e5f-4a6b-8c7d-8e9f0a1b2c3d".
Definition workshop : string := "1b2c3d4e-5f6a-4b7c-9d8e-9f0a1b2c3d4e".
Definition regular : string := "2c3d4e5f-6a7b-4c8d-ae9f-0a1b2c3d4e5f".

(** 2025-01-01T00:00:00Z and 2026-01-01T00:00:00Z. *)
Definition now : Z := 1735689600000.
Definition nextYear : Z := 1767225600000.

(** The zone of New York in 2025, as far as the offsets go: five hours
    behind UTC, four from 2025-03-09T07:00Z to 2025-11-02T06:00Z.  On
    the local clock the hour from 02:00 on 9 March does not exist and
    the hour before 02:00 on 2 November comes twice; such a local time
    is read with the offset from before the change. *)
Definition newYork (t : Z) (isUTC : bool) : Z :=
  (if isUTC
   then if (1741503600000 <=? t) && (t <? 1762063200000)
        then -14400000 else -18000000
   else if (1741489200000 <=? t) && (t <? 1762048800000)
        then -14400000 else -18000000)%Z.

Definition env : Env :=
  mkEnv now now now
    "4d5e6f7a-8b9c-4dae-bf0a-1b2c3d4e5f6a"
    "5e6f7a8b-9cad-4ebf-8a1b-2c3d4e5f6a7b"
    now true JSDate.utc.

(** The same host, with a store that does not commit. *)
Definition envNoCommit : Env :=
  mkEnv now now now
    "4d5e6f7a-8b9c-4dae-bf0a-1b2c3d4e5f6a"
    "5e6f7a8b-9cad-4ebf-8a1b-2c3d4e5f6a7b"
    now false JSDate.utc.

Definition welcome : Point.t :=
  Point.mk "6f7a8b9c-adbe-4fc0-9b2c-3d4e5f6a7b8c" (Some alice) None 5000
    "Referral bonus" nextYear false (now - 1000).

(** Alice holds 5000 points in one grant; the concert has sold 8 of its
    10 regular tickets; the workshop is a draft. *)
Definition store : Store :=
  mkStore
    [User.mk alice 5000; User.mk bob 0]
    [Event.mk concert "Concert" 100 8 EventStatus.PUBLISHED;
     Event.mk workshop "Workshop" 50 0 EventStatus.DRAFT]
    [Ticket.mk regular concert TicketType.REGULAR 3000 10 8]
    [] [] [welcome] [] [].

(** Scenario 2 of the specification. *)
Definition twoTickets : ValidatedData :=
  mkValidatedData concert [Item.mk regular 2] None 8000.

(** The same two tickets, paid in full. *)
Definition paidInFull : ValidatedData :=
  mkValidatedData concert [Item.mk regular 2] None 0.

(** One ticket, half of it paid in points: what remains to pay earns
    nothing. *)
Definition halfInPoints : ValidatedData :=
  mkValidatedData concert [Item.mk regular 1] None 2500.

Definition draftBooking : ValidatedData :=
  mkValidatedData workshop [Item.mk regular 1] None 0.

Definition unknownCode : ValidatedData :=
  mkValidatedData concert [Item.mk regular 2] (Some "REFNOPE1") 0.

(** The same ticket in two line items. *)
Definition twiceTheSameTicket : ValidatedData :=
  mkValidatedData concert [Item.mk regular 2; Item.mk regular 2] None 0.

Definition newer : DiscountCoupon.t :=
  DiscountCoupon.mk "7a8b9cad-becf-4ad1-8c3d-4e5f6a7b8c9d" alice "REFNEWER"
    10 false nextYear (now - 1000).
Definition older : DiscountCoupon.t :=
  DiscountCoupon.mk "8b9cadbe-cfd0-4be2-9d4e-5f6a7b8c9dae" alice "REFOLDER"
    10 false nextYear (now - 2000).

(** Two coupons of Alice with the same percentage; the store returns
    the one created last first. *)
Definition storeTwoCoupons : Store :=
  with_discountCoupons (fun _ => [newer; older]) store.

Definition bonus : Point.t :=
  Point.mk "6f7a8b9c-adbe-4fc0-9b2c-3d4e5f6a7b8c" (Some alice) None 300
    "Referral bonus" nextYear false (now - 1000).

(** A ledger that agrees with the balance: Alice holds 300 points, in
    one grant. *)
Definition storeOneGrant : Store :=
  with_points (fun _ => [bonus])
    (with_users (fun _ => [User.mk alice 300; User.mk bob 0]) store).

(** Two tickets, with 100 points put towards them. *)
Definition hundredPoints : ValidatedData :=
  mkValidatedData concert [Item.mk regular 2] None 100.

Definition vip : Ticket.t :=
  Ticket.mk "9cadbecf-d0e1-4cf3-8e5f-6a7b8c9daebf" concert TicketType.VIP
    5000 50 0.

Definition twenty : DiscountCoupon.t :=
  DiscountCoupon.mk "adbecfd0-e1f2-4d04-9f6a-7b8c9daebfc0" alice "REFTWENTY"
    20 false nextYear (now - 1000).

(** Scenario 3 of the specification: a coupon of 20 percent, and two
    tickets that come to 10000. *)
Definition storeTwenty : Store :=
  with_discountCoupons (fun _ => [twenty])
    (with_tickets (fun _ => [vip]) store).

Definition withCode : ValidatedData :=
  mkValidatedData concert [Item.mk (Ticket.id vip) 2] (Some "REFTWENTY") 0.

(** One ticket of 5000 with the coupon of 20 percent and 3500 points:
    500 remain to pay. *)
Definition discountedWithPoints : ValidatedData :=
  mkValidatedData concert [Item.mk (Ticket.id vip) 1] (Some "REFTWENTY") 3500.

(** The host at a second request. *)
Definition envAgain : Env :=
  mkEnv (now + 60000) (now + 60000) (now + 60000)
    "becfd0e1-f203-4e15-8a7b-8c9daebfc0d1"
    "cfd0e1f2-0314-4f26-9b8c-9daebfc0d1e2"
    (now + 60000) true JSDate.utc.
End Sample.

(** ** The rest of [src/lib/utils.ts] *)

(** [createReferralDiscount].  What the host supplies: the reading of
    the clock, the text [Math.random().toString(36).substring(2, 8)
    .toUpperCase()] evaluates to, the key and the timestamp the store
    gives the row, and its zone. *)
Record CouponEnv := mkCouponEnv {
  discountClock : Z;
  randomSuffix : string;
  couponUuid : string;
  couponCreatedAt : Z;
  couponLocalTZA : Z -> bool -> Z
}.

(** The coupon the helper asks the store to create. *)
Definition referralCoupon (env : CouponEnv) (userId : string)
  : DiscountCoupon.t :=
  let now := discountClock env in
  DiscountCoupon.mk (couponUuid env) userId ("REF" ++ randomSuffix env)%string
    10 false
    (JSDate.setMonth (couponLocalTZA env) now
       (JSDate.getMonth (couponLocalTZA env) now + 3))
    (couponCreatedAt env).

(** [db.discountCoupon.create]: the schema makes [code] unique and
    [userId] a reference to a user, and the store rejects a row that
    breaks either; [None] is that rejection (the helper then throws). *)
Definition createReferralDiscount (env : CouponEnv) (userId : string)
  (s : Store) : option Store :=
  let coupon := referralCoupon env userId in
  if existsb (fun k => String.eqb (DiscountCoupon.code k)
                                  (DiscountCoupon.code coupon))
             (discountCoupons s)
     || negb (existsb (fun u => String.eqb (User.id u) userId) (users s))
  then None
  else Some (with_discountCoupons (create coupon) s).




(** [paginate(page, limit)]. *)
Record SkipTake := mkSkipTake { skip : Z; take : Z }.

Definition paginate (page limit : Z) : SkipTake :=
  mkSkipTake ((page - 1) * limit) limit.

(** [Math.ceil(a / b)] for integers [a] and [b], [b] not zero. *)
Definition Math_ceil_div (a b : Z) : Z := - ((- a) / b).

(** ** The listings of the transactions route *)

(** The answer of a listing: the rows of the page and the [pagination]
    object. *)
Module Listing.
Record t (A : Type) := mk {
  rows : list A;
  page : Z;
  limit : Z;
  total : Z;
  totalPages : Z
}.
Arguments mk {A} rows page limit total totalPages.
Arguments rows {A} _.
Arguments page {A} _.
Arguments limit {A} _.
Arguments total {A} _.
Arguments totalPages {A} _.
End Listing.

(** [findMany({ where, skip, take, orderBy })] together with
    [count({ where })], for [page] and [limit] as [Number.parseInt] gave
    them.  A [page] or a [limit] below 1 is left out ([None]): the first
    asks the store for a negative [skip], the second for a negative
    [take] or, at 0, a division by zero in [totalPages]. *)
Definition listing {A} (where_ : A -> bool) (le : A -> A -> bool)
  (page limit : Z) (table : list A) : option (Listing.t A) :=
  if (page <? 1) || (limit <? 1) then None
  else
    let w := paginate page limit in
    let total := Z.of_nat (List.length (filter where_ table)) in
    Some (Listing.mk
            (firstn (Z.to_nat (take w))
               (skipn (Z.to_nat (skip w)) (findMany where_ le table)))
            page limit total (Math_ceil_div total limit)).

Definition rowsOf {A} (r : option (Listing.t A)) : list A :=
  match r with
  | Some l => Listing.rows l
  | None => []
  end.

Section MyTransactions.

(** The [createdAt] column of a transaction, which the rows above leave
    out. *)
Variable createdAt : Transaction.t -> Z.

(** [GET /my-transactions]: the transactions of the user, newest first,
    one page of them. *)
Definition myTransactions (userId : string) (page limit : Z) (s : Store)
  : option (Listing.t Transaction.t) :=
  listing (fun t => String.eqb (Transaction.userId t) userId) (desc createdAt)
          page limit (transactions s).

End MyTransactions.

(** The read that follows the booking, [db.transaction.findUnique({
    where: { id: result.id } })]. *)
Definition completeTransaction (id : string) (s : Store)
  : option Transaction.t :=
  find (fun t => String.eqb (Transaction.id t) id) (transactions s).

(** [GET /:id]: a transaction by its id, for the user it belongs to;
    [None] is the 404. *)
Definition transactionById (id userId : string) (s : Store)
  : option Transaction.t :=
  findFirst (fun t => String.eqb (Transaction.id t) id
                      && String.eqb (Transaction.userId t) userId)
            None (transactions s).

(** A computation that uses the global client only, run outside a
    transaction, as the register route runs [addPointsToUser]: its
    writes are the store's. *)
Definition direct {A} (c : M A) (s : Store) : Store :=
  match c (begin s) with
  | Returned _ st => outside st
  | Thrown _ st => outside st
  end.

(** The errors that are checks of the route: its own [throw]s. *)
Definition isCheck (e : Error) : bool :=
  match e with
  | Integer_out_of_range | Transaction_not_committed => false
  | _ => true
  end.

(** ** Sums used to state what the routes keep *)




(** What a line of a request comes to: the ticket of the event it names
    and room for its quantity. *)
Definition lineFits (s : Store) (event : Event.t) (item : Item.t) : Prop :=
  exists ticket,
    find (fun t => String.eqb (Ticket.id t) (Item.ticketId item))
         (filter (fun t => String.eqb (Ticket.eventId t) (Event.id event))
                 (tickets s)) = Some ticket
    /\ Ticket.sold ticket + Item.quantity item <= Ticket.quantity ticket.

(** More rows and requests for the statements on the rest of the code. *)

Module Sample2.
Local Open Scope string_scope.

(** The body of [Sample.twiceTheSameTicket]: two lines of 2, no code,
    no [pointsToUse]. *)
Definition twiceTheSameTicket : Body.t :=
  Body.mk Sample.concert
    [Body.mkItem Sample.regular (2 # 1); Body.mkItem Sample.regular (2 # 1)]
    None None.

(** The body of [Sample.halfInPoints]. *)
Definition halfInPoints : Body.t :=
  Body.mk Sample.concert [Body.mkItem Sample.regular (1 # 1)] None
    (Some (2500 # 1)).

(** The body of [Sample.discountedWithPoints]. *)
Definition discountedWithPoints : Body.t :=
  Body.mk Sample.concert [Body.mkItem (Ticket.id Sample.vip) (1 # 1)]
    (Some "REFTWENTY") (Some (3500 # 1)).



Definition fresh : Point.t :=
  Point.mk "e1f20314-2536-4148-9dae-bfc0d1e2f304" (Some Sample.alice) None 500
    "Purchase points for Concert" Sample.nextYear false (Sample.now - 2000).






(** A host that keeps the time of New York. *)
Definition envNewYork : Env :=
  mkEnv Sample.now Sample.now Sample.now
    "4d5e6f7a-8b9c-4dae-bf0a-1b2c3d4e5f6a"
    "5e6f7a8b-9cad-4ebf-8a1b-2c3d4e5f6a7b"
    Sample.now true Sample.newYork.

(** The host when Alice's referral coupon is created. *)
Definition couponEnv : CouponEnv :=
  mkCouponEnv Sample.now "K3J9QX" "f2031425-3647-4259-8ebf-c0d1e2f30415"
    Sample.now JSDate.utc.

(** Three bookings of Alice and one of Bob, in the order the store has
    them, and the [createdAt] column of these rows. *)
Definition earliest : Transaction.t :=
  Transaction.mk "a3142536-4758-4a6b-8c9d-d1e2f3041526" Sample.alice
    Sample.concert 6000 0 6000 TransactionStatus.COMPLETED 0.

Definition bobs : Transaction.t :=
  Transaction.mk "b4253647-5869-4b7c-9dae-e2f304152637" Sample.bob
    Sample.concert 3000 0 3000 TransactionStatus.COMPLETED 0.

Definition latest : Transaction.t :=
  Transaction.mk "c5364758-697a-4c8d-8ebf-f30415263748" Sample.alice
    Sample.concert 9000 900 8100 TransactionStatus.COMPLETED 0.

Definition middle : Transaction.t :=
  Transaction.mk "d6475869-7a8b-4d9e-9fc0-041526374859" Sample.alice
    Sample.concert 3000 0 2000 TransactionStatus.COMPLETED 1000.

Definition createdAt (t : Transaction.t) : Z :=
  if String.eqb (Transaction.id t) (Transaction.id earliest)
  then Sample.now - 3000
  else if String.eqb (Transaction.id t) (Transaction.id middle)
  then Sample.now - 2000
  else if String.eqb (Transaction.id t) (Transaction.id latest)
  then Sample.now - 1000
  else Sample.now - 2500.

Definition history : Store :=
  with_transactions (fun _ => [earliest; bobs; latest; middle]) Sample.store.
End Sample2.
(** * Lemmas about the monad and the loops *)

Lemma tx_eta (st : TxState) :
  mkTx (inTx st) (outside st) (lockedUsers st) (expired st) = st.
Proof. destruct st; reflexivity. Qed.

Lemma itemsFit_cons transactionId item ticketUpdate rest table :
  itemsFit ((item, ticketUpdate) :: rest) table
  = itemFits (TransactionItem.mk transactionId (Item.ticketId item)
                (Item.quantity item) (TicketUpdate.price ticketUpdate)
                (TicketUpdate.price ticketUpdate * Item.quantity item))
    && incrementFits Ticket.id (Item.ticketId item) Ticket.sold
         (Item.quantity item) table
    && itemsFit rest
         (update Ticket.id (Item.ticketId item)
            (Ticket.incrementSold (Item.quantity item)) table).
Proof. reflexivity. Qed.

Lemma createItems_cons transactionId item ticketUpdate rest st :
  createItems transactionId ((item, ticketUpdate) :: rest) st
  = let row :=
      TransactionItem.mk transactionId (Item.ticketId item)
        (Item.quantity item) (TicketUpdate.price ticketUpdate)
        (TicketUpdate.price ticketUpdate * Item.quantity item) in
    match fitsOrThrow (itemFits row)
            (txWrite (with_transactionItems (create row))) st with
    | Returned _ st1 =>
        match txIncrementSold (Item.ticketId item) (Item.quantity item) st1 with
        | Returned _ st2 => createItems transactionId rest st2
        | Thrown e st' => Thrown e st'
        end
    | Thrown e st' => Thrown e st'
    end.
Proof.
  unfold createItems. cbn [forM_]. unfold bind.
  destruct (fitsOrThrow _ _ st); reflexivity.
Qed.

Lemma itemsWritten_cons transactionId item ticketUpdate rest s :
  itemsWritten transactionId ((item, ticketUpdate) :: rest) s
  = itemsWritten transactionId rest
      (with_tickets (update Ticket.id (Item.ticketId item)
         (Ticket.incrementSold (Item.quantity item)))
         (with_transactionItems (create
            (TransactionItem.mk transactionId (Item.ticketId item)
               (Item.quantity item) (TicketUpdate.price ticketUpdate)
               (TicketUpdate.price ticketUpdate * Item.quantity item))) s)).
Proof. reflexivity. Qed.

(** The second loop, when every number fits. *)
Lemma createItems_run transactionId lines st :
  itemsFit lines (tickets (inTx st)) = true ->
  createItems transactionId lines st
  = Returned tt (mkTx (itemsWritten transactionId lines (inTx st)) (outside st)
                      (lockedUsers st) (expired st)).
Proof.
  revert st; induction lines as [| [item ticketUpdate] rest IH]; intros st Hfit.
  - unfold createItems, itemsWritten. simpl. unfold ret. now rewrite tx_eta.
  - rewrite (itemsFit_cons transactionId) in Hfit.
    apply andb_prop in Hfit as [Hfit Hrest].
    apply andb_prop in Hfit as [Hrow Hsold].
    rewrite createItems_cons, itemsWritten_cons. cbv zeta.
    rewrite Hrow. cbn [fitsOrThrow]. unfold txWrite at 1.
    unfold txIncrementSold.
    cbn [inTx tickets with_transactionItems]. rewrite Hsold.
    cbn [fitsOrThrow]. unfold txWrite at 1.
    cbn [inTx outside lockedUsers expired].
    rewrite IH by exact Hrest. reflexivity.
Qed.

(** The second loop, when a number does not fit: it throws, and nothing
    has been committed. *)
Lemma createItems_overflow transactionId lines st :
  itemsFit lines (tickets (inTx st)) = false ->
  exists st',
    createItems transactionId lines st = Thrown Integer_out_of_range st'
    /\ outside st' = outside st.
Proof.
  revert st; induction lines as [| [item ticketUpdate] rest IH]; intros st Hfit.
  - discriminate.
  - rewrite (itemsFit_cons transactionId) in Hfit.
    rewrite createItems_cons. cbv zeta.
    destruct (itemFits _); cbn [fitsOrThrow];
      [| unfold throw; exists st; now split].
    unfold txWrite at 1. unfold txIncrementSold.
    cbn [inTx tickets with_transactionItems].
    destruct (incrementFits Ticket.id (Item.ticketId item) Ticket.sold
                (Item.quantity item) (tickets (inTx st)));
      cbn [fitsOrThrow];
      [| unfold throw; eexists; split; reflexivity].
    unfold txWrite at 1. cbn [inTx outside lockedUsers expired].
    cbn [andb] in Hfit.
    match goal with |- context [createItems transactionId rest ?st1] =>
      destruct (IH st1 Hfit) as (st' & -> & Hout) end.
    exists st'. split; [reflexivity | exact Hout].
Qed.

Lemma markCouponsUsed_run transactionId usedCoupons st :
  markCouponsUsed transactionId usedCoupons st
  = Returned tt
      (mkTx (couponsWritten transactionId usedCoupons (inTx st)) (outside st)
            (lockedUsers st) (expired st)).
Proof.
  unfold markCouponsUsed, couponsWritten.
  revert st; induction usedCoupons as [| couponId rest IH]; intros st.
  - simpl. unfold ret. now rewrite tx_eta.
  - simpl. unfold bind at 1 2. unfold txWrite at 1 2. simpl.
    now rewrite IH.
Qed.

Lemma with_points_id s : with_points (fun tbl => tbl) s = s.
Proof. destruct s; reflexivity. Qed.

Lemma markPoints_run userId userPoints remaining st :
  markPoints userId userPoints remaining st
  = Returned tt
      (mkTx (with_points (markAll userId (taken userPoints remaining)) (inTx st))
            (outside st) (lockedUsers st) (expired st)).
Proof.
  revert remaining st.
  induction userPoints as [| point rest IH]; intros remaining st; simpl.
  - unfold ret, markAll. simpl. now rewrite with_points_id, tx_eta.
  - destruct (remaining <=? 0).
    + unfold ret, markAll. simpl. now rewrite with_points_id, tx_eta.
    + destruct (Point.amount point <=? remaining).
      * unfold bind, txWrite. rewrite IH. simpl. reflexivity.
      * apply IH.
Qed.

(** The debit always returns; when it has something to take off, the
    transaction holds the row of the user from then on. *)
Lemma deductPoints_run env userId pointsToUse_ st :
  deductPoints env userId pointsToUse_ st
  = Returned tt (mkTx (debited env userId pointsToUse_ (inTx st)) (outside st)
                      (if 0 <? pointsToUse_
                       then userId :: lockedUsers st else lockedUsers st)
                      (expired st)).
Proof.
  unfold deductPoints, debited.
  destruct (0 <? pointsToUse_).
  - unfold bind, txWriteUser, txRead. simpl. rewrite markPoints_run. reflexivity.
  - unfold ret. now rewrite tx_eta.
Qed.

(** The credit, when the amount and the new balance fit. *)
Lemma addPointsToUser_run env userId points_ description st :
  isInt points_ = true ->
  incrementFits User.id userId User.pointsBalance points_ (users (outside st))
  = true ->
  addPointsToUser env userId points_ description st
  = Returned tt
      (mkTx (with_users (update User.id userId
               (User.incrementPointsBalance points_))
               (with_points (create (grant env userId points_ description))
                  (inTx st)))
            (with_users (update User.id userId
               (User.incrementPointsBalance points_))
               (with_points (create (grant env userId points_ description))
                  (outside st)))
            (lockedUsers st)
            (expired st || existsb (String.eqb userId) (lockedUsers st))).
Proof.
  intros Hamount Hbalance.
  unfold addPointsToUser, bind. rewrite Hamount. cbn [fitsOrThrow].
  unfold dbWrite, dbIncrementPointsBalance.
  cbn [outside users with_points]. rewrite Hbalance. reflexivity.
Qed.

(** The credit, when the amount fits and the new balance does not: the
    grant has been stored by then. *)
Lemma addPointsToUser_overflow env userId points_ description st :
  isInt points_ = true ->
  incrementFits User.id userId User.pointsBalance points_ (users (outside st))
  = false ->
  exists st',
    addPointsToUser env userId points_ description st
    = Thrown Integer_out_of_range st'
    /\ outside st'
       = with_points (create (grant env userId points_ description))
           (outside st).
Proof.
  intros Hamount Hbalance.
  unfold addPointsToUser, bind. rewrite Hamount. cbn [fitsOrThrow].
  unfold dbWrite, dbIncrementPointsBalance.
  cbn [outside users with_points]. rewrite Hbalance. cbn [fitsOrThrow].
  unfold throw. eexists. split; reflexivity.
Qed.

(** The first loop reads nothing from the state and leaves it as it is. *)
Lemma validateItems_state eventTickets items_ totalAmount ticketUpdates st :
  match validateItems eventTickets items_ totalAmount ticketUpdates st with
  | Returned _ st' | Thrown _ st' => st' = st
  end.
Proof.
  revert totalAmount ticketUpdates.
  induction items_ as [| item rest IH]; intros totalAmount ticketUpdates; simpl.
  - reflexivity.
  - destruct (find _ eventTickets) as [ticket |]; [| reflexivity].
    destruct (_ >? _); [reflexivity | apply IH].
Qed.

Lemma applyCoupon_returns env userId code totalAmount st :
  exists discountAmount usedCoupons,
    applyCoupon env userId code totalAmount st
    = Returned (discountAmount, usedCoupons) st.
Proof.
  unfold applyCoupon, bind.
  destruct (truthy code); unfold txRead;
    match goal with |- context [findFirst ?w ?o ?t] =>
      destruct (findFirst w o t) end; unfold ret; eauto.
Qed.

Lemma gtb_false (a b : Z) : (a >? b) = false <-> a <= b.
Proof. rewrite Z.gtb_ltb. apply Z.ltb_ge. Qed.

Lemma status_eqb_PUBLISHED (s : EventStatus.t) :
  EventStatus.eqb s EventStatus.PUBLISHED = true <-> s = EventStatus.PUBLISHED.
Proof. destruct s; simpl; split; congruence. Qed.

Lemma isInt_spec n : isInt n = true <-> INT_MIN <= n <= INT_MAX.
Proof.
  unfold isInt. rewrite andb_true_iff, !Z.leb_le. tauto.
Qed.

Lemma calculatePoints_isInt amount :
  isInt amount = true -> isInt (calculatePoints amount) = true.
Proof.
  rewrite !isInt_spec. unfold calculatePoints, INT_MIN, INT_MAX.
  intros H. Z.div_mod_to_equations. lia.
Qed.

(** The writes, when every number fits: the run returns the transaction
    row and ends in the settled state. *)
Lemma writes_run env userId d event user totalAmount ticketUpdates
  discountAmount usedCoupons st :
  writesFit env userId d user totalAmount ticketUpdates discountAmount st
  = true ->
  writes env userId d event
    (transactionOf env userId d user totalAmount discountAmount)
    ticketUpdates usedCoupons st
  = Returned (transactionOf env userId d user totalAmount discountAmount)
      (settled env userId d event user totalAmount ticketUpdates
               discountAmount usedCoupons st).
Proof.
  unfold writesFit. cbv zeta.
  set (transaction := transactionOf env userId d user totalAmount discountAmount).
  intros Hfit.
  apply andb_prop in Hfit as [Hfit Hcredit].
  apply andb_prop in Hfit as [Hrow Hitems].
  unfold writes, settled. fold transaction.
  unfold bind at 1. rewrite Hrow. cbn [fitsOrThrow]. unfold txWrite at 1.
  unfold bind at 1. rewrite createItems_run by exact Hitems.
  unfold bind at 1. unfold txWrite at 1.
  unfold bind at 1. rewrite markCouponsUsed_run.
  unfold bind at 1. rewrite deductPoints_run.
  unfold bind at 1. unfold credited.
  cbn [inTx outside lockedUsers expired].
  destruct (0 <? calculatePoints (Transaction.finalAmount transaction)) eqn:Hpos.
  - cbn [negb orb] in Hcredit.
    rewrite addPointsToUser_run.
    + reflexivity.
    + apply calculatePoints_isInt.
      unfold transactionFits in Hrow.
      apply andb_prop in Hrow as [Hrow _].
      now apply andb_prop in Hrow as [_ Hrow].
    + exact Hcredit.
  - reflexivity.
Qed.

(** The writes, when a number does not fit: the run throws, and has
    committed nothing, or the grant alone. *)
Lemma writes_overflow env userId d event user totalAmount ticketUpdates
  discountAmount usedCoupons st :
  writesFit env userId d user totalAmount ticketUpdates discountAmount st
  = false ->
  exists st',
    writes env userId d event
      (transactionOf env userId d user totalAmount discountAmount)
      ticketUpdates usedCoupons st
    = Thrown Integer_out_of_range st'
    /\ nothingButAGrant env userId (outside st) (outside st').
Proof.
  unfold writesFit. cbv zeta.
  set (transaction := transactionOf env userId d user totalAmount discountAmount).
  intros Hfit.
  unfold writes, nothingButAGrant.
  unfold bind at 1.
  destruct (transactionFits transaction) eqn:Hrow; cbn [fitsOrThrow];
    [| unfold throw; exists st; split; [reflexivity | now left]].
  unfold txWrite at 1. unfold bind at 1.
  destruct (itemsFit (combine (items d) ticketUpdates) (tickets (inTx st)))
    eqn:Hitems.
  - rewrite createItems_run by exact Hitems.
    unfold bind at 1. unfold txWrite at 1.
    unfold bind at 1. rewrite markCouponsUsed_run.
    unfold bind at 1. rewrite deductPoints_run.
    unfold bind at 1.
    cbn [andb] in Hfit.
    destruct (0 <? calculatePoints (Transaction.finalAmount transaction));
      [| discriminate].
    cbn [negb orb] in Hfit.
    match goal with |- context [addPointsToUser ?e ?u ?n ?ds ?x] =>
      destruct (addPointsToUser_overflow e u n ds x) as (st' & -> & Hout)
    end.
    + apply calculatePoints_isInt.
      unfold transactionFits in Hrow.
      apply andb_prop in Hrow as [Hrow _].
      now apply andb_prop in Hrow as [_ Hrow].
    + exact Hfit.
    + exists st'. split; [reflexivity |]. right.
      cbn [outside] in Hout. eauto.
  - match goal with |- context [createItems ?i ?l ?x] =>
      destruct (createItems_overflow i l x) as (st' & -> & Hout)
    end; [exact Hitems |].
    exists st'. split; [reflexivity |]. left. exact Hout.
Qed.

(** Past its checks, the callback is its writes. *)
Lemma callback_checked env userId d st event user totalAmount ticketUpdates
  discountAmount usedCoupons :
  passes env userId d st event user totalAmount ticketUpdates discountAmount
         usedCoupons ->
  callback env userId d st
  = writes env userId d event
      (transactionOf env userId d user totalAmount discountAmount)
      ticketUpdates usedCoupons st.
Proof.
  intros (Hev & Hst & Hval & Hseats & Hcoupon & Huser).
  unfold callback.
  unfold bind at 1. unfold txRead at 1. rewrite Hev.
  unfold bind at 1. unfold txRead at 1.
  rewrite Hst. cbn [negb EventStatus.eqb]. cbv beta iota.
  unfold bind at 1. rewrite Hval.
  fold (totalTickets d).
  replace (Event.bookedSeats event + totalTickets d >? Event.availableSeats event)
    with false by (symmetry; now apply gtb_false).
  unfold bind at 1. rewrite Hcoupon.
  unfold bind at 1. unfold txRead at 1. rewrite Huser.
  reflexivity.
Qed.

(** A run that passes every check, with numbers that fit, returns the
    transaction row and ends in the settled state; nothing else makes it
    return. *)
Lemma callback_passes env userId d st event user totalAmount ticketUpdates
  discountAmount usedCoupons :
  passes env userId d st event user totalAmount ticketUpdates discountAmount
         usedCoupons ->
  writesFit env userId d user totalAmount ticketUpdates discountAmount st
  = true ->
  callback env userId d st
  = Returned (transactionOf env userId d user totalAmount discountAmount)
      (settled env userId d event user totalAmount ticketUpdates
               discountAmount usedCoupons st).
Proof.
  intros Hp Hfit. rewrite (callback_checked _ _ _ _ _ _ _ _ _ _ Hp).
  now apply writes_run.
Qed.

Lemma callback_overflow env userId d st event user totalAmount ticketUpdates
  discountAmount usedCoupons :
  passes env userId d st event user totalAmount ticketUpdates discountAmount
         usedCoupons ->
  writesFit env userId d user totalAmount ticketUpdates discountAmount st
  = false ->
  exists st',
    callback env userId d st = Thrown Integer_out_of_range st'
    /\ nothingButAGrant env userId (outside st) (outside st').
Proof.
  intros Hp Hfit. rewrite (callback_checked _ _ _ _ _ _ _ _ _ _ Hp).
  now apply writes_overflow.
Qed.

(** Every check of the callback comes before its first write: either
    one of them throws, on the state as it was, or they all pass. *)
Lemma callback_cases env userId d st :
  (exists e, callback env userId d st = Thrown e st /\ isCheck e = true)
  \/ (exists event user totalAmount ticketUpdates discountAmount usedCoupons,
        passes env userId d st event user totalAmount ticketUpdates
               discountAmount usedCoupons).
Proof.
  unfold passes, callback.
  unfold bind at 1. unfold txRead at 1.
  destruct (find _ (events (inTx st))) as [event |] eqn:Hev;
    [| left; eexists; split; reflexivity].
  unfold bind at 1. unfold txRead at 1.
  destruct (EventStatus.eqb (Event.status event) EventStatus.PUBLISHED) eqn:Hst;
    [| left; eexists; split; reflexivity].
  cbn [negb]. cbv beta iota.
  unfold bind at 1.
  pose proof (validateItems_state
    (filter (fun t => String.eqb (Ticket.eventId t) (Event.id event))
            (tickets (inTx st))) (items d) 0 [] st) as Hsame.
  destruct (validateItems _ (items d) 0 [] st)
    as [[totalAmount ticketUpdates] st1 | e st1] eqn:Hval; subst st1.
  2:{ left. exists e. split; [reflexivity |].
      clear - Hval.
      revert Hval. generalize 0 at 1. generalize (@nil TicketUpdate.t).
      induction (items d) as [| item rest IH]; intros tus total Hval;
        simpl in Hval; [discriminate |].
      destruct (find _ _) as [ticket |];
        [| injection Hval as <-; reflexivity].
      destruct (_ >? _); [injection Hval as <-; reflexivity | eauto]. }
  fold (totalTickets d).
  destruct (Event.bookedSeats event + totalTickets d >? Event.availableSeats event)
    eqn:Hseats; [left; eexists; split; reflexivity |].
  unfold bind at 1.
  destruct (applyCoupon_returns env userId (couponCode d) totalAmount st)
    as (discountAmount & usedCoupons & Hcoupon).
  rewrite Hcoupon.
  unfold bind at 1. unfold txRead at 1.
  destruct (find _ (users (inTx st))) as [user |] eqn:Huser;
    [| left; eexists; split; reflexivity].
  right.
  exists event, user, totalAmount, ticketUpdates, discountAmount, usedCoupons.
  repeat split; auto.
  - now apply status_eqb_PUBLISHED.
  - now apply gtb_false.
Qed.

Lemma callback_Returned env userId d st t st' :
  callback env userId d st = Returned t st' ->
  exists event user totalAmount ticketUpdates discountAmount usedCoupons,
    passes env userId d st event user totalAmount ticketUpdates discountAmount
           usedCoupons
    /\ t = transactionOf env userId d user totalAmount discountAmount
    /\ st' = settled env userId d event user totalAmount ticketUpdates
               discountAmount usedCoupons st
    /\ writesFit env userId d user totalAmount ticketUpdates discountAmount st
       = true.
Proof.
  intros H.
  destruct (callback_cases env userId d st)
    as [(e & He & _)
       | (event & user & totalAmount & ticketUpdates & discountAmount
          & usedCoupons & Hp)]; [congruence |].
  exists event, user, totalAmount, ticketUpdates, discountAmount, usedCoupons.
  destruct (writesFit env userId d user totalAmount ticketUpdates
              discountAmount st) eqn:Hfit.
  - rewrite (callback_passes _ _ _ _ _ _ _ _ _ _ Hp Hfit) in H.
    injection H as <- <-. auto.
  - destruct (callback_overflow _ _ _ _ _ _ _ _ _ _ Hp Hfit) as (st1 & E & _).
    congruence.
Qed.

(** What the callback throws is a check of its own or a number out of
    range.  A run that throws has committed nothing, unless it throws
    for a number out of range, when it may have committed a grant. *)
Lemma callback_Thrown env userId d st e st' :
  callback env userId d st = Thrown e st' ->
  e <> Transaction_not_committed
  /\ (e <> Integer_out_of_range -> st' = st)
  /\ nothingButAGrant env userId (outside st) (outside st').
Proof.
  intros Hc.
  destruct (callback_cases env userId d st)
    as [(e1 & He & Hne)
       | (event & user & totalAmount & ticketUpdates & discountAmount
          & usedCoupons & Hp)].
  - rewrite He in Hc. injection Hc as <- <-.
    split; [intros ->; discriminate |].
    split; [reflexivity | now left].
  - destruct (writesFit env userId d user totalAmount ticketUpdates
                discountAmount st) eqn:Hfit.
    + rewrite (callback_passes _ _ _ _ _ _ _ _ _ _ Hp Hfit) in Hc.
      discriminate.
    + destruct (callback_overflow _ _ _ _ _ _ _ _ _ _ Hp Hfit)
        as (st1 & E & Hout).
      rewrite E in Hc. injection Hc as <- <-.
      split; [discriminate |].
      split; [intros Hne; now destruct Hne | exact Hout].
Qed.

(** ** Which tables each group of writes touches *)

Lemma itemsWritten_frame transactionId lines s :
  users (itemsWritten transactionId lines s) = users s
  /\ events (itemsWritten transactionId lines s) = events s
  /\ transactions (itemsWritten transactionId lines s) = transactions s
  /\ points (itemsWritten transactionId lines s) = points s
  /\ discountCoupons (itemsWritten transactionId lines s) = discountCoupons s
  /\ transactionCoupons (itemsWritten transactionId lines s)
     = transactionCoupons s.
Proof.
  unfold itemsWritten. revert s.
  induction lines as [| [item ticketUpdate] rest IH]; intros s; simpl.
  - repeat split.
  - destruct (IH (with_tickets (update Ticket.id (Item.ticketId item)
      (Ticket.incrementSold (Item.quantity item)))
      (with_transactionItems (create
        (TransactionItem.mk transactionId (Item.ticketId item)
           (Item.quantity item) (TicketUpdate.price ticketUpdate)
           (TicketUpdate.price ticketUpdate * Item.quantity item))) s)))
      as (-> & -> & -> & -> & -> & ->).
    repeat split.
Qed.

Lemma couponsWritten_frame transactionId usedCoupons s :
  users (couponsWritten transactionId usedCoupons s) = users s
  /\ events (couponsWritten transactionId usedCoupons s) = events s
  /\ tickets (couponsWritten transactionId usedCoupons s) = tickets s
  /\ transactions (couponsWritten transactionId usedCoupons s) = transactions s
  /\ points (couponsWritten transactionId usedCoupons s) = points s.
Proof.
  unfold couponsWritten. revert s.
  induction usedCoupons as [| couponId rest IH]; intros s; simpl.
  - repeat split.
  - match goal with |- context [fold_left ?f rest ?x] =>
      destruct (IH x) as (-> & -> & -> & -> & ->) end.
    repeat split.
Qed.

Lemma debited_frame env userId p s :
  events (debited env userId p s) = events s
  /\ tickets (debited env userId p s) = tickets s
  /\ transactions (debited env userId p s) = transactions s
  /\ discountCoupons (debited env userId p s) = discountCoupons s
  /\ transactionCoupons (debited env userId p s) = transactionCoupons s.
Proof. unfold debited. destruct (0 <? p); repeat split. Qed.

Lemma credited_frame env userId earned description s :
  events (credited env userId earned description s) = events s
  /\ tickets (credited env userId earned description s) = tickets s
  /\ transactions (credited env userId earned description s) = transactions s
  /\ discountCoupons (credited env userId earned description s)
     = discountCoupons s
  /\ transactionCoupons (credited env userId earned description s)
     = transactionCoupons s.
Proof. unfold credited. destruct (0 <? earned); repeat split. Qed.

Lemma settled_transactions env userId d event user totalAmount ticketUpdates
  discountAmount usedCoupons st :
  transactions (inTx (settled env userId d event user totalAmount ticketUpdates
                              discountAmount usedCoupons st))
  = transactions (inTx st)
    ++ [transactionOf env userId d user totalAmount discountAmount].
Proof.
  unfold settled. cbn [inTx].
  match goal with |- transactions (credited ?e ?u ?n ?ds ?x) = _ =>
    destruct (credited_frame e u n ds x) as (_ & _ & -> & _) end.
  match goal with |- transactions (debited ?e ?u ?p ?x) = _ =>
    destruct (debited_frame e u p x) as (_ & _ & -> & _) end.
  match goal with |- transactions (couponsWritten ?i ?l ?x) = _ =>
    destruct (couponsWritten_frame i l x) as (_ & _ & _ & -> & _) end.
  cbn [with_events transactions].
  match goal with |- transactions (itemsWritten ?i ?l ?x) = _ =>
    destruct (itemsWritten_frame i l x) as (_ & _ & -> & _) end.
  reflexivity.
Qed.

(** ** Outcomes of [bookTickets] *)

Lemma spendsAndEarns_false t :
  spendsAndEarns t = false
  <-> Transaction.pointsUsed t <= 0 \/ Transaction.finalAmount t < 1000.
Proof.
  unfold spendsAndEarns, calculatePoints.
  rewrite andb_false_iff, !Z.ltb_ge. split; intros [H | H]; auto.
  - right. apply Z.nle_gt. intros Hge.
    pose proof (Z.div_le_lower_bound (Transaction.finalAmount t) 1000 1
                  eq_refl ltac:(lia)). lia.
  - right. apply Z.nlt_ge. intros Hpos.
    pose proof (Z.mul_div_le (Transaction.finalAmount t) 1000 eq_refl). lia.
Qed.

(** Whether the transaction of a settled run has expired: it has when
    the run has both taken points off the balance and credited some. *)
Lemma settled_expired env userId d event user totalAmount ticketUpdates
  discountAmount usedCoupons s :
  expired (settled env userId d event user totalAmount ticketUpdates
                   discountAmount usedCoupons (begin s))
  = spendsAndEarns (transactionOf env userId d user totalAmount discountAmount).
Proof.
  unfold settled, spendsAndEarns. cbn [expired lockedUsers].
  destruct (0 <? Transaction.pointsUsed _);
    destruct (0 <? calculatePoints _); cbn [existsb orb andb];
    try reflexivity.
  now rewrite String.eqb_refl.
Qed.

Lemma bookTickets_Ok env userId d s t s' :
  bookTickets env userId d s = (Ok t, s') ->
  exists event user totalAmount ticketUpdates discountAmount usedCoupons,
    passes env userId d (begin s) event user totalAmount ticketUpdates
           discountAmount usedCoupons
    /\ t = transactionOf env userId d user totalAmount discountAmount
    /\ s' = inTx (settled env userId d event user totalAmount ticketUpdates
                          discountAmount usedCoupons (begin s))
    /\ commits env = true
    /\ writesFit env userId d user totalAmount ticketUpdates discountAmount
         (begin s) = true
    /\ spendsAndEarns t = false.
Proof.
  unfold bookTickets, run_transaction. intros H.
  destruct (callback env userId d (begin s)) as [t1 st1 | e st1] eqn:Hc;
    [| discriminate].
  apply callback_Returned in Hc
    as (event & user & totalAmount & ticketUpdates & discountAmount
        & usedCoupons & Hp & -> & -> & Hfit).
  rewrite settled_expired in H.
  destruct (commits env) eqn:Hcommit; [| discriminate].
  destruct (spendsAndEarns _) eqn:Hboth; [discriminate |].
  cbn [andb negb] in H. injection H as <- <-.
  exists event, user, totalAmount, ticketUpdates, discountAmount, usedCoupons.
  auto 10.
Qed.

Lemma passes_bookTickets env userId d s event user totalAmount ticketUpdates
  discountAmount usedCoupons :
  passes env userId d (begin s) event user totalAmount ticketUpdates
         discountAmount usedCoupons ->
  commits env = true ->
  writesFit env userId d user totalAmount ticketUpdates discountAmount
    (begin s) = true ->
  spendsAndEarns (transactionOf env userId d user totalAmount discountAmount)
  = false ->
  bookTickets env userId d s
  = (Ok (transactionOf env userId d user totalAmount discountAmount),
     inTx (settled env userId d event user totalAmount ticketUpdates
                   discountAmount usedCoupons (begin s))).
Proof.
  intros Hp Hcommit Hfit Hboth. unfold bookTickets, run_transaction.
  rewrite (callback_passes _ _ _ _ _ _ _ _ _ _ Hp Hfit).
  now rewrite settled_expired, Hcommit, Hboth.
Qed.

(** A run that passes every check, with numbers that fit, and is not
    committed: the booking fails, and of all its writes the credit
    alone is in the store.  The store may refuse the commit on its own;
    it always does when the run has both spent and earned points, the
    transaction having expired while the credit waited for the row of
    the user. *)
Lemma passes_not_committed env userId d s event user totalAmount ticketUpdates
  discountAmount usedCoupons :
  passes env userId d (begin s) event user totalAmount ticketUpdates
         discountAmount usedCoupons ->
  writesFit env userId d user totalAmount ticketUpdates discountAmount
    (begin s) = true ->
  commits env = false
  \/ spendsAndEarns (transactionOf env userId d user totalAmount discountAmount)
     = true ->
  bookTickets env userId d s
  = (Err Transaction_not_committed,
     credited env userId
       (calculatePoints
          (Transaction.finalAmount
             (transactionOf env userId d user totalAmount discountAmount)))
       ("Purchase points for " ++ Event.name event)%string s).
Proof.
  intros Hp Hfit Hno. unfold bookTickets, run_transaction.
  rewrite (callback_passes _ _ _ _ _ _ _ _ _ _ Hp Hfit).
  rewrite settled_expired.
  destruct Hno as [-> | ->]; [| rewrite andb_false_r]; reflexivity.
Qed.

Lemma Math_min_le_cap (a b c : Z) : Math_min a b c <= c.
Proof. unfold Math_min. lia. Qed.

(** ** The balance and the ledger after a run *)

Lemma find_update_user userId (f : User.t -> User.t) table :
  (forall u, User.id (f u) = User.id u) ->
  find (fun u => String.eqb (User.id u) userId) (update User.id userId f table)
  = option_map f (find (fun u => String.eqb (User.id u) userId) table).
Proof.
  intros Hid. unfold update.
  induction table as [| u rest IH]; simpl; [reflexivity |].
  destruct (String.eqb (User.id u) userId) eqn:E; simpl.
  - now rewrite Hid, E.
  - now rewrite E.
Qed.

Lemma balanceOf_debited env userId p s :
  balanceOf userId (debited env userId p s)
  = option_map (fun b => b - Z.max 0 p) (balanceOf userId s).
Proof.
  unfold debited, balanceOf.
  destruct (0 <? p) eqn:Hp.
  - cbn [users with_points with_users].
    rewrite find_update_user by reflexivity.
    apply Z.ltb_lt in Hp.
    destruct (find _ (users s)) as [u |]; simpl; [| reflexivity].
    f_equal. lia.
  - apply Z.ltb_ge in Hp.
    destruct (find _ (users s)) as [u |]; simpl; [| reflexivity].
    f_equal. lia.
Qed.

Lemma balanceOf_credited env userId earned description s :
  0 <= earned ->
  balanceOf userId (credited env userId earned description s)
  = option_map (fun b => b + earned) (balanceOf userId s).
Proof.
  intros Hpos. unfold credited, balanceOf.
  destruct (0 <? earned) eqn:Hp.
  - cbn [users with_points with_users].
    rewrite find_update_user by reflexivity.
    now destruct (find _ (users s)).
  - apply Z.ltb_ge in Hp.
    destruct (find _ (users s)) as [u |]; simpl; [| reflexivity].
    f_equal. lia.
Qed.

Lemma markAll_ids userId marked table :
  map Point.id (markAll userId marked table) = map Point.id table
  /\ map Point.amount (markAll userId marked table) = map Point.amount table.
Proof.
  unfold markAll. revert table.
  induction marked as [| point rest IH]; intros table; simpl; [now split |].
  destruct (IH (update Point.id (Point.id point) (markUsed userId) table))
    as [-> ->].
  unfold update. rewrite !map_map.
  split; apply map_ext; intros q;
    destruct (String.eqb (Point.id q) (Point.id point)); reflexivity.
Qed.

Lemma points_debited env userId p s :
  map Point.id (points (debited env userId p s)) = map Point.id (points s)
  /\ map Point.amount (points (debited env userId p s))
     = map Point.amount (points s).
Proof.
  unfold debited. destruct (0 <? p); [| now split].
  cbn [points with_points with_users]. apply markAll_ids.
Qed.

(** The users and the grants the writes before the debit leave alone. *)
Lemma before_debit_frame env userId d user totalAmount ticketUpdates
  discountAmount usedCoupons s :
  let x :=
    couponsWritten
      (Transaction.id (transactionOf env userId d user totalAmount discountAmount))
      usedCoupons
      (with_events (update Event.id (eventId d)
         (Event.incrementBookedSeats (totalTickets d)))
        (itemsWritten
           (Transaction.id
              (transactionOf env userId d user totalAmount discountAmount))
           (combine (items d) ticketUpdates)
           (with_transactions
              (create (transactionOf env userId d user totalAmount discountAmount))
              s))) in
  users x = users s /\ points x = points s.
Proof.
  intros x. subst x.
  match goal with |- users (couponsWritten ?i ?l ?y) = _ /\ _ =>
    destruct (couponsWritten_frame i l y) as (-> & _ & _ & _ & ->) end.
  cbn [with_events users points].
  match goal with |- users (itemsWritten ?i ?l ?y) = _ /\ _ =>
    destruct (itemsWritten_frame i l y) as (-> & _ & _ & -> & _) end.
  now split.
Qed.

Lemma balanceOf_users userId s s' :
  users s = users s' -> balanceOf userId s = balanceOf userId s'.
Proof. unfold balanceOf. now intros ->. Qed.

Lemma calculatePoints_nonneg amount : 0 <= amount -> 0 <= calculatePoints amount.
Proof. intros H. unfold calculatePoints. now apply Z.div_pos. Qed.

(** ** The coupon step *)

Lemma find_none_iff {A} (p : A -> bool) l :
  find p l = None <-> forall x, In x l -> p x = false.
Proof.
  split; [apply find_none |].
  induction l as [| a rest IH]; intros H; simpl; [reflexivity |].
  rewrite (H a) by now left.
  apply IH. intros x Hx. apply H. now right.
Qed.

Lemma hd_insertBy {A} (le : A -> A -> bool) x l :
  hd_error (insertBy le x l)
  = Some match hd_error l with
         | None => x
         | Some y => if le x y then x else y
         end.
Proof. destruct l as [| y rest]; simpl; [| destruct (le x y)]; reflexivity. Qed.

(** With [orderBy: { key: "desc" }], [findFirst] returns the first of
    the rows whose key is the greatest. *)
Lemma hd_sortBy_desc {A} (key : A -> Z) l :
  match hd_error (sortBy (desc key) l) with
  | None => l = []
  | Some k =>
      exists before after,
        l = before ++ k :: after
        /\ (forall k', In k' before -> key k' < key k)
        /\ (forall k', In k' after -> key k' <= key k)
  end.
Proof.
  induction l as [| x rest IH]; simpl; [reflexivity |].
  rewrite hd_insertBy.
  destruct (hd_error (sortBy (desc key) rest)) as [y |].
  - destruct IH as (before & after & -> & Hbefore & Hafter).
    unfold desc. destruct (key y <=? key x) eqn:Hle.
    + apply Z.leb_le in Hle.
      exists [], (before ++ y :: after). split; [reflexivity |].
      split; [intros k' [] |].
      intros k' Hin. apply in_app_or in Hin as [Hin | [<- | Hin]].
      * specialize (Hbefore k' Hin). lia.
      * exact Hle.
      * specialize (Hafter k' Hin). lia.
    + apply Z.leb_gt in Hle.
      exists (x :: before), after. split; [reflexivity |].
      split; [| exact Hafter].
      intros k' [<- | Hin]; [exact Hle | now apply Hbefore].
  - subst rest. exists [], []. split; [reflexivity |].
    split; intros k' [].
Qed.

Lemma couponsWritten_tables transactionId usedCoupons s :
  discountCoupons (couponsWritten transactionId usedCoupons s)
  = fold_left (fun tbl couponId =>
      update DiscountCoupon.id couponId
        DiscountCoupon.setUsed
        tbl) usedCoupons (discountCoupons s)
  /\ transactionCoupons (couponsWritten transactionId usedCoupons s)
     = transactionCoupons s
       ++ map (TransactionCoupon.mk transactionId) usedCoupons.
Proof.
  unfold couponsWritten. revert s.
  induction usedCoupons as [| couponId rest IH]; intros s; simpl.
  - now rewrite app_nil_r.
  - match goal with |- context [fold_left ?f rest ?x] =>
      destruct (IH x) as [-> ->] end.
    cbn [discountCoupons transactionCoupons with_transactionCoupons
         with_discountCoupons].
    unfold create. now rewrite <- app_assoc.
Qed.

(** The coupons and the links a settled run leaves. *)
Lemma settled_coupons env userId d event user totalAmount ticketUpdates
  discountAmount usedCoupons s :
  let s' := inTx (settled env userId d event user totalAmount ticketUpdates
                          discountAmount usedCoupons (begin s)) in
  discountCoupons s'
  = fold_left (fun tbl couponId =>
      update DiscountCoupon.id couponId
        DiscountCoupon.setUsed
        tbl) usedCoupons (discountCoupons s)
  /\ transactionCoupons s'
     = transactionCoupons s
       ++ map (TransactionCoupon.mk (transactionUuid env)) usedCoupons.
Proof.
  intros s'. subst s'. unfold settled. cbn [inTx].
  match goal with |- discountCoupons (credited ?e ?u ?n ?ds ?x) = _ /\ _ =>
    destruct (credited_frame e u n ds x) as (_ & _ & _ & -> & ->) end.
  match goal with |- discountCoupons (debited ?e ?u ?p ?x) = _ /\ _ =>
    destruct (debited_frame e u p x) as (_ & _ & _ & -> & ->) end.
  match goal with |- discountCoupons (couponsWritten ?i ?l ?x) = _ /\ _ =>
    destruct (couponsWritten_tables i l x) as [-> ->] end.
  cbn [with_events discountCoupons transactionCoupons].
  match goal with |- context [itemsWritten ?i ?l ?x] =>
    destruct (itemsWritten_frame i l x) as (_ & _ & _ & _ & -> & ->) end.
  split; reflexivity.
Qed.

(** ** The ledger under the debit *)

Lemma sumZ_perm {A} (f : A -> Z) l l' :
  Permutation l l' -> sumZ f l = sumZ f l'.
Proof. induction 1; simpl; lia. Qed.

Lemma insertBy_perm {A} (le : A -> A -> bool) x l :
  Permutation (insertBy le x l) (x :: l).
Proof.
  induction l as [| y rest IH]; simpl; [reflexivity |].
  destruct (le x y); [reflexivity |].
  rewrite IH. apply perm_swap.
Qed.

Lemma sortBy_perm {A} (le : A -> A -> bool) l : Permutation (sortBy le l) l.
Proof.
  induction l as [| x rest IH]; simpl; [reflexivity |].
  rewrite insertBy_perm. now constructor.
Qed.

Lemma taken_incl userPoints remaining c :
  In c (taken userPoints remaining) -> In c userPoints.
Proof.
  revert remaining.
  induction userPoints as [| point rest IH]; intros remaining; simpl; [easy |].
  destruct (remaining <=? 0); [easy |].
  destruct (Point.amount point <=? remaining).
  - intros [<- | Hin]; [now left | right; eauto].
  - intros Hin. right. eauto.
Qed.

Lemma taken_NoDup userPoints remaining :
  NoDup userPoints -> NoDup (taken userPoints remaining).
Proof.
  intros Hnd. revert remaining.
  induction Hnd as [| point rest Hnotin Hnd IH]; intros remaining; simpl;
    [constructor |].
  destruct (remaining <=? 0); [constructor |].
  destruct (Point.amount point <=? remaining); [| apply IH].
  constructor; [| apply IH].
  intros Hin. apply Hnotin. eapply taken_incl, Hin.
Qed.

(** The grants taken never add up to more than was to be used. *)
Lemma taken_sum_le userPoints remaining :
  0 <= remaining -> sumZ Point.amount (taken userPoints remaining) <= remaining.
Proof.
  revert remaining.
  induction userPoints as [| point rest IH]; intros remaining Hpos; simpl;
    [exact Hpos |].
  destruct (remaining <=? 0); [exact Hpos |].
  destruct (Point.amount point <=? remaining) eqn:Hfits; [| now apply IH].
  apply Z.leb_le in Hfits. simpl.
  specialize (IH (remaining - Point.amount point)). lia.
Qed.

(** Marking the rows one id after the other is one pass over the table. *)
Lemma markAll_map userId marked table :
  markAll userId marked table
  = map (fun q => if idIn marked q then markUsed userId q else q) table.
Proof.
  unfold markAll. revert table.
  induction marked as [| point rest IH]; intros table; simpl.
  - symmetry. apply map_id.
  - rewrite IH. unfold update. rewrite map_map.
    apply map_ext. intros q. unfold idIn. simpl.
    destruct (String.eqb (Point.id q) (Point.id point)) eqn:E; simpl.
    + now destruct (existsb _ rest).
    + reflexivity.
Qed.

Lemma live_markUsed userId now who q : live who now (markUsed userId q) = false.
Proof. unfold live, markUsed. simpl. now rewrite andb_false_r. Qed.

Lemma liveSum_marked userId who now (sel : Point.t -> bool) table :
  liveSum who now
    (map (fun q => if sel q then markUsed userId q else q) table)
  = liveSum who now table
    - sumZ Point.amount (filter (fun q => live who now q && sel q) table).
Proof.
  unfold liveSum.
  induction table as [| q rest IH]; simpl; [reflexivity |].
  destruct (sel q) eqn:Hsel.
  - rewrite live_markUsed, andb_true_r.
    destruct (live who now q); simpl; lia.
  - rewrite andb_false_r.
    destruct (live who now q); simpl; lia.
Qed.

Lemma markedAmount_marked userId (sel : Point.t -> bool) table :
  markedAmount table
    (map (fun q => if sel q then markUsed userId q else q) table)
  = sumZ Point.amount
      (filter (fun q => negb (Point.isUsed q) && sel q) table).
Proof.
  unfold markedAmount.
  induction table as [| q rest IH]; simpl; [reflexivity |].
  rewrite IH. destruct (sel q); simpl.
  - rewrite andb_true_r. destruct (Point.isUsed q); simpl; lia.
  - rewrite andb_false_r. destruct (Point.isUsed q); simpl; lia.
Qed.

Lemma markedAmount_same table : markedAmount table table = 0.
Proof.
  unfold markedAmount.
  induction table as [| q rest IH]; simpl; [reflexivity |].
  rewrite IH. now destruct (Point.isUsed q).
Qed.

(** A primary key tells rows apart. *)
Lemma key_injective {A} (key : A -> string) l a b :
  NoDup (map key l) -> In a l -> In b l -> key a = key b -> a = b.
Proof.
  induction l as [| x rest IH]; simpl; intros Hnd Ha Hb E; [easy |].
  inversion Hnd as [| ? ? Hnotin Hnd']; subst.
  destruct Ha as [-> | Ha], Hb as [-> | Hb]; auto.
  - exfalso. apply Hnotin. rewrite E. now apply in_map.
  - exfalso. apply Hnotin. rewrite <- E. now apply in_map.
Qed.

Lemma idIn_In marked table q :
  NoDup (map Point.id table) ->
  (forall c, In c marked -> In c table) ->
  In q table -> idIn marked q = true -> In q marked.
Proof.
  intros Hnd Hincl Hq Hsel. unfold idIn in Hsel.
  apply existsb_exists in Hsel as (c & Hc & E).
  apply String.eqb_eq in E.
  now rewrite (key_injective Point.id table q c Hnd Hq (Hincl c Hc) E).
Qed.

Lemma In_idIn marked c : In c marked -> idIn marked c = true.
Proof.
  intros Hc. unfold idIn. apply existsb_exists.
  exists c. split; [exact Hc | apply String.eqb_refl].
Qed.

(** The rows of the table the run marks are the grants it has taken. *)
Lemma marked_rows_are_taken marked table :
  NoDup (map Point.id table) ->
  NoDup marked ->
  (forall c, In c marked -> In c table) ->
  Permutation (filter (idIn marked) table) marked.
Proof.
  intros Hnd Hndm Hincl.
  apply NoDup_Permutation.
  - apply NoDup_filter. eapply NoDup_map_inv, Hnd.
  - exact Hndm.
  - intros q. rewrite filter_In. split.
    + intros [Hq Hsel]. eapply idIn_In; eauto.
    + intros Hq. split; [now apply Hincl | now apply In_idIn].
Qed.

Lemma userPoints_live userId now table c :
  In c (findMany (live userId now) (asc Point.createdAt) table) ->
  In c table /\ live userId now c = true.
Proof.
  unfold findMany. intros Hin.
  apply (Permutation_in _ (sortBy_perm _ _)) in Hin.
  now apply filter_In in Hin.
Qed.

Lemma userPoints_NoDup userId now table :
  NoDup (map Point.id table) ->
  NoDup (findMany (live userId now) (asc Point.createdAt) table).
Proof.
  intros Hnd. unfold findMany.
  eapply Permutation_NoDup; [symmetry; apply sortBy_perm |].
  apply NoDup_filter. eapply NoDup_map_inv, Hnd.
Qed.

(** What the marking does to the ledger of the user. *)
Lemma marking_ledger userId now pointsToUse_ table :
  NoDup (map Point.id table) ->
  0 <= pointsToUse_ ->
  let after :=
    markAll userId
      (taken (findMany (live userId now) (asc Point.createdAt) table)
             pointsToUse_) table in
  liveSum userId now after
  = liveSum userId now table - markedAmount table after
  /\ markedAmount table after <= pointsToUse_.
Proof.
  intros Hnd Hpos after. subst after.
  set (marked := taken _ pointsToUse_).
  assert (forall c, In c marked -> In c table /\ live userId now c = true)
    as Hmarked.
  { intros c Hc. apply taken_incl in Hc. now apply userPoints_live in Hc. }
  assert (NoDup marked) as Hndm
    by now apply taken_NoDup, userPoints_NoDup.
  assert (forall q, In q table -> idIn marked q = true ->
                    live userId now q = true) as Hlive.
  { intros q Hq Hsel.
    apply (idIn_In marked table q Hnd) in Hsel; auto.
    - now apply Hmarked.
    - intros c Hc. now apply Hmarked. }
  rewrite markAll_map, liveSum_marked, markedAmount_marked.
  assert (filter (fun q => live userId now q && idIn marked q) table
          = filter (idIn marked) table) as E1.
  { apply filter_ext_in. intros q Hq.
    destruct (idIn marked q) eqn:Hsel; [| apply andb_false_r].
    now rewrite (Hlive q Hq Hsel). }
  assert (filter (fun q => negb (Point.isUsed q) && idIn marked q) table
          = filter (idIn marked) table) as E2.
  { apply filter_ext_in. intros q Hq.
    destruct (idIn marked q) eqn:Hsel; [| apply andb_false_r].
    specialize (Hlive q Hq Hsel). unfold live in Hlive.
    apply andb_prop in Hlive as [Hlive _].
    apply andb_prop in Hlive as [_ Hunused].
    now rewrite Hunused. }
  rewrite E1, E2. split; [reflexivity |].
  rewrite (sumZ_perm Point.amount _ marked).
  - now apply taken_sum_le.
  - apply marked_rows_are_taken; auto.
    intros c Hc. now apply Hmarked.
Qed.

(** ** Capacity *)

(** What the first loop has established when it returns. *)
Lemma validateItems_checked eventTickets items_ totalAmount ticketUpdates st r st' :
  validateItems eventTickets items_ totalAmount ticketUpdates st
  = Returned r st' ->
  List.length (snd r) = (List.length ticketUpdates + List.length items_)%nat
  /\ Forall (fun item =>
       exists ticket,
         find (fun t => String.eqb (Ticket.id t) (Item.ticketId item))
              eventTickets = Some ticket
         /\ Ticket.sold ticket + Item.quantity item <= Ticket.quantity ticket)
       items_.
Proof.
  revert totalAmount ticketUpdates.
  induction items_ as [| item rest IH]; intros totalAmount ticketUpdates; simpl.
  - unfold ret. intros H. injection H as <- _. simpl. split; [lia | constructor].
  - destruct (find _ eventTickets) as [ticket |] eqn:Hfind; [| discriminate].
    destruct (_ >? _) eqn:Hcap; [discriminate |].
    intros H. apply IH in H as [Hlen Hall].
    rewrite length_app in Hlen. simpl in Hlen.
    split; [lia |].
    constructor; [| exact Hall].
    exists ticket. split; [exact Hfind | now apply gtb_false].
Qed.

Lemma map_fst_combine_same_length {A B} (l1 : list A) (l2 : list B) :
  List.length l2 = List.length l1 -> map fst (combine l1 l2) = l1.
Proof.
  revert l2. induction l1 as [| a rest IH]; intros [| b l2]; simpl;
    try discriminate; [reflexivity |].
  intros H. f_equal. apply IH. lia.
Qed.

Lemma itemsWritten_tickets transactionId lines s :
  tickets (itemsWritten transactionId lines s)
  = fold_left (fun tbl item =>
      update Ticket.id (Item.ticketId item)
        (Ticket.incrementSold (Item.quantity item)) tbl)
      (map fst lines) (tickets s).
Proof.
  unfold itemsWritten. revert s.
  induction lines as [| [item ticketUpdate] rest IH]; intros s; simpl;
    [reflexivity |].
  now rewrite IH.
Qed.

Lemma incrementSold_0 tk : Ticket.incrementSold 0 tk = tk.
Proof. destruct tk. unfold Ticket.incrementSold. simpl. f_equal. lia. Qed.

Lemma incrementSold_twice a b tk :
  Ticket.incrementSold b (Ticket.incrementSold a tk)
  = Ticket.incrementSold (a + b) tk.
Proof. unfold Ticket.incrementSold. simpl. f_equal. lia. Qed.

(** The number of tickets the lines of a request take of one ticket. *)
Lemma sold_after_lines items_ table :
  fold_left (fun tbl item =>
      update Ticket.id (Item.ticketId item)
        (Ticket.incrementSold (Item.quantity item)) tbl) items_ table
  = map (fun tk =>
      Ticket.incrementSold
        (sumZ Item.quantity
           (filter (fun item => String.eqb (Ticket.id tk) (Item.ticketId item))
                   items_)) tk) table.
Proof.
  revert table.
  induction items_ as [| item rest IH]; intros table; simpl.
  - rewrite <- (map_id table) at 1. apply map_ext. intros tk.
    now rewrite incrementSold_0.
  - rewrite IH. unfold update. rewrite map_map. apply map_ext. intros tk.
    destruct (String.eqb (Ticket.id tk) (Item.ticketId item)) eqn:E; simpl.
    + now rewrite incrementSold_twice.
    + reflexivity.
Qed.

Lemma at_most_one_line items_ ticketId :
  NoDup (map Item.ticketId items_) ->
  filter (fun item => String.eqb ticketId (Item.ticketId item)) items_ = []
  \/ exists item,
       In item items_
       /\ Item.ticketId item = ticketId
       /\ filter (fun item => String.eqb ticketId (Item.ticketId item)) items_
          = [item].
Proof.
  induction items_ as [| item rest IH]; simpl; intros Hnd; [now left |].
  inversion Hnd as [| ? ? Hnotin Hnd']; subst.
  destruct (String.eqb ticketId (Item.ticketId item)) eqn:E.
  - apply String.eqb_eq in E. right. exists item.
    split; [now left |]. split; [now symmetry |].
    f_equal.
    destruct (IH Hnd') as [Hnil | (other & Hin & Hid & _)]; [exact Hnil |].
    exfalso. apply Hnotin. rewrite <- E, <- Hid. now apply in_map.
  - destruct (IH Hnd') as [Hnil | (other & Hin & Hid & Hone)]; [now left |].
    right. exists other. split; [now right | now split].
Qed.

Lemma settled_tickets_events env userId d event user totalAmount ticketUpdates
  discountAmount usedCoupons s :
  let s' := inTx (settled env userId d event user totalAmount ticketUpdates
                          discountAmount usedCoupons (begin s)) in
  tickets s'
  = fold_left (fun tbl item =>
      update Ticket.id (Item.ticketId item)
        (Ticket.incrementSold (Item.quantity item)) tbl)
      (map fst (combine (items d) ticketUpdates)) (tickets s)
  /\ events s'
     = update Event.id (eventId d)
         (Event.incrementBookedSeats (totalTickets d)) (events s).
Proof.
  intros s'. subst s'. unfold settled. cbn [inTx].
  match goal with |- tickets (credited ?e ?u ?n ?ds ?x) = _ /\ _ =>
    destruct (credited_frame e u n ds x) as (-> & -> & _) end.
  match goal with |- tickets (debited ?e ?u ?p ?x) = _ /\ _ =>
    destruct (debited_frame e u p x) as (-> & -> & _) end.
  match goal with |- tickets (couponsWritten ?i ?l ?x) = _ /\ _ =>
    destruct (couponsWritten_frame i l x) as (_ & -> & -> & _) end.
  cbn [with_events tickets events].
  rewrite itemsWritten_tickets.
  match goal with |- context [events (itemsWritten ?i ?l ?x)] =>
    destruct (itemsWritten_frame i l x) as (_ & -> & _) end.
  split; reflexivity.
Qed.

(** Where the capacity checks do hold the line: a request whose line
    items name different tickets leaves no ticket oversold. *)
Lemma distinct_tickets_not_oversold env userId d s t s' :
  NoDup (map Ticket.id (tickets s)) ->
  NoDup (map Item.ticketId (items d)) ->
  (forall tk, In tk (tickets s) -> Ticket.sold tk <= Ticket.quantity tk) ->
  bookTickets env userId d s = (Ok t, s') ->
  forall tk, In tk (tickets s') -> Ticket.sold tk <= Ticket.quantity tk.
Proof.
  intros Hkey Hdistinct Hinv H.
  apply bookTickets_Ok in H
    as (event & user & totalAmount & ticketUpdates & discountAmount
        & usedCoupons & Hp & -> & -> & _).
  destruct Hp as (_ & _ & Hval & _).
  cbn [inTx] in Hval.
  apply validateItems_checked in Hval as [Hlen Hall]. simpl in Hlen.
  destruct (settled_tickets_events env userId d event user totalAmount
              ticketUpdates discountAmount usedCoupons s) as [-> _].
  rewrite map_fst_combine_same_length by exact Hlen.
  rewrite sold_after_lines.
  intros tk' Hin. apply in_map_iff in Hin as (tk & <- & Hin).
  destruct (at_most_one_line (items d) (Ticket.id tk) Hdistinct)
    as [-> | (item & Hitem & Hid & ->)].
  - rewrite incrementSold_0. now apply Hinv.
  - rewrite Forall_forall in Hall.
    destruct (Hall item Hitem) as (ticket & Hfind & Hcap).
    apply find_some in Hfind as [Hticket E].
    apply filter_In in Hticket as [Hticket _].
    apply String.eqb_eq in E.
    assert (ticket = tk) as ->
      by (apply (key_injective Ticket.id (tickets s)); congruence).
    unfold Ticket.incrementSold. simpl. lia.
Qed.

(** The aggregate check on the seats of the event holds for every
    request. *)
Lemma seats_not_overbooked env userId d s t s' :
  NoDup (map Event.id (events s)) ->
  (forall e, In e (events s) -> Event.bookedSeats e <= Event.availableSeats e) ->
  bookTickets env userId d s = (Ok t, s') ->
  forall e, In e (events s') -> Event.bookedSeats e <= Event.availableSeats e.
Proof.
  intros Hkey Hinv H.
  apply bookTickets_Ok in H
    as (event & user & totalAmount & ticketUpdates & discountAmount
        & usedCoupons & Hp & -> & -> & _).
  destruct Hp as (Hev & _ & _ & Hseats & _).
  cbn [inTx] in Hev.
  destruct (settled_tickets_events env userId d event user totalAmount
              ticketUpdates discountAmount usedCoupons s) as [_ ->].
  intros e' Hin. unfold update in Hin.
  apply in_map_iff in Hin as (e & <- & Hin).
  destruct (String.eqb (Event.id e) (eventId d)) eqn:E; [| now apply Hinv].
  apply String.eqb_eq in E.
  apply find_some in Hev as [Hevent E'].
  apply String.eqb_eq in E'.
  assert (event = e) as ->
    by (apply (key_injective Event.id (events s)); congruence).
  unfold Event.incrementBookedSeats. simpl. exact Hseats.
Qed.

(** ** The calendar *)

(** The civil date computed for a day is a date of the calendar, and it
    is the date of that day. *)
Lemma civil_from_days_inverse z :
  let '(y, m, d) := JSDate.civil_from_days z in
  JSDate.days_from_civil y m d = z /\ 1 <= m <= 12 /\ 1 <= d <= 31.
Proof.
  unfold JSDate.civil_from_days, JSDate.days_from_civil.
  set (z' := z + 719468).
  set (era := z' / 146097).
  set (doe := z' - era * 146097).
  assert (0 <= doe < 146097) as Hdoe.
  { subst doe era. pose proof (Z.mod_pos_bound z' 146097 eq_refl).
    rewrite Z.mod_eq in H by lia. lia. }
  set (yoe := (doe - doe / 1460 + doe / 36524 - doe / 146096) / 365).
  set (doy := doe - (365 * yoe + yoe / 4 - yoe / 100)).
  assert (0 <= yoe <= 399 /\ 0 <= doy <= 365) as [Hyoe Hdoy].
  { subst doy yoe. Z.div_mod_to_equations. lia. }
  set (mp := (5 * doy + 2) / 153).
  assert (0 <= mp <= 11) as Hmp.
  { subst mp. Z.div_mod_to_equations. lia. }
  set (d := doy - (153 * mp + 2) / 5 + 1).
  assert (1 <= d <= 31) as Hd.
  { subst d mp. Z.div_mod_to_equations. lia. }
  destruct (mp <? 10) eqn:Hlt.
  - apply Z.ltb_lt in Hlt.
    replace (mp + 3 <=? 2) with false by (symmetry; apply Z.leb_gt; lia).
    replace (2 <? mp + 3) with true by (symmetry; apply Z.ltb_lt; lia).
    replace (mp + 3 - 3) with mp by lia.
    replace ((yoe + era * 400) / 400) with era
      by (Z.div_mod_to_equations; lia).
    replace (yoe + era * 400 - era * 400) with yoe by lia.
    subst d doy z'. split; [| lia]. lia.
  - apply Z.ltb_ge in Hlt.
    replace (mp - 9 <=? 2) with true by (symmetry; apply Z.leb_le; lia).
    replace (2 <? mp - 9) with false by (symmetry; apply Z.ltb_ge; lia).
    replace (mp - 9 + 9) with mp by lia.
    replace (yoe + era * 400 + 1 - 1) with (yoe + era * 400) by lia.
    replace ((yoe + era * 400) / 400) with era
      by (Z.div_mod_to_equations; lia).
    replace (yoe + era * 400 - era * 400) with yoe by lia.
    subst d doy z'. split; [| lia]. lia.
Qed.

(** From the first of a month to the first of the third month after it
    there are 89 to 92 days. *)
Lemma three_months_in_days y m :
  1 <= m <= 12 ->
  89 <= JSDate.MakeDay y (m - 1 + 3) 1 - JSDate.days_from_civil y m 1 <= 92.
Proof.
  intros Hm. unfold JSDate.MakeDay, JSDate.days_from_civil.
  assert (m = 1 \/ m = 2 \/ m = 3 \/ m = 4 \/ m = 5 \/ m = 6 \/ m = 7
          \/ m = 8 \/ m = 9 \/ m = 10 \/ m = 11 \/ m = 12) as Hcases by lia.
  repeat destruct Hcases as [-> | Hcases]; try subst m; cbn;
    Z.div_mod_to_equations; lia.
Qed.

(** On the clock of the host, three months on is 89 to 92 days later,
    at the same time of day. *)
Lemma local_three_months t :
  89 * JSDate.msPerDay
  <= JSDate.MakeDate
       (JSDate.MakeDay (JSDate.YearFromTime t) (JSDate.MonthFromTime t + 3)
          (JSDate.DateFromTime t))
       (JSDate.TimeWithinDay t) - t
  <= 92 * JSDate.msPerDay.
Proof.
  unfold JSDate.MakeDate, JSDate.MonthFromTime, JSDate.YearFromTime,
    JSDate.DateFromTime, JSDate.TimeWithinDay.
  pose proof (civil_from_days_inverse (JSDate.Day t)) as Hinv.
  destruct (JSDate.civil_from_days (JSDate.Day t)) as [[y m] d].
  destruct Hinv as (Hday & Hm & Hd).
  pose proof (three_months_in_days y m Hm) as Hthree.
  assert (JSDate.days_from_civil y m d = JSDate.days_from_civil y m 1 + d - 1)
    as Hlin by (unfold JSDate.days_from_civil; lia).
  assert (JSDate.MakeDay y (m - 1 + 3) d = JSDate.MakeDay y (m - 1 + 3) 1 + d - 1)
    as Hlin' by (unfold JSDate.MakeDay; lia).
  rewrite Hlin'. rewrite Hlin in Hday.
  rewrite Z.mod_eq by (unfold JSDate.msPerDay; lia).
  fold (JSDate.Day t). unfold JSDate.msPerDay in *. lia.
Qed.

(** The instant [setMonth(getMonth() + 3)] gives: 89 to 92 days after
    the instant it starts from, give or take what the offset of the
    zone has moved by in between. *)
Lemma setMonth_three_months LocalTZA t :
  let expiresAt :=
    JSDate.setMonth LocalTZA t (JSDate.getMonth LocalTZA t + 3) in
  exists local,
    expiresAt = JSDate.UTC LocalTZA local
    /\ 89 * JSDate.msPerDay
       <= local - JSDate.LocalTime LocalTZA t
       <= 92 * JSDate.msPerDay
    /\ 89 * JSDate.msPerDay + (LocalTZA t true - LocalTZA local false)
       <= expiresAt - t
       <= 92 * JSDate.msPerDay + (LocalTZA t true - LocalTZA local false).
Proof.
  cbv zeta. unfold JSDate.setMonth, JSDate.getMonth.
  pose proof (local_three_months (JSDate.LocalTime LocalTZA t)) as H.
  set (local := JSDate.MakeDate _ _) in *.
  exists local. split; [reflexivity |].
  split; [exact H |].
  assert (JSDate.LocalTime LocalTZA t = t + LocalTZA t true) as E
    by reflexivity.
  rewrite E in H. unfold JSDate.UTC. lia.
Qed.

(** The same, for a zone whose offset never moves by more than
    [shift]. *)
Lemma setMonth_three_months_shift LocalTZA shift t :
  (forall a b, Z.abs (LocalTZA a true - LocalTZA b false) <= shift) ->
  89 * JSDate.msPerDay - shift
  <= JSDate.setMonth LocalTZA t (JSDate.getMonth LocalTZA t + 3) - t
  <= 92 * JSDate.msPerDay + shift.
Proof.
  intros Hshift.
  destruct (setMonth_three_months LocalTZA t) as (local & _ & _ & H).
  specialize (Hshift t local). lia.
Qed.

(** * The claims *)

Lemma applyCoupon_explicit env userId code c totalAmount st :
  truthy code = Some c ->
  applyCoupon env userId code totalAmount st
  = Returned
      match find (fun k => String.eqb (DiscountCoupon.code k) c
                           && negb (DiscountCoupon.isUsed k)
                           && (couponClock env <=? DiscountCoupon.expiresAt k))
                 (discountCoupons (inTx st)) with
      | Some k => (totalAmount * DiscountCoupon.discountPercent k / 100,
                   [DiscountCoupon.id k])
      | None => (0, [])
      end st.
Proof.
  intros Hc. unfold applyCoupon, bind. rewrite Hc.
  unfold txRead, findFirst. now destruct (find _ _).
Qed.

Lemma applyCoupon_auto env userId code totalAmount st :
  truthy code = None ->
  applyCoupon env userId code totalAmount st
  = Returned
      match hd_error (sortBy (desc DiscountCoupon.discountPercent)
                        (candidates env userId (discountCoupons (inTx st)))) with
      | Some k => (totalAmount * DiscountCoupon.discountPercent k / 100,
                   [DiscountCoupon.id k])
      | None => (0, [])
      end st.
Proof.
  intros Hc. unfold applyCoupon, bind. rewrite Hc.
  unfold txRead, findFirst, candidates. now destruct (hd_error _).
Qed.

Lemma kind_never_InvalidCoupon e : kind e <> Some InvalidCoupon.
Proof. destruct e; discriminate. Qed.

(** C1, as amended.  When the request carries a coupon code and no
    unused, unexpired coupon has that code, the booking is not refused
    for it: no failure it can end in is of kind InvalidCoupon, and when
    it succeeds the discount is zero, no coupon is changed and no coupon
    is linked to the transaction. *)
Theorem C1_unusable_code_goes_on env userId d s code :
  truthy (couponCode d) = Some code ->
  (forall k, In k (discountCoupons s) ->
             DiscountCoupon.code k = code ->
             usable (couponClock env) k = false) ->
  (forall e s', bookTickets env userId d s = (Err e, s') ->
                kind e <> Some InvalidCoupon)
  /\ (forall t s', bookTickets env userId d s = (Ok t, s') ->
                   Transaction.discountAmount t = 0
                   /\ discountCoupons s' = discountCoupons s
                   /\ transactionCoupons s' = transactionCoupons s).
Proof.
  intros Hcode Hnone.
  split; [intros e s' _; apply kind_never_InvalidCoupon |].
  intros t s' H.
  apply bookTickets_Ok in H
    as (event & user & totalAmount & ticketUpdates & discountAmount
        & usedCoupons & Hp & -> & -> & _).
  destruct Hp as (_ & _ & _ & _ & Hcoupon & _).
  rewrite (applyCoupon_explicit _ _ _ _ _ _ Hcode) in Hcoupon.
  cbn [inTx] in Hcoupon.
  assert (find (fun k => String.eqb (DiscountCoupon.code k) code
                         && negb (DiscountCoupon.isUsed k)
                         && (couponClock env <=? DiscountCoupon.expiresAt k))
               (discountCoupons s) = None) as Hfind.
  { apply find_none_iff. intros k Hin.
    destruct (String.eqb (DiscountCoupon.code k) code) eqn:E;
      [| reflexivity].
    apply String.eqb_eq in E. specialize (Hnone k Hin E).
    unfold usable in Hnone. cbn [andb]. exact Hnone. }
  rewrite Hfind in Hcoupon. injection Hcoupon as <- <-.
  split; [reflexivity |].
  destruct (settled_coupons env userId d event user totalAmount ticketUpdates
              0 [] s) as [-> ->].
  cbn [fold_left map]. now rewrite app_nil_r.
Qed.

Lemma C1_unusable_code_goes_on_witness :
  exists t s',
    bookTickets Sample.env Sample.alice Sample.unknownCode Sample.store
    = (Ok t, s')
    /\ Transaction.discountAmount t = 0
    /\ discountCoupons s' = discountCoupons Sample.store
    /\ transactionCoupons s' = transactionCoupons Sample.store.
Proof.
  eexists. eexists. split; [vm_compute; reflexivity |].
  eapply (C1_unusable_code_goes_on Sample.env Sample.alice Sample.unknownCode
            Sample.store).
  - reflexivity.
  - intros k Hin. destruct Hin.
  - vm_compute. reflexivity.
Defined.

(** C1 as stated fails: the code REFNOPE1 belongs to no coupon at all,
    and the booking is not refused; it goes through without a
    discount. *)
Lemma C1_unknown_code_not_rejected :
  couponCode Sample.unknownCode = Some "REFNOPE1"%string
  /\ (forall k, In k (discountCoupons Sample.store) ->
                DiscountCoupon.code k <> "REFNOPE1"%string)
  /\ (exists t s',
        bookTickets Sample.env Sample.alice Sample.unknownCode Sample.store
        = (Ok t, s')
        /\ Transaction.discountAmount t = 0
        /\ Transaction.finalAmount t = 6000)
  /\ ~ (exists e s',
          bookTickets Sample.env Sample.alice Sample.unknownCode Sample.store
          = (Err e, s')
          /\ kind e = Some InvalidCoupon).
Proof.
  split; [reflexivity |].
  split; [intros k [] |].
  split.
  - eexists. eexists. split; [vm_compute; reflexivity |]. split; reflexivity.
  - intros (e & s' & H & _). vm_compute in H. discriminate H.
Qed.

(** Scenario 3, as the route runs it: the coupon of 20 percent takes 2000
    off 10000 and is marked used; a second booking with the same code is
    not refused, it goes through at the full price. *)
Example scenario_3 :
  exists t1 s1 t2 s2,
    bookTickets Sample.env Sample.alice Sample.withCode Sample.storeTwenty
    = (Ok t1, s1)
    /\ Transaction.totalAmount t1 = 10000
    /\ Transaction.discountAmount t1 = 2000
    /\ discountCoupons s1 = [DiscountCoupon.setUsed Sample.twenty]
    /\ bookTickets Sample.envAgain Sample.alice Sample.withCode s1 = (Ok t2, s2)
    /\ Transaction.discountAmount t2 = 0
    /\ Transaction.finalAmount t2 = 10000.
Proof.
  do 4 eexists.
  split; [vm_compute; reflexivity |].
  do 3 (split; [reflexivity |]).
  split; [vm_compute; reflexivity |].
  split; reflexivity.
Qed.

(** The explicit branch does not look at the owner of the coupon: Bob
    books with Alice's code, gets her discount, and her coupon is
    spent. *)
Example code_of_another_user :
  DiscountCoupon.userId Sample.twenty = Sample.alice
  /\ exists t s',
       bookTickets Sample.env Sample.bob Sample.withCode Sample.storeTwenty
       = (Ok t, s')
       /\ Transaction.userId t = Sample.bob
       /\ Transaction.discountAmount t = 2000
       /\ discountCoupons s' = [DiscountCoupon.setUsed Sample.twenty].
Proof.
  split; [reflexivity |].
  do 2 eexists. split; [vm_compute; reflexivity |].
  repeat split.
Qed.

(** What a successful booking stores satisfies the price identity,
    whatever the rows hold. *)
Lemma price_identity env userId d s t s' :
  bookTickets env userId d s = (Ok t, s') ->
  transactions s' = transactions s ++ [t]
  /\ Transaction.finalAmount t
     = Transaction.totalAmount t - Transaction.discountAmount t
       - Transaction.pointsUsed t
  /\ 0 <= Transaction.finalAmount t.
Proof.
  intros H.
  apply bookTickets_Ok in H
    as (event & user & totalAmount & ticketUpdates & discountAmount
        & usedCoupons & _ & -> & -> & _).
  split; [apply settled_transactions |].
  unfold transactionOf. cbn.
  pose proof (Math_min_le_cap (pointsToUse d) (User.pointsBalance user)
                (totalAmount - discountAmount)).
  split; [reflexivity | lia].
Qed.



(** The points a successful booking debits are the least of the points
    requested, the balance and what remains to pay after the discount. *)
Lemma points_capped env userId d s t s' :
  bookTickets env userId d s = (Ok t, s') ->
  exists balance,
    balanceOf userId s = Some balance
    /\ Transaction.pointsUsed t
       = Z.min (pointsToUse d)
           (Z.min balance
              (Transaction.totalAmount t - Transaction.discountAmount t)).
Proof.
  intros H.
  apply bookTickets_Ok in H
    as (event & user & totalAmount & ticketUpdates & discountAmount
        & usedCoupons & Hp & -> & -> & _).
  exists (User.pointsBalance user).
  split; [| reflexivity].
  destruct Hp as (_ & _ & _ & _ & _ & Huser). cbn [inTx] in Huser.
  unfold balanceOf. now rewrite Huser.
Qed.

(** A run that passes every check and whose numbers fit is not booked
    when it both spends and earns points, whatever the store would
    commit: the debit has locked the row of the user, the credit goes
    through the global client and waits for that row, and the
    transaction expires.  The debit is rolled back with the rest; the
    credit stays. *)
Lemma spend_and_earn_not_booked env userId d s event user totalAmount
  ticketUpdates discountAmount usedCoupons :
  passes env userId d (begin s) event user totalAmount ticketUpdates
         discountAmount usedCoupons ->
  writesFit env userId d user totalAmount ticketUpdates discountAmount
    (begin s) = true ->
  let t := transactionOf env userId d user totalAmount discountAmount in
  0 < Transaction.pointsUsed t ->
  1000 <= Transaction.finalAmount t ->
  bookTickets env userId d s
  = (Err Transaction_not_committed,
     credited env userId (calculatePoints (Transaction.finalAmount t))
       ("Purchase points for " ++ Event.name event)%string s).
Proof.
  intros Hp Hfit t Hused Hfinal.
  apply (passes_not_committed _ _ _ _ _ _ _ _ _ _ Hp Hfit).
  right. fold t.
  destruct (spendsAndEarns t) eqn:E; [reflexivity |].
  apply spendsAndEarns_false in E. lia.
Qed.

(** C3, at a failing input: Scenario 2 of the specification.  Alice has
    5000 points and asks for 8000 towards two tickets of 3000.  The cap
    is applied (5000 points, 1000 left to pay, 1 point earned), and the
    booking is an error all the same: the credit of the point earned
    waits for the row the debit has locked, the transaction expires and
    is not committed.  No transaction is stored and no ticket sold; the
    point earned has been credited.  The same request without points is
    booked. *)
Theorem C3_capped_request_not_booked :
  let before := Sample.store in
  let outcome :=
    bookTickets Sample.env Sample.alice Sample.twoTickets before in
  let after := snd outcome in
  transactionSchema Sample.twoTickets = true
  /\ pointsToUse Sample.twoTickets = 8000
  /\ balanceOf Sample.alice before = Some 5000
  /\ commits Sample.env = true
  /\ fst outcome = Err Transaction_not_committed
  /\ transactions after = transactions before
  /\ tickets after = tickets before
  /\ balanceOf Sample.alice after = Some 5001
  /\ points after
     = points before
       ++ [grant Sample.env Sample.alice 1 "Purchase points for Concert"]
  /\ exists t s',
       bookTickets Sample.env Sample.alice Sample.paidInFull before
       = (Ok t, s')
       /\ Transaction.totalAmount t = 6000
       /\ Transaction.pointsUsed t = 0.
Proof.
  cbv zeta. do 9 (split; [vm_compute; reflexivity |]).
  do 2 eexists. split; [vm_compute; reflexivity |]. split; reflexivity.
Qed.

(** Scenario 2 with the points that leave nothing to earn on: 2500 of
    the 5000 points towards one ticket of 3000 are taken as asked. *)
Example points_taken_as_asked :
  exists s',
    bookTickets Sample.env Sample.alice Sample.halfInPoints Sample.store
    = (Ok (Transaction.mk (transactionUuid Sample.env) Sample.alice
             Sample.concert 3000 0 500 TransactionStatus.COMPLETED 2500), s').
Proof. eexists. vm_compute. reflexivity. Qed.

(** C4, at a failing input.  The store satisfies both capacity
    invariants; the request names the regular ticket (10 in all, 8 sold)
    in two line items of 2.  Each line passes the check against the 8
    read with the event, the booking succeeds, and the ticket ends with
    12 sold. *)
Theorem C4_same_ticket_twice_oversells :
  let before := Sample.store in
  (forall tk, In tk (tickets before) ->
              0 <= Ticket.sold tk <= Ticket.quantity tk)
  /\ (forall e, In e (events before) ->
                0 <= Event.bookedSeats e <= Event.availableSeats e)
  /\ transactionSchema Sample.twiceTheSameTicket = true
  /\ exists t after,
       bookTickets Sample.env Sample.alice Sample.twiceTheSameTicket before
       = (Ok t, after)
       /\ exists tk,
            In tk (tickets after)
            /\ Ticket.id tk = Sample.regular
            /\ Ticket.quantity tk = 10
            /\ Ticket.sold tk = 12.
Proof.
  cbv zeta. split; [| split; [| split]].
  - intros tk [<- | []]. vm_compute. split; discriminate.
  - intros e [<- | [<- | []]]; vm_compute; split; discriminate.
  - reflexivity.
  - eexists. eexists. split; [vm_compute; reflexivity |].
    eexists. split; [left; reflexivity |]. repeat split.
Qed.

(** Scenario 1, one request after the other: with 8 of 10 sold, a first
    booking of 2 succeeds and a second one is refused for capacity. *)
Example scenario_1_in_sequence :
  exists t1 s1 e,
    bookTickets Sample.env Sample.alice Sample.paidInFull Sample.store
    = (Ok t1, s1)
    /\ bookTickets Sample.envAgain Sample.bob Sample.paidInFull s1 = (Err e, s1)
    /\ kind e = Some CapacityExceeded
    /\ map Ticket.sold (tickets s1) = [10].
Proof.
  do 3 eexists.
  split; [vm_compute; reflexivity |].
  split; [vm_compute; reflexivity |].
  split; reflexivity.
Qed.

(** Whenever the store does not commit a run that earned points, the
    booking fails and the store holds the credit all the same: the grant
    and the increment went through the global client. *)
Lemma credit_outside_transaction env userId d s event user totalAmount
  ticketUpdates discountAmount usedCoupons :
  passes env userId d (begin s) event user totalAmount ticketUpdates
         discountAmount usedCoupons ->
  writesFit env userId d user totalAmount ticketUpdates discountAmount
    (begin s) = true ->
  commits env = false ->
  bookTickets env userId d s
  = (Err Transaction_not_committed,
     credited env userId
       (calculatePoints
          (Transaction.finalAmount
             (transactionOf env userId d user totalAmount discountAmount)))
       ("Purchase points for " ++ Event.name event)%string s).
Proof.
  intros Hp Hfit Hcommit.
  apply (passes_not_committed _ _ _ _ _ _ _ _ _ _ Hp Hfit). now left.
Qed.

(** C5, at a failing input.  Alice books two tickets for 6000 and the
    store does not commit the transaction.  The booking fails, no
    transaction is stored and no ticket is sold, yet her balance has gone
    from 5000 to 5006 and a grant of 6 points has been added. *)
Theorem C5_credit_survives_failed_booking :
  let before := Sample.store in
  let after :=
    snd (bookTickets Sample.envNoCommit Sample.alice Sample.paidInFull before) in
  fst (bookTickets Sample.envNoCommit Sample.alice Sample.paidInFull before)
  = Err Transaction_not_committed
  /\ transactions after = transactions before
  /\ tickets after = tickets before
  /\ events after = events before
  /\ balanceOf Sample.alice before = Some 5000
  /\ balanceOf Sample.alice after = Some 5006
  /\ points after
     = points before
       ++ [grant Sample.envNoCommit Sample.alice 6 "Purchase points for Concert"].
Proof. vm_compute. repeat split. Qed.

(** C6, as amended.  The debit step always returns.  It lowers the
    balance by exactly the points used, and marks whole grants only:
    the live sum of the ledger goes down by the total of the grants it
    marks, and that total is at most the points used (a grant larger
    than what remains to be covered is passed over).  So from a ledger
    that agrees with the balance, the balance ends at the live sum minus
    the part of the points used that no grant covered: never above the
    live sum, and equal to it exactly when the marked grants add up to
    the points used. *)
Theorem C6_debit_and_ledger env userId pointsToUse_ st :
  NoDup (map Point.id (points (inTx st))) ->
  exists st',
    deductPoints env userId pointsToUse_ st = Returned tt st'
    /\ let now := pointsClock env in
       let used := Z.max 0 pointsToUse_ in
       let marked := markedAmount (points (inTx st)) (points (inTx st')) in
       (forall balance,
          balanceOf userId (inTx st) = Some balance ->
          balanceOf userId (inTx st') = Some (balance - used))
       /\ liveSum userId now (points (inTx st'))
          = liveSum userId now (points (inTx st)) - marked
       /\ marked <= used
       /\ (ledgerAgrees userId now (inTx st) ->
           balanceOf userId (inTx st')
           = Some (liveSum userId now (points (inTx st')) - (used - marked))
           /\ (ledgerAgrees userId now (inTx st') <-> marked = used)).
Proof.
  intros Hnd.
  eexists. split; [apply deductPoints_run |].
  cbn [inTx]. cbv zeta.
  set (s := inTx st) in *.
  set (now := pointsClock env).
  assert (forall balance,
            balanceOf userId s = Some balance ->
            balanceOf userId (debited env userId pointsToUse_ s)
            = Some (balance - Z.max 0 pointsToUse_)) as Hbalance.
  { intros balance Hb. now rewrite balanceOf_debited, Hb. }
  assert (liveSum userId now (points (debited env userId pointsToUse_ s))
          = liveSum userId now (points s)
            - markedAmount (points s)
                (points (debited env userId pointsToUse_ s))
          /\ markedAmount (points s) (points (debited env userId pointsToUse_ s))
             <= Z.max 0 pointsToUse_) as [Hlive Hmarked].
  { unfold debited. destruct (0 <? pointsToUse_) eqn:Hp.
    - apply Z.ltb_lt in Hp. cbn [points with_points with_users].
      destruct (marking_ledger userId now pointsToUse_ (points s) Hnd)
        as [H1 H2]; [lia |].
      split; [exact H1 |].
      apply Z.le_trans with pointsToUse_; [exact H2 | lia].
    - rewrite markedAmount_same. split; lia. }
  split; [exact Hbalance |].
  split; [exact Hlive |].
  split; [exact Hmarked |].
  intros Hagrees. unfold ledgerAgrees in *.
  rewrite (Hbalance _ Hagrees).
  split.
  - f_equal. lia.
  - split.
    + intros E. injection E as E. lia.
    + intros E. f_equal. lia.
Qed.

Lemma C6_debit_and_ledger_witness :
  exists st',
    deductPoints Sample.env Sample.alice 5000 (begin Sample.store)
    = Returned tt st'
    /\ balanceOf Sample.alice (inTx st') = Some (5000 - Z.max 0 5000)
    /\ markedAmount (points Sample.store) (points (inTx st')) <= Z.max 0 5000.
Proof.
  destruct (C6_debit_and_ledger Sample.env Sample.alice 5000
              (begin Sample.store))
    as (st' & Hrun & Hbalance & _ & Hmarked & _).
  - vm_compute. repeat constructor; simpl; intuition discriminate.
  - exists st'. split; [exact Hrun |].
    split; [apply Hbalance; reflexivity | exact Hmarked].
Defined.

(** C6 as stated fails.  Alice's balance of 5000 agrees with her
    ledger, one live grant of 5000.  A debit of 2500 lowers the balance
    to 2500 and marks nothing, the grant being larger than 2500: the
    balance went down by 2500, the grants marked total 0, and the
    balance no longer equals the live sum.  The booking that puts 2500
    points towards one ticket of 3000 succeeds and ends the same way. *)
Lemma C6_skipped_grant_breaks_invariant :
  let before := Sample.store in
  let now := pointsClock Sample.env in
  ledgerAgrees Sample.alice now before
  /\ NoDup (map Point.id (points before))
  /\ (exists st',
        deductPoints Sample.env Sample.alice 2500 (begin before)
        = Returned tt st'
        /\ balanceOf Sample.alice (inTx st') = Some 2500
        /\ liveSum Sample.alice now (points (inTx st')) = 5000
        /\ markedAmount (points before) (points (inTx st')) = 0
        /\ ~ ledgerAgrees Sample.alice now (inTx st'))
  /\ (exists t after,
        bookTickets Sample.env Sample.alice Sample.halfInPoints before
        = (Ok t, after)
        /\ Transaction.pointsUsed t = 2500
        /\ balanceOf Sample.alice after = Some 2500
        /\ liveSum Sample.alice now (points after) = 5000
        /\ ~ ledgerAgrees Sample.alice now after).
Proof.
  cbv zeta. split; [reflexivity |].
  split; [repeat constructor; simpl; intuition discriminate |].
  split.
  - eexists. split; [vm_compute; reflexivity |].
    repeat split. unfold ledgerAgrees. vm_compute. discriminate.
  - eexists. eexists. split; [vm_compute; reflexivity |].
    repeat split. unfold ledgerAgrees. vm_compute. discriminate.
Qed.

(** With 100 of 300 points towards two tickets, 5900 remain to pay and 5
    points are earned: the booking spends and earns, and is not
    committed.  The debit is rolled back, the credit is not. *)
Example hundred_points_not_booked :
  exists after,
    bookTickets Sample.env Sample.alice Sample.hundredPoints
      Sample.storeOneGrant
    = (Err Transaction_not_committed, after)
    /\ balanceOf Sample.alice after = Some 305
    /\ transactions after = [].
Proof. eexists. split; [vm_compute; reflexivity |]. split; reflexivity. Qed.

(** C7. A booking that settles at finalAmount earns
    floor(finalAmount / 1000) points.  When that is positive, one grant
    of that amount is added to the ledger, unused, earned by the user,
    and the balance goes up by the same amount; when it is zero, no
    grant is added.  The grant expires at the instant
    [setMonth(getMonth() + 3)] gives for the time of the credit: three
    months on by the calendar of the host, which is 89 to 92 days later
    on its clock, and as many after the credit give or take what the
    offset of its zone moves by.  The rows already in the ledger keep
    their ids and amounts.  (A booking that earns points has spent
    none.) *)
Theorem C7_points_earned env userId d s t s' :
  bookTickets env userId d s = (Ok t, s') ->
  let earned := Transaction.finalAmount t / 1000 in
  calculatePoints (Transaction.finalAmount t) = earned
  /\ 0 <= earned
  /\ (0 < earned -> Transaction.pointsUsed t <= 0)
  /\ (exists kept fresh,
        points s' = kept ++ fresh
        /\ map Point.id kept = map Point.id (points s)
        /\ map Point.amount kept = map Point.amount (points s)
        /\ (earned = 0 -> fresh = [])
        /\ (0 < earned ->
            exists g,
              fresh = [g]
              /\ Point.amount g = earned
              /\ Point.earnedById g = Some userId
              /\ Point.isUsed g = false
              /\ Point.expiresAt g
                 = JSDate.setMonth (LocalTZA env) (creditClock env)
                     (JSDate.getMonth (LocalTZA env) (creditClock env) + 3)
              /\ (exists local,
                    Point.expiresAt g = JSDate.UTC (LocalTZA env) local
                    /\ 89 * JSDate.msPerDay
                       <= local - JSDate.LocalTime (LocalTZA env)
                                    (creditClock env)
                       <= 92 * JSDate.msPerDay)
              /\ (forall shift,
                    (forall a b,
                       Z.abs (LocalTZA env a true - LocalTZA env b false)
                       <= shift) ->
                    89 * JSDate.msPerDay - shift
                    <= Point.expiresAt g - creditClock env
                    <= 92 * JSDate.msPerDay + shift)))
  /\ (forall balance,
        balanceOf userId s = Some balance ->
        balanceOf userId s'
        = Some (balance - Z.max 0 (Transaction.pointsUsed t) + earned)).
Proof.
  intros H earned.
  pose proof (price_identity _ _ _ _ _ _ H) as (_ & _ & Hfinal).
  assert (0 <= earned) as Hearned by now apply calculatePoints_nonneg.
  apply bookTickets_Ok in H
    as (event & user & totalAmount & ticketUpdates & discountAmount
        & usedCoupons & _ & -> & -> & _ & _ & Hboth).
  set (t := transactionOf env userId d user totalAmount discountAmount) in *.
  split; [reflexivity |]. split; [exact Hearned |].
  split.
  { intros Hpos. apply spendsAndEarns_false in Hboth as [Hused | Hsmall];
      [exact Hused |].
    exfalso. subst earned.
    pose proof (Z.div_lt_upper_bound (Transaction.finalAmount t) 1000 1
                  eq_refl ltac:(lia)). lia. }
  unfold settled. cbn [inTx]. fold t. fold (calculatePoints (Transaction.finalAmount t)).
  change (calculatePoints (Transaction.finalAmount t)) with earned.
  destruct (before_debit_frame env userId d user totalAmount ticketUpdates
              discountAmount usedCoupons s) as [Husers Hpoints].
  fold t in Husers, Hpoints.
  set (x := couponsWritten (Transaction.id t) usedCoupons _) in *.
  destruct (points_debited env userId (Transaction.pointsUsed t) x)
    as [Hids Hamounts].
  rewrite Hpoints in Hids, Hamounts.
  split.
  - exists (points (debited env userId (Transaction.pointsUsed t) x)).
    unfold credited.
    destruct (0 <? earned) eqn:Hpos.
    + eexists. split; [reflexivity |]. repeat split; auto.
      * apply Z.ltb_lt in Hpos. lia.
      * intros _. eexists. split; [reflexivity |].
        cbn [grant Point.amount Point.earnedById Point.isUsed Point.expiresAt].
        do 4 (split; [reflexivity |]).
        split.
        -- destruct (setMonth_three_months (LocalTZA env) (creditClock env))
             as (local & E & Hlocal & _).
           exists local. split; assumption.
        -- intros shift Hshift.
           now apply setMonth_three_months_shift.
    + exists []. cbn [points]. rewrite app_nil_r. repeat split; auto.
      apply Z.ltb_ge in Hpos. lia.
  - intros balance Hbal.
    rewrite balanceOf_credited by exact Hearned.
    rewrite balanceOf_debited.
    rewrite (balanceOf_users userId x s Husers), Hbal. reflexivity.
Qed.

Lemma C7_points_earned_witness :
  exists t s',
    bookTickets Sample.env Sample.alice Sample.paidInFull Sample.store
    = (Ok t, s')
    /\ Transaction.finalAmount t / 1000 = 6
    /\ balanceOf Sample.alice s' = Some (5000 - Z.max 0 0 + 6)
    /\ exists kept g,
         points s' = kept ++ [g]
         /\ Point.amount g = 6
         /\ 89 * JSDate.msPerDay
            <= Point.expiresAt g - creditClock Sample.env
            <= 92 * JSDate.msPerDay.
Proof.
  do 2 eexists.
  match goal with
  | |- bookTickets _ _ _ _ = (Ok ?t, ?s') /\ _ =>
      assert (bookTickets Sample.env Sample.alice Sample.paidInFull Sample.store
              = (Ok t, s')) as Hbook by (vm_compute; reflexivity)
  end.
  split; [exact Hbook |].
  destruct (C7_points_earned Sample.env Sample.alice Sample.paidInFull
              Sample.store _ _ Hbook)
    as (_ & _ & _ & (kept & fresh & Hpoints & _ & _ & _ & Hone) & Hbalance).
  split; [reflexivity |].
  split; [apply (Hbalance 5000); vm_compute; reflexivity |].
  destruct Hone as (g & -> & Hamount & _ & _ & _ & _ & Hshift);
    [vm_compute; reflexivity |].
  exists kept, g. split; [exact Hpoints |]. split; [exact Hamount |].
  assert (forall a b : Z,
            Z.abs (LocalTZA Sample.env a true - LocalTZA Sample.env b false)
            <= 0) as Hutc by (intros a b; vm_compute; discriminate).
  specialize (Hshift 0 Hutc). lia.
Defined.

(** Scenario 4: a final amount of 2500 earns two points. *)
Example scenario_4 : calculatePoints 2500 = 2.
Proof. reflexivity. Qed.

(** A grant credited on 2024-11-30 expires on 2025-03-02 on a host that
    keeps UTC: the thirtieth day of a February carries into March. *)
Example three_months_from_november_30 :
  JSDate.setMonth JSDate.utc 1732924800000
    (JSDate.getMonth JSDate.utc 1732924800000 + 3)
  = 1740873600000.
Proof. reflexivity. Qed.

(** On a host that keeps the time of New York, a grant credited on
    2025-02-01 at noon expires on 2025-05-01 at noon, and daylight
    saving has begun in between: that is an hour less than 89 days
    later. *)
Example three_months_across_daylight_saving :
  let credit := 1738429200000 in
  JSDate.setMonth Sample.newYork credit
    (JSDate.getMonth Sample.newYork credit + 3)
  = credit + 89 * JSDate.msPerDay - 3600000.
Proof. reflexivity. Qed.

(** C8. A booking for an event that does not exist, or whose status is
    not PUBLISHED, fails with an error of kind EventNotBookable, and the
    store is left exactly as it was. *)
Theorem C8_event_not_bookable env userId d s :
  (forall event,
     find (fun e => String.eqb (Event.id e) (eventId d)) (events s) = Some event ->
     Event.status event <> EventStatus.PUBLISHED) ->
  exists e,
    bookTickets env userId d s = (Err e, s)
    /\ kind e = Some EventNotBookable.
Proof.
  intros Hev. unfold bookTickets, run_transaction, callback.
  unfold bind at 1. unfold txRead at 1. cbn [inTx].
  destruct (find _ (events s)) as [event |] eqn:Hfind.
  - unfold bind at 1. unfold txRead at 1.
    destruct (EventStatus.eqb (Event.status event) EventStatus.PUBLISHED) eqn:Hst.
    + apply status_eqb_PUBLISHED in Hst. now destruct (Hev event).
    + cbn [negb]. cbv beta iota. unfold throw. cbn [outside].
      exists Event_is_not_available_for_booking. split; reflexivity.
  - unfold throw. cbn [outside].
    exists Event_not_found. split; reflexivity.
Qed.

Lemma C8_event_not_bookable_witness :
  exists e,
    bookTickets Sample.env Sample.alice Sample.draftBooking Sample.store
    = (Err e, Sample.store)
    /\ kind e = Some EventNotBookable.
Proof.
  apply (C8_event_not_bookable Sample.env Sample.alice Sample.draftBooking
           Sample.store).
  intros event H. vm_compute in H. injection H as <-. discriminate.
Defined.

(** C9, as amended.  Without a coupon code (or with an empty one), the
    booking takes, among the user's unused unexpired coupons, one with
    the highest discountPercent; of several with that percentage it
    takes the one the store returns first, whatever their createdAt.
    That coupon alone is marked used and linked.  If the user has none,
    the discount is zero and no coupon is changed. *)
Theorem C9_auto_coupon env userId d s t s' :
  truthy (couponCode d) = None ->
  bookTickets env userId d s = (Ok t, s') ->
  (candidates env userId (discountCoupons s) = [] ->
   Transaction.discountAmount t = 0
   /\ discountCoupons s' = discountCoupons s
   /\ transactionCoupons s' = transactionCoupons s)
  /\ (candidates env userId (discountCoupons s) <> [] ->
      exists before k after,
        candidates env userId (discountCoupons s) = before ++ k :: after
        /\ (forall k', In k' before ->
              DiscountCoupon.discountPercent k' < DiscountCoupon.discountPercent k)
        /\ (forall k', In k' after ->
              DiscountCoupon.discountPercent k' <= DiscountCoupon.discountPercent k)
        /\ Transaction.discountAmount t
           = Transaction.totalAmount t * DiscountCoupon.discountPercent k / 100
        /\ discountCoupons s'
           = update DiscountCoupon.id (DiscountCoupon.id k)
               DiscountCoupon.setUsed (discountCoupons s)
        /\ transactionCoupons s'
           = transactionCoupons s
             ++ [TransactionCoupon.mk (Transaction.id t) (DiscountCoupon.id k)]).
Proof.
  intros Hcode H.
  apply bookTickets_Ok in H
    as (event & user & totalAmount & ticketUpdates & discountAmount
        & usedCoupons & Hp & -> & -> & _).
  destruct Hp as (_ & _ & _ & _ & Hcoupon & _).
  rewrite (applyCoupon_auto _ _ _ _ _ Hcode) in Hcoupon.
  cbn [inTx] in Hcoupon.
  pose proof (hd_sortBy_desc DiscountCoupon.discountPercent
                (candidates env userId (discountCoupons s))) as Hhd.
  destruct (settled_coupons env userId d event user totalAmount ticketUpdates
              discountAmount usedCoupons s) as [Hc Hl].
  cbv zeta in Hc, Hl. rewrite Hc, Hl. clear Hc Hl.
  destruct (hd_error _) as [k |].
  - injection Hcoupon as <- <-.
    destruct Hhd as (before & after & Hsplit & Hbefore & Hafter).
    split.
    + intros Hnil. rewrite Hnil in Hsplit. now destruct before.
    + intros _. exists before, k, after. repeat split; auto.
  - injection Hcoupon as <- <-.
    split.
    + intros _. cbn [fold_left map]. now rewrite app_nil_r.
    + intros Hne. contradiction.
Qed.

Lemma C9_auto_coupon_witness :
  exists t s',
    bookTickets Sample.env Sample.alice Sample.paidInFull Sample.storeTwoCoupons
    = (Ok t, s')
    /\ exists before k after,
         candidates Sample.env Sample.alice
           (discountCoupons Sample.storeTwoCoupons) = before ++ k :: after
         /\ Transaction.discountAmount t
            = Transaction.totalAmount t * DiscountCoupon.discountPercent k / 100
         /\ discountCoupons s'
            = update DiscountCoupon.id (DiscountCoupon.id k)
                DiscountCoupon.setUsed (discountCoupons Sample.storeTwoCoupons).
Proof.
  eexists. eexists. split; [vm_compute; reflexivity |].
  match goal with
  | |- exists before k after,
         _ /\ Transaction.discountAmount ?t = _ /\ discountCoupons ?s' = _ =>
      assert (bookTickets Sample.env Sample.alice Sample.paidInFull
                Sample.storeTwoCoupons = (Ok t, s')) as Hbook
        by (vm_compute; reflexivity)
  end.
  destruct (C9_auto_coupon Sample.env Sample.alice Sample.paidInFull
              Sample.storeTwoCoupons _ _ eq_refl Hbook) as [_ Hsome].
  assert (candidates Sample.env Sample.alice
            (discountCoupons Sample.storeTwoCoupons) <> []) as Hne
    by (vm_compute; discriminate).
  destruct (Hsome Hne)
    as (before & k & after & Hsplit & _ & _ & Hdisc & Hcoupons & _).
  exists before, k, after. repeat split; assumption.
Defined.

(** C9 as stated fails on the tie-break.  Alice's two coupons are both
    unused, unexpired and of 10 percent; the specification's rule picks
    the one created first, the booking consumes the other, which the
    store returns first. *)
Lemma C9_tie_not_broken_by_age :
  let after :=
    snd (bookTickets Sample.env Sample.alice Sample.paidInFull
                     Sample.storeTwoCoupons) in
  candidates Sample.env Sample.alice (discountCoupons Sample.storeTwoCoupons)
  = [Sample.newer; Sample.older]
  /\ DiscountCoupon.discountPercent Sample.newer
     = DiscountCoupon.discountPercent Sample.older
  /\ DiscountCoupon.createdAt Sample.older
     < DiscountCoupon.createdAt Sample.newer
  /\ spec_autoSelect Sample.env Sample.alice
       (discountCoupons Sample.storeTwoCoupons) = Some Sample.older
  /\ discountCoupons after
     = [DiscountCoupon.setUsed Sample.newer; Sample.older]
  /\ transactionCoupons after
     = [TransactionCoupon.mk (transactionUuid Sample.env)
          (DiscountCoupon.id Sample.newer)].
Proof. vm_compute. repeat split. Qed.

(** C10. The transaction a successful booking creates is stored with
    status COMPLETED from the start: it is the one row added to the
    table, so a PENDING row found afterwards was there before. *)
Theorem C10_created_completed env userId d s t s' :
  bookTickets env userId d s = (Ok t, s') ->
  Transaction.status t = TransactionStatus.COMPLETED
  /\ transactions s' = transactions s ++ [t]
  /\ (forall x,
        In x (transactions s') ->
        Transaction.status x = TransactionStatus.PENDING ->
        In x (transactions s)).
Proof.
  intros H.
  apply bookTickets_Ok in H
    as (event & user & totalAmount & ticketUpdates & discountAmount
        & usedCoupons & _ & -> & -> & _).
  pose proof (settled_transactions env userId d event user totalAmount
                ticketUpdates discountAmount usedCoupons (begin s)) as Htable.
  cbn [inTx] in Htable.
  split; [reflexivity |]. split; [exact Htable |].
  intros x Hin Hpending. rewrite Htable in Hin.
  apply in_app_or in Hin as [Hin | [<- | []]]; [exact Hin | discriminate].
Qed.

Lemma C10_created_completed_witness :
  exists t s',
    bookTickets Sample.env Sample.alice Sample.paidInFull Sample.store
    = (Ok t, s')
    /\ Transaction.status t = TransactionStatus.COMPLETED
    /\ transactions s' = transactions Sample.store ++ [t].
Proof.
  do 2 eexists.
  match goal with
  | |- bookTickets _ _ _ _ = (Ok ?t, ?s') /\ _ =>
      assert (bookTickets Sample.env Sample.alice Sample.paidInFull Sample.store
              = (Ok t, s')) as Hbook by (vm_compute; reflexivity)
  end.
  split; [exact Hbook |].
  destruct (C10_created_completed Sample.env Sample.alice Sample.paidInFull
              Sample.store _ _ Hbook) as (Hstatus & Htable & _).
  split; assumption.
Defined.

(** A booking that fails, whatever it fails on, adds no transaction. *)
Lemma failed_booking_adds_no_transaction env userId d s e s' :
  bookTickets env userId d s = (Err e, s') ->
  transactions s' = transactions s.
Proof.
  unfold bookTickets, run_transaction. intros H.
  destruct (callback env userId d (begin s)) as [t1 st1 | e1 st1] eqn:Hc.
  - destruct (commits env && negb (expired st1)); [discriminate |].
    injection H as _ <-.
    apply callback_Returned in Hc
      as (event & user & totalAmount & ticketUpdates & discountAmount
          & usedCoupons & _ & _ & -> & _).
    unfold settled. cbn [outside].
    match goal with |- transactions (credited ?e ?u ?n ?ds ?y) = _ =>
      destruct (credited_frame e u n ds y) as (_ & _ & E & _) end.
    exact E.
  - injection H as _ <-.
    apply callback_Thrown in Hc as (_ & _ & [-> | (n & ds & ->)]);
      reflexivity.
Qed.

(** * Further properties of the routes and the helpers *)

(** ** The booking: failures *)

Lemma credited_items env userId earned description s :
  transactionItems (credited env userId earned description s)
  = transactionItems s.
Proof. unfold credited. now destruct (0 <? earned). Qed.

Lemma nothingButAGrant_frame env userId before after :
  nothingButAGrant env userId before after ->
  users after = users before
  /\ events after = events before
  /\ tickets after = tickets before
  /\ transactions after = transactions before
  /\ transactionItems after = transactionItems before
  /\ discountCoupons after = discountCoupons before
  /\ transactionCoupons after = transactionCoupons before.
Proof. intros [-> | (n & ds & ->)]; repeat split. Qed.

(** X1. A booking that fails sells nothing and spends no coupon: the
    events, the tickets, the transactions, their items, the coupons and
    their links are those of before.  When the failure is one of the
    checks of the route, the whole store is as before. *)
Theorem failed_booking_sells_nothing env userId d s e s' :
  bookTickets env userId d s = (Err e, s') ->
  events s' = events s
  /\ tickets s' = tickets s
  /\ transactions s' = transactions s
  /\ transactionItems s' = transactionItems s
  /\ discountCoupons s' = discountCoupons s
  /\ transactionCoupons s' = transactionCoupons s
  /\ (isCheck e = true -> s' = s).
Proof.
  unfold bookTickets, run_transaction. intros H.
  destruct (callback env userId d (begin s)) as [t st | e1 st] eqn:Hc.
  - destruct (commits env && negb (expired st)); [discriminate |].
    injection H as <- <-.
    apply callback_Returned in Hc
      as (event & user & totalAmount & ticketUpdates & discountAmount
          & usedCoupons & _ & _ & -> & _).
    unfold settled. cbn [outside].
    match goal with |- events (credited ?e ?u ?n ?ds ?x) = _ /\ _ =>
      destruct (credited_frame e u n ds x) as (-> & -> & -> & -> & ->);
      rewrite (credited_items e u n ds x) end.
    repeat split. discriminate.
  - injection H as <- <-.
    apply callback_Thrown in Hc as (_ & Hsame & Hout).
    destruct (nothingButAGrant_frame _ _ _ _ Hout)
      as (_ & -> & -> & -> & -> & -> & ->).
    repeat split. intros Hcheck. rewrite Hsame; [reflexivity |].
    intros ->. discriminate.
Qed.

Lemma failed_booking_sells_nothing_witness :
  exists e s',
    bookTickets Sample.envNoCommit Sample.alice Sample.paidInFull Sample.store
    = (Err e, s')
    /\ tickets s' = tickets Sample.store
    /\ discountCoupons s' = discountCoupons Sample.store.
Proof.
  do 2 eexists. split; [vm_compute; reflexivity |].
  match goal with
  | |- tickets ?s' = _ /\ _ =>
      assert (bookTickets Sample.envNoCommit Sample.alice Sample.paidInFull
                Sample.store = (Err Transaction_not_committed, s')) as Hbook
        by (vm_compute; reflexivity)
  end.
  destruct (failed_booking_sells_nothing _ _ _ _ _ _ Hbook)
    as (_ & Htickets & _ & _ & Hcoupons & _).
  split; assumption.
Defined.

(** ** The booking: when it succeeds *)

(** X2. A request with whole numbers that passes the schema is booked
    exactly when the store commits, every check passes (the event exists
    and is PUBLISHED, each line names a ticket of that event with room
    for its quantity, the event has seats for all the lines together,
    and the user exists), every number it writes fits its [Int] column,
    and it does not both spend points and earn points: the points used
    are not positive or less than 1000 remain to pay. *)
Theorem booking_succeeds_iff env userId body d s :
  wholeNumbers body = Some d ->
  transactionSchema d = true ->
  (exists t s', bookTickets env userId d s = (Ok t, s'))
  <-> (commits env = true
       /\ exists event user totalAmount ticketUpdates discountAmount
                 usedCoupons,
            passes env userId d (begin s) event user totalAmount ticketUpdates
                   discountAmount usedCoupons
            /\ Forall (lineFits s event) (items d)
            /\ writesFit env userId d user totalAmount ticketUpdates
                 discountAmount (begin s) = true
            /\ let t :=
                 transactionOf env userId d user totalAmount discountAmount in
               Transaction.pointsUsed t <= 0
               \/ Transaction.finalAmount t < 1000).
Proof.
  intros _ _. split.
  - intros (t & s' & H).
    apply bookTickets_Ok in H
      as (event & user & totalAmount & ticketUpdates & discountAmount
          & usedCoupons & Hp & -> & _ & Hcommit & Hfit & Hboth).
    split; [exact Hcommit |].
    exists event, user, totalAmount, ticketUpdates, discountAmount, usedCoupons.
    split; [exact Hp |]. split.
    + destruct Hp as (_ & _ & Hval & _). cbn [inTx] in Hval.
      apply validateItems_checked in Hval as [_ Hall]. exact Hall.
    + split; [exact Hfit |]. now apply spendsAndEarns_false.
  - intros (Hcommit & event & user & totalAmount & ticketUpdates
            & discountAmount & usedCoupons & Hp & _ & Hfit & Hboth).
    do 2 eexists.
    apply (passes_bookTickets _ _ _ _ _ _ _ _ _ _ Hp Hcommit Hfit).
    now apply spendsAndEarns_false.
Qed.

Lemma booking_succeeds_iff_witness :
  wholeNumbers Sample2.halfInPoints = Some Sample.halfInPoints
  /\ transactionSchema Sample.halfInPoints = true
  /\ exists t s',
       bookTickets Sample.env Sample.alice Sample.halfInPoints Sample.store
       = (Ok t, s').
Proof.
  assert (wholeNumbers Sample2.halfInPoints = Some Sample.halfInPoints)
    as Hbody by reflexivity.
  assert (transactionSchema Sample.halfInPoints = true) as Hschema
    by reflexivity.
  split; [exact Hbody |]. split; [exact Hschema |].
  apply (booking_succeeds_iff Sample.env Sample.alice Sample2.halfInPoints
           Sample.halfInPoints Sample.store Hbody Hschema).
  split; [reflexivity |].
  exists (Event.mk Sample.concert "Concert" 100 8 EventStatus.PUBLISHED),
         (User.mk Sample.alice 5000), 3000,
         [TicketUpdate.mk Sample.regular 1 3000], 0, [].
  split.
  { split; [vm_compute; reflexivity |].
    split; [reflexivity |].
    split; [vm_compute; reflexivity |].
    split; [vm_compute; discriminate |].
    split; vm_compute; reflexivity. }
  split.
  { constructor; [| constructor].
    eexists. split; [vm_compute; reflexivity |]. vm_compute. discriminate. }
  split; [vm_compute; reflexivity |].
  right. vm_compute. reflexivity.
Defined.

(** The checks alone do not make a booking: this one passes them all,
    and the store would commit, yet it spends 5000 points and earns 1. *)
Example checks_pass_and_not_booked :
  commits Sample.env = true
  /\ (exists event user totalAmount ticketUpdates discountAmount usedCoupons,
        passes Sample.env Sample.alice Sample.twoTickets (begin Sample.store)
               event user totalAmount ticketUpdates discountAmount usedCoupons)
  /\ fst (bookTickets Sample.env Sample.alice Sample.twoTickets Sample.store)
     = Err Transaction_not_committed.
Proof.
  split; [reflexivity |]. split; [| vm_compute; reflexivity].
  destruct (callback_cases Sample.env Sample.alice Sample.twoTickets
              (begin Sample.store)) as [(e & He & _) | Hp]; [| exact Hp].
  vm_compute in He. discriminate.
Qed.

(** ** The booking: the line items *)

(** What the first loop returns: one update for each line, priced at the
    ticket of the event the line names, and the total of the lines. *)
Lemma validateItems_priced eventTickets items_ totalAmount ticketUpdates st
  totalAmount' ticketUpdates' st' :
  validateItems eventTickets items_ totalAmount ticketUpdates st
  = Returned (totalAmount', ticketUpdates') st' ->
  exists priced,
    ticketUpdates' = ticketUpdates ++ priced
    /\ totalAmount'
       = totalAmount
         + sumZ (fun tu => TicketUpdate.price tu * TicketUpdate.quantity tu)
                priced
    /\ Forall2 (fun item tu =>
         exists ticket,
           find (fun t => String.eqb (Ticket.id t) (Item.ticketId item))
                eventTickets = Some ticket
           /\ tu = TicketUpdate.mk (Ticket.id ticket) (Item.quantity item)
                     (Ticket.price ticket))
         items_ priced.
Proof.
  revert totalAmount ticketUpdates.
  induction items_ as [| item rest IH]; intros totalAmount ticketUpdates; simpl.
  - unfold ret. intros H. injection H as <- <- _.
    exists []. rewrite app_nil_r. simpl. repeat split; [lia | constructor].
  - destruct (find _ eventTickets) as [ticket |] eqn:Hfind; [| discriminate].
    destruct (_ >? _); [discriminate |].
    intros H. apply IH in H as (priced & -> & -> & Hall).
    exists (TicketUpdate.mk (Ticket.id ticket) (Item.quantity item)
              (Ticket.price ticket) :: priced).
    rewrite <- app_assoc. simpl. repeat split; [lia |].
    constructor; [| exact Hall]. now exists ticket.
Qed.

(** The row the second loop creates for a line. *)
Lemma itemsWritten_items transactionId lines s :
  transactionItems (itemsWritten transactionId lines s)
  = transactionItems s
    ++ map (fun '(item, ticketUpdate) =>
         TransactionItem.mk transactionId (Item.ticketId item)
           (Item.quantity item) (TicketUpdate.price ticketUpdate)
           (TicketUpdate.price ticketUpdate * Item.quantity item)) lines.
Proof.
  unfold itemsWritten. revert s.
  induction lines as [| [item ticketUpdate] rest IH]; intros s; simpl.
  - now rewrite app_nil_r.
  - rewrite IH. cbn [transactionItems with_tickets with_transactionItems].
    unfold create. now rewrite <- app_assoc.
Qed.

Lemma couponsWritten_items transactionId usedCoupons s :
  transactionItems (couponsWritten transactionId usedCoupons s)
  = transactionItems s.
Proof.
  unfold couponsWritten. revert s.
  induction usedCoupons as [| couponId rest IH]; intros s; simpl;
    [reflexivity |].
  now rewrite IH.
Qed.

Lemma debited_items env userId p s :
  transactionItems (debited env userId p s) = transactionItems s.
Proof. unfold debited. now destruct (0 <? p). Qed.

Lemma settled_items env userId d event user totalAmount ticketUpdates
  discountAmount usedCoupons s :
  transactionItems
    (inTx (settled env userId d event user totalAmount ticketUpdates
                   discountAmount usedCoupons (begin s)))
  = transactionItems s
    ++ map (fun '(item, ticketUpdate) =>
         TransactionItem.mk (transactionUuid env) (Item.ticketId item)
           (Item.quantity item) (TicketUpdate.price ticketUpdate)
           (TicketUpdate.price ticketUpdate * Item.quantity item))
         (combine (items d) ticketUpdates).
Proof.
  unfold settled. cbn [inTx].
  rewrite credited_items, debited_items, couponsWritten_items.
  cbn [with_events transactionItems].
  now rewrite itemsWritten_items.
Qed.

Lemma rows_of_lines transactionId eventTickets items_ priced :
  Forall2 (fun item tu =>
    exists ticket,
      find (fun t => String.eqb (Ticket.id t) (Item.ticketId item))
           eventTickets = Some ticket
      /\ tu = TicketUpdate.mk (Ticket.id ticket) (Item.quantity item)
                (Ticket.price ticket))
    items_ priced ->
  let rows :=
    map (fun '(item, ticketUpdate) =>
      TransactionItem.mk transactionId (Item.ticketId item)
        (Item.quantity item) (TicketUpdate.price ticketUpdate)
        (TicketUpdate.price ticketUpdate * Item.quantity item))
      (combine items_ priced) in
  map TransactionItem.ticketId rows = map Item.ticketId items_
  /\ map TransactionItem.quantity rows = map Item.quantity items_
  /\ sumZ TransactionItem.totalPrice rows
     = sumZ (fun tu => TicketUpdate.price tu * TicketUpdate.quantity tu) priced
  /\ Forall (fun row =>
       TransactionItem.transactionId row = transactionId
       /\ TransactionItem.totalPrice row
          = TransactionItem.unitPrice row * TransactionItem.quantity row
       /\ exists ticket,
            In ticket eventTickets
            /\ Ticket.id ticket = TransactionItem.ticketId row
            /\ Ticket.price ticket = TransactionItem.unitPrice row) rows.
Proof.
  induction 1 as [| item tu rest priced (ticket & Hfind & ->) _ IH]; simpl.
  - repeat split. constructor.
  - destruct IH as (Hids & Hqs & Hsum & Hall).
    rewrite Hids, Hqs, Hsum. repeat split.
    constructor; [| exact Hall]. simpl.
    apply find_some in Hfind as [Hin E]. apply String.eqb_eq in E.
    repeat split. exists ticket. auto.
Qed.

Lemma whole_spec q z : whole q = Some z -> (inject_Z z == q)%Q.
Proof.
  unfold whole. destruct (_ =? 0) eqn:E; [| discriminate].
  intros H. injection H as <-. apply Z.eqb_eq in E.
  unfold Qeq, inject_Z. cbn [Qnum Qden].
  rewrite Z.mul_1_r, Z.mul_comm. symmetry.
  now apply Z.div_exact.
Qed.

Lemma wholeItems_spec l items_ :
  wholeItems l = Some items_ ->
  Forall2 (fun line item =>
             Item.ticketId item = Body.ticketId line
             /\ (inject_Z (Item.quantity item) == Body.quantity line)%Q)
          l items_.
Proof.
  revert items_. induction l as [| line rest IH]; intros items_ H; simpl in H.
  - injection H as <-. constructor.
  - destruct (whole (Body.quantity line)) as [quantity |] eqn:Hq;
      [| discriminate].
    destruct (wholeItems rest) as [rest' |]; [| discriminate].
    injection H as <-. constructor; [| now apply IH].
    split; [reflexivity | now apply whole_spec].
Qed.

Lemma wholeNumbers_items body d :
  wholeNumbers body = Some d ->
  Forall2 (fun line item =>
             Item.ticketId item = Body.ticketId line
             /\ (inject_Z (Item.quantity item) == Body.quantity line)%Q)
          (Body.items body) (items d).
Proof.
  unfold wholeNumbers.
  destruct (wholeItems (Body.items body)) as [items_ |] eqn:Hitems;
    [| discriminate].
  destruct (match Body.pointsToUse body with
            | Some q => whole q
            | None => Some 0
            end); [| discriminate].
  intros H. injection H as <-. now apply wholeItems_spec.
Qed.

Lemma itemFits_rows transactionId lines table :
  itemsFit lines table = true ->
  Forall (fun row => itemFits row = true)
    (map (fun '(item, ticketUpdate) =>
       TransactionItem.mk transactionId (Item.ticketId item)
         (Item.quantity item) (TicketUpdate.price ticketUpdate)
         (TicketUpdate.price ticketUpdate * Item.quantity item)) lines).
Proof.
  revert table. induction lines as [| [item ticketUpdate] rest IH];
    intros table H; [constructor |].
  rewrite (itemsFit_cons transactionId) in H.
  apply andb_prop in H as [H Hrest]. apply andb_prop in H as [Hrow _].
  cbn [map]. constructor; [exact Hrow | now apply (IH _ Hrest)].
Qed.

(** A line for one ticket and a half is not among the bodies covered. *)
Example a_fraction_is_not_covered :
  wholeNumbers
    (Body.mk Sample.concert [Body.mkItem Sample.regular (3 # 2)] None None)
  = None.
Proof. reflexivity. Qed.

(** X3. For a request whose numbers are whole, a successful booking
    adds one item for each line of the request, in order, under the id
    of the transaction: it carries the ticket and the quantity of the
    line, the price of a ticket of the event booked as its unit price,
    and unit price times quantity as its total, all of them [Int]s; the
    totals of the items add up to the totalAmount of the transaction. *)
Theorem items_add_up env userId body d s t s' :
  wholeNumbers body = Some d ->
  bookTickets env userId d s = (Ok t, s') ->
  exists rows,
    transactionItems s' = transactionItems s ++ rows
    /\ Forall2 (fun line row =>
                  TransactionItem.ticketId row = Body.ticketId line
                  /\ (inject_Z (TransactionItem.quantity row)
                      == Body.quantity line)%Q)
               (Body.items body) rows
    /\ sumZ TransactionItem.totalPrice rows = Transaction.totalAmount t
    /\ Forall (fun row =>
         TransactionItem.transactionId row = Transaction.id t
         /\ TransactionItem.totalPrice row
            = TransactionItem.unitPrice row * TransactionItem.quantity row
         /\ itemFits row = true
         /\ exists ticket,
              In ticket (tickets s)
              /\ Ticket.eventId ticket = eventId d
              /\ Ticket.id ticket = TransactionItem.ticketId row
              /\ Ticket.price ticket = TransactionItem.unitPrice row) rows.
Proof.
  intros Hbody H.
  apply bookTickets_Ok in H
    as (event & user & totalAmount & ticketUpdates & discountAmount
        & usedCoupons & Hp & -> & -> & _ & Hfit & _).
  destruct Hp as (Hev & _ & Hval & _). cbn [inTx] in *.
  apply find_some in Hev as [_ Heid]. apply String.eqb_eq in Heid.
  apply validateItems_priced in Hval as (priced & Htus & Htotal & Hall).
  simpl in Htus, Htotal. subst ticketUpdates totalAmount.
  unfold writesFit in Hfit. cbv zeta in Hfit. cbn [inTx] in Hfit.
  apply andb_prop in Hfit as [Hfit _]. apply andb_prop in Hfit as [_ Hfit].
  pose proof (itemFits_rows (transactionUuid env) _ _ Hfit) as Hints.
  eexists. split; [apply settled_items |].
  destruct (rows_of_lines (transactionUuid env) _ _ _ Hall)
    as (Hids & Hqs & Hsum & Hrows).
  cbv zeta in Hids, Hqs, Hsum, Hrows.
  set (rows := map _ (combine (items d) priced)) in *.
  split.
  { pose proof (wholeNumbers_items body d Hbody) as Hlines.
    assert (Forall2 (fun item row =>
                       TransactionItem.ticketId row = Item.ticketId item
                       /\ TransactionItem.quantity row = Item.quantity item)
                    (items d) rows) as Hrowwise.
    { clear - Hids Hqs. revert Hids Hqs. generalize rows.
      induction (items d) as [| item rest IH]; intros rs Hids Hqs;
        destruct rs as [| row rs]; try discriminate; constructor.
      - simpl in Hids, Hqs. injection Hids as -> _. injection Hqs as -> _.
        now split.
      - simpl in Hids, Hqs. injection Hids as _ Hids. injection Hqs as _ Hqs.
        now apply IH. }
    clear - Hlines Hrowwise. revert Hrowwise. generalize rows.
    induction Hlines as [| line item lines items_ [Hid Hq] _ IH];
      intros rs Hrowwise; inversion Hrowwise; subst; constructor.
    - match goal with H : _ /\ _ |- _ => destruct H as [-> ->] end.
      now split.
    - now apply IH. }
  split; [exact Hsum |].
  rewrite Forall_forall in *. intros row Hin.
  destruct (Hrows row Hin) as (Htid & Htot & ticket & Hint & Hid & Hprice).
  repeat split; auto.
  apply filter_In in Hint as [Hint Hevent]. apply String.eqb_eq in Hevent.
  exists ticket. repeat split; auto. congruence.
Qed.

Lemma items_add_up_witness :
  exists t s' rows,
    wholeNumbers Sample2.twiceTheSameTicket = Some Sample.twiceTheSameTicket
    /\ bookTickets Sample.env Sample.alice Sample.twiceTheSameTicket
         Sample.store = (Ok t, s')
    /\ transactionItems s' = transactionItems Sample.store ++ rows
    /\ sumZ TransactionItem.totalPrice rows = Transaction.totalAmount t
    /\ List.length rows = 2%nat.
Proof.
  do 2 eexists.
  assert (wholeNumbers Sample2.twiceTheSameTicket
          = Some Sample.twiceTheSameTicket) as Hbody by reflexivity.
  match goal with
  | |- exists rows, _ /\ bookTickets _ _ _ _ = (Ok ?t, ?s') /\ _ =>
      assert (bookTickets Sample.env Sample.alice Sample.twiceTheSameTicket
                Sample.store = (Ok t, s')) as Hbook
        by (vm_compute; reflexivity)
  end.
  destruct (items_add_up _ _ _ _ _ _ _ Hbody Hbook)
    as (rows & Hrows & Hlines & Hsum & _).
  exists rows. repeat split; auto.
  apply Forall2_length in Hlines. rewrite <- Hlines. reflexivity.
Defined.

(** ** The booking: seats and tickets *)

Lemma find_update {A} (key : A -> string) id (f : A -> A) table :
  (forall row, key (f row) = key row) ->
  find (fun row => String.eqb (key row) id) (update key id f table)
  = option_map f (find (fun row => String.eqb (key row) id) table).
Proof.
  intros Hkey. unfold update.
  induction table as [| row rest IH]; simpl; [reflexivity |].
  destruct (String.eqb (key row) id) eqn:E; simpl.
  - now rewrite Hkey, E.
  - now rewrite E.
Qed.

Lemma find_update_other {A} (key : A -> string) id other (f : A -> A) table :
  (forall row, key (f row) = key row) ->
  other <> id ->
  find (fun row => String.eqb (key row) other) (update key id f table)
  = find (fun row => String.eqb (key row) other) table.
Proof.
  intros Hkey Hne. unfold update.
  induction table as [| row rest IH]; simpl; [reflexivity |].
  destruct (String.eqb (key row) id) eqn:E.
  - rewrite Hkey. apply String.eqb_eq in E.
    replace (String.eqb (key row) other) with false; [exact IH |].
    symmetry. apply String.eqb_neq. congruence.
  - now rewrite IH.
Qed.




Lemma sumZ_map {A B} (f : B -> Z) (g : A -> B) l :
  sumZ f (map g l) = sumZ (fun x => f (g x)) l.
Proof. induction l as [| x rest IH]; simpl; [reflexivity | now rewrite IH]. Qed.







(** ** The booking: amounts and balances *)

Lemma sumZ_nonneg {A} (f : A -> Z) l :
  (forall x, In x l -> 0 <= f x) -> 0 <= sumZ f l.
Proof.
  induction l as [| x rest IH]; simpl; intros H; [lia |].
  specialize (H x (or_introl eq_refl)) as Hx.
  assert (0 <= sumZ f rest) by (apply IH; intros y Hy; apply H; now right).
  lia.
Qed.

Lemma hd_error_In {A} (l : list A) x : hd_error l = Some x -> In x l.
Proof. destruct l; simpl; [discriminate |]. intros H. injection H as ->. now left. Qed.

(** What the coupon step returns: nothing, or the discount of a coupon
    of the table that is neither used nor expired. *)
Lemma applyCoupon_result env userId code totalAmount st discountAmount
  usedCoupons st' :
  applyCoupon env userId code totalAmount st
  = Returned (discountAmount, usedCoupons) st' ->
  (discountAmount = 0 /\ usedCoupons = [])
  \/ exists k,
       In k (discountCoupons (inTx st))
       /\ usable (couponClock env) k = true
       /\ discountAmount = totalAmount * DiscountCoupon.discountPercent k / 100
       /\ usedCoupons = [DiscountCoupon.id k].
Proof.
  unfold applyCoupon, bind, txRead, findFirst.
  destruct (truthy code) as [c |].
  - destruct (find _ _) as [k |] eqn:Hfind; unfold ret; intros H;
      injection H as <- <- _; [right | now left].
    apply find_some in Hfind as [Hin Hk].
    exists k. repeat split; auto.
    unfold usable. apply andb_prop in Hk as [Hk Hexp].
    apply andb_prop in Hk as [_ Hunused]. now rewrite Hunused, Hexp.
  - destruct (hd_error _) as [k |] eqn:Hhd; unfold ret; intros H;
      injection H as <- <- _; [right | now left].
    assert (In k (filter (fun k => String.eqb (DiscountCoupon.userId k) userId
                                   && negb (DiscountCoupon.isUsed k)
                                   && (couponClock env
                                       <=? DiscountCoupon.expiresAt k))
                         (discountCoupons (inTx st)))) as Hin.
    { apply (Permutation_in _ (sortBy_perm (desc DiscountCoupon.discountPercent) _)).
      now apply hd_error_In. }
    apply filter_In in Hin as [Hin Hk].
    exists k. repeat split; auto.
    unfold usable. apply andb_prop in Hk as [Hk Hexp].
    apply andb_prop in Hk as [_ Hunused]. now rewrite Hunused, Hexp.
Qed.

(** X5. On a store where prices and balances are not negative and
    percentages lie between 0 and 100, a request with whole numbers that
    passes the schema (quantities of at least 1, pointsToUse of at least
    0) and is booked is settled within bounds: 0 <= discountAmount <=
    totalAmount, the points used lie between 0 and the balance,
    finalAmount is at most totalAmount, and the balance of the user is
    not negative afterwards. *)
Theorem amounts_within_bounds env userId body d s t s' :
  wholeNumbers body = Some d ->
  transactionSchema d = true ->
  (forall tk, In tk (tickets s) -> 0 <= Ticket.price tk) ->
  (forall k, In k (discountCoupons s) ->
             0 <= DiscountCoupon.discountPercent k <= 100) ->
  (forall u, In u (users s) -> 0 <= User.pointsBalance u) ->
  bookTickets env userId d s = (Ok t, s') ->
  0 <= Transaction.discountAmount t <= Transaction.totalAmount t
  /\ 0 <= Transaction.finalAmount t <= Transaction.totalAmount t
  /\ exists balance,
       balanceOf userId s = Some balance
       /\ 0 <= Transaction.pointsUsed t <= balance
       /\ exists balance',
            balanceOf userId s' = Some balance' /\ 0 <= balance'.
Proof.
  intros _ Hschema Hprice Hpct Hbal H.
  pose proof H as Hbook.
  apply bookTickets_Ok in H
    as (event & user & totalAmount & ticketUpdates & discountAmount
        & usedCoupons & Hp & Ht & Hs & _).
  destruct Hp as (_ & _ & Hval & _ & Hcoupon & Huser). cbn [inTx] in *.
  unfold transactionSchema in Hschema.
  apply andb_prop in Hschema as [Hq Hreq].
  rewrite forallb_forall in Hq. apply Z.leb_le in Hreq.
  apply validateItems_priced in Hval as (priced & _ & Htotal & Hall).
  simpl in Htotal.
  assert (0 <= totalAmount) as Htot.
  { subst totalAmount. apply sumZ_nonneg.
    clear - Hall Hq Hprice.
    induction Hall as [| item tu rest priced (ticket & Hfind & ->) _ IH];
      intros x Hx; [destruct Hx |].
    destruct Hx as [<- | Hx].
    - simpl. apply find_some in Hfind as [Hin _].
      apply filter_In in Hin as [Hin _].
      specialize (Hprice ticket Hin).
      specialize (Hq item (or_introl eq_refl)). apply Z.leb_le in Hq. nia.
    - apply IH; auto. intros y Hy. apply Hq. now right. }
  assert (0 <= discountAmount <= totalAmount) as Hdisc.
  { apply applyCoupon_result in Hcoupon
      as [[-> _] | (k & Hin & _ & -> & _)]; [lia |].
    cbn [inTx] in Hin. specialize (Hpct k Hin).
    split.
    - apply Z.div_pos; nia.
    - apply Z.div_le_upper_bound; nia. }
  pose proof Huser as Hfound. apply find_some in Hfound as [Huin _].
  specialize (Hbal user Huin).
  assert (balanceOf userId s = Some (User.pointsBalance user)) as Hb
    by (unfold balanceOf; now rewrite Huser).
  set (p := Math_min (pointsToUse d) (User.pointsBalance user)
                     (totalAmount - discountAmount)).
  assert (0 <= p <= User.pointsBalance user /\ p <= totalAmount - discountAmount)
    as [Hp1 Hp2] by (unfold p, Math_min; lia).
  subst t. unfold transactionOf. cbn. fold p.
  split; [exact Hdisc |]. split; [lia |].
  exists (User.pointsBalance user). split; [exact Hb |]. split; [exact Hp1 |].
  subst s'. unfold settled. cbn [inTx].
  unfold transactionOf. cbn. fold p.
  destruct (before_debit_frame env userId d user totalAmount ticketUpdates
              discountAmount usedCoupons s) as [Husers _].
  unfold transactionOf in Husers. cbn in Husers.
  assert (0 <= calculatePoints (totalAmount - discountAmount - p)) as Hearned
    by (apply calculatePoints_nonneg; lia).
  rewrite balanceOf_credited by exact Hearned.
  rewrite balanceOf_debited.
  match goal with |- context [balanceOf userId ?x] =>
    rewrite (balanceOf_users userId x s Husers) end.
  rewrite Hb. simpl. eexists. split; [reflexivity | lia].
Qed.

Lemma amounts_within_bounds_witness :
  exists t s',
    bookTickets Sample.env Sample.alice Sample.discountedWithPoints
      Sample.storeTwenty = (Ok t, s')
    /\ Transaction.discountAmount t = 1000
    /\ Transaction.pointsUsed t = 3500
    /\ 0 <= Transaction.discountAmount t <= Transaction.totalAmount t
    /\ 0 <= Transaction.finalAmount t <= Transaction.totalAmount t.
Proof.
  do 2 eexists.
  match goal with
  | |- bookTickets _ _ _ _ = (Ok ?t, ?s') /\ _ =>
      assert (bookTickets Sample.env Sample.alice Sample.discountedWithPoints
                Sample.storeTwenty = (Ok t, s')) as Hbook
        by (vm_compute; reflexivity)
  end.
  split; [exact Hbook |].
  split; [reflexivity |]. split; [reflexivity |].
  assert (wholeNumbers Sample2.discountedWithPoints
          = Some Sample.discountedWithPoints) as Hbody by reflexivity.
  assert (forall tk, In tk (tickets Sample.storeTwenty) -> 0 <= Ticket.price tk)
    as Hprice by (intros tk [<- | []]; vm_compute; discriminate).
  assert (forall k, In k (discountCoupons Sample.storeTwenty) ->
                    0 <= DiscountCoupon.discountPercent k <= 100)
    as Hpct by (intros k [<- | []]; vm_compute; split; discriminate).
  assert (forall u, In u (users Sample.storeTwenty) -> 0 <= User.pointsBalance u)
    as Hbal by (intros u [<- | [<- | []]]; vm_compute; discriminate).
  destruct (amounts_within_bounds Sample.env Sample.alice
              Sample2.discountedWithPoints Sample.discountedWithPoints
              Sample.storeTwenty _ _ Hbody eq_refl Hprice Hpct Hbal Hbook)
    as (Hdisc & Hfinal & _).
  split; assumption.
Defined.

Lemma filter_map_same {A} (P : A -> bool) (g : A -> A) l :
  (forall q, In q l -> P (g q) = P q /\ (P q = true -> g q = q)) ->
  filter P (map g l) = filter P l.
Proof.
  induction l as [| q rest IH]; simpl; intros H; [reflexivity |].
  destruct (H q (or_introl eq_refl)) as [HP Hsame].
  rewrite HP, IH by (intros y Hy; apply H; now right).
  destruct (P q) eqn:E; [| reflexivity].
  now rewrite (Hsame eq_refl).
Qed.

Lemma balanceOf_debited_other env userId other p s :
  other <> userId ->
  balanceOf other (debited env userId p s) = balanceOf other s.
Proof.
  intros Hne. unfold debited, balanceOf.
  destruct (0 <? p); [| reflexivity].
  cbn [users with_points with_users].
  now rewrite find_update_other.
Qed.

Lemma balanceOf_credited_other env userId other earned description s :
  other <> userId ->
  balanceOf other (credited env userId earned description s)
  = balanceOf other s.
Proof.
  intros Hne. unfold credited, balanceOf.
  destruct (0 <? earned); [| reflexivity].
  cbn [users with_points with_users].
  now rewrite find_update_other.
Qed.

Lemma others_points_credited env userId earned description s :
  filter (fun p => negb (optionEqb (Point.earnedById p) userId))
         (points (credited env userId earned description s))
  = filter (fun p => negb (optionEqb (Point.earnedById p) userId)) (points s).
Proof.
  unfold credited. destruct (0 <? earned); [| reflexivity].
  cbn [points with_points with_users]. unfold create.
  rewrite filter_app. simpl. rewrite String.eqb_refl. simpl.
  apply app_nil_r.
Qed.

Lemma others_points_debited env userId p s :
  NoDup (map Point.id (points s)) ->
  filter (fun q => negb (optionEqb (Point.earnedById q) userId))
         (points (debited env userId p s))
  = filter (fun q => negb (optionEqb (Point.earnedById q) userId)) (points s).
Proof.
  intros Hnd. unfold debited. destruct (0 <? p); [| reflexivity].
  cbn [points with_points with_users].
  rewrite markAll_map. apply filter_map_same.
  intros q Hq.
  destruct (idIn _ q) eqn:Hsel; [| now split].
  split; [reflexivity |].
  intros Hother. exfalso.
  apply (idIn_In _ (points s) q Hnd) in Hsel; auto.
  - apply taken_incl, userPoints_live in Hsel as [_ Hlive].
    unfold live in Hlive.
    apply andb_prop in Hlive as [Hlive _].
    apply andb_prop in Hlive as [Hown _].
    now rewrite Hown in Hother.
  - intros c Hc. now apply taken_incl, userPoints_live in Hc.
Qed.

(** X6. Whatever its outcome, a booking leaves the other users alone:
    the balance of every other user is what it was, and so is every
    grant that the user who books has not earned.  (Point ids are a
    primary key.) *)
Theorem other_users_untouched env userId d s :
  NoDup (map Point.id (points s)) ->
  let s' := snd (bookTickets env userId d s) in
  (forall other, other <> userId -> balanceOf other s' = balanceOf other s)
  /\ filter (fun p => negb (optionEqb (Point.earnedById p) userId)) (points s')
     = filter (fun p => negb (optionEqb (Point.earnedById p) userId))
              (points s).
Proof.
  intros Hnd s'. subst s'.
  unfold bookTickets, run_transaction.
  destruct (callback env userId d (begin s)) as [t st | e st] eqn:Hc.
  - apply callback_Returned in Hc
      as (event & user & totalAmount & ticketUpdates & discountAmount
          & usedCoupons & _ & _ & -> & _).
    destruct (before_debit_frame env userId d user totalAmount ticketUpdates
                discountAmount usedCoupons s) as [Husers Hpoints].
    cbv zeta in Husers, Hpoints.
    destruct (commits env && negb _); cbn [snd]; unfold settled;
      cbn [inTx outside].
    + split.
      * intros other Hne.
        rewrite balanceOf_credited_other, balanceOf_debited_other by exact Hne.
        now apply balanceOf_users.
      * rewrite others_points_credited.
        rewrite others_points_debited by now rewrite Hpoints.
        now rewrite Hpoints.
    + split.
      * intros other Hne. now rewrite balanceOf_credited_other.
      * apply others_points_credited.
  - apply callback_Thrown in Hc as (_ & _ & [Hout | (n & ds & Hout)]);
      cbn [snd outside] in *; rewrite Hout; [now split |].
    split; [reflexivity |].
    cbn [points with_points]. unfold create.
    rewrite filter_app. simpl. rewrite String.eqb_refl. simpl.
    apply app_nil_r.
Qed.

Lemma other_users_untouched_witness :
  balanceOf Sample.bob
    (snd (bookTickets Sample.env Sample.alice Sample.twoTickets Sample.store))
  = balanceOf Sample.bob Sample.store.
Proof.
  apply (other_users_untouched Sample.env Sample.alice Sample.twoTickets
           Sample.store).
  - vm_compute. repeat constructor; simpl; intuition discriminate.
  - vm_compute. discriminate.
Defined.

(** ** The booking: a request without lines *)



(** ** [addPointsToUser] on its own *)

Lemma sumZ_app {A} (f : A -> Z) l1 l2 :
  sumZ f (l1 ++ l2) = sumZ f l1 + sumZ f l2.
Proof. induction l1 as [| x rest IH]; simpl; lia. Qed.

Lemma incrementFits_balance userId n s balance :
  balanceOf userId s = Some balance ->
  incrementFits User.id userId User.pointsBalance n (users s)
  = isInt (balance + n).
Proof.
  unfold balanceOf, incrementFits.
  destruct (find _ (users s)) as [u |]; [| discriminate].
  intros H. injection H as <-. reflexivity.
Qed.

Lemma direct_addPointsToUser env userId points_ description s :
  isInt points_ = true ->
  incrementFits User.id userId User.pointsBalance points_ (users s) = true ->
  direct (addPointsToUser env userId points_ description) s
  = with_users (update User.id userId (User.incrementPointsBalance points_))
      (with_points (create (grant env userId points_ description)) s).
Proof.
  intros Hamount Hbalance. unfold direct.
  now rewrite addPointsToUser_run.
Qed.

Lemma liveSum_create who now g table :
  liveSum who now (create g table)
  = liveSum who now table + (if live who now g then Point.amount g else 0).
Proof.
  unfold liveSum, create. rewrite filter_app, sumZ_app.
  cbn [filter]. destruct (live who now g); cbn [sumZ]; lia.
Qed.

Lemma live_grant env userId points_ description who now :
  live who now (grant env userId points_ description)
  = String.eqb userId who
    && (now <=? JSDate.setMonth (LocalTZA env) (creditClock env)
                  (JSDate.getMonth (LocalTZA env) (creditClock env) + 3)).
Proof. unfold live, grant. cbn [Point.earnedById Point.isUsed Point.expiresAt
         optionEqb negb]. now rewrite andb_true_r. Qed.

(** X8. Outside a transaction, as the register route calls it,
    [addPointsToUser], for an amount that is an [Int] and a balance that
    stays one, keeps the balance of the user equal to the live sum of
    the ledger, seen from any instant up to 89 days after the credit
    less what the offset of the host's zone moves by, and leaves the
    balance and the live sum of every other user as they are. *)
Theorem credit_keeps_ledger env userId points_ description s now shift :
  isInt points_ = true ->
  isInt (liveSum userId now (points s) + points_) = true ->
  (forall a b, Z.abs (LocalTZA env a true - LocalTZA env b false) <= shift) ->
  now <= creditClock env + 89 * JSDate.msPerDay - shift ->
  ledgerAgrees userId now s ->
  let s' := direct (addPointsToUser env userId points_ description) s in
  ledgerAgrees userId now s'
  /\ forall other,
       other <> userId ->
       balanceOf other s' = balanceOf other s
       /\ liveSum other now (points s') = liveSum other now (points s).
Proof.
  intros Hamount Hbalance Hshift Hnow Hagrees s'. subst s'.
  rewrite direct_addPointsToUser;
    [| exact Hamount
     | now rewrite (incrementFits_balance _ _ _ _ Hagrees)].
  pose proof (setMonth_three_months_shift (LocalTZA env) shift
                (creditClock env) Hshift) as Hthree.
  split.
  - unfold ledgerAgrees, balanceOf in *.
    cbn [users points with_users with_points].
    rewrite find_update by reflexivity.
    rewrite liveSum_create, live_grant, String.eqb_refl.
    replace (now <=? _) with true by (symmetry; apply Z.leb_le; lia).
    cbn [andb grant Point.amount].
    destruct (find _ (users s)) as [u |]; [| discriminate].
    cbn [option_map] in *. injection Hagrees as Hagrees.
    cbn [User.incrementPointsBalance User.pointsBalance]. f_equal. lia.
  - intros other Hne. split.
    + unfold balanceOf. cbn [users with_users with_points].
      now rewrite find_update_other.
    + cbn [points with_users with_points].
      rewrite liveSum_create, live_grant.
      replace (String.eqb userId other) with false
        by (symmetry; apply String.eqb_neq; congruence).
      cbn [andb]. lia.
Qed.

Lemma credit_keeps_ledger_witness :
  ledgerAgrees Sample.alice Sample.now
    (direct (addPointsToUser Sample2.envNewYork Sample.alice 10000
               "Referral bonus from Bob Builder") Sample.store).
Proof.
  assert (isInt 10000 = true) as Hamount by reflexivity.
  assert (isInt (liveSum Sample.alice Sample.now (points Sample.store) + 10000)
          = true) as Hbalance by (vm_compute; reflexivity).
  assert (forall a b,
            Z.abs (LocalTZA Sample2.envNewYork a true
                   - LocalTZA Sample2.envNewYork b false) <= 3600000)
    as Hshift.
  { intros a b. cbn [LocalTZA Sample2.envNewYork]. unfold Sample.newYork.
    destruct (_ && _); destruct (_ && _); vm_compute; discriminate. }
  assert (Sample.now
          <= creditClock Sample2.envNewYork + 89 * JSDate.msPerDay - 3600000)
    as Hnow by (vm_compute; discriminate).
  assert (ledgerAgrees Sample.alice Sample.now Sample.store) as Hagrees
    by (vm_compute; reflexivity).
  destruct (credit_keeps_ledger Sample2.envNewYork Sample.alice 10000
              "Referral bonus from Bob Builder" Sample.store Sample.now
              3600000 Hamount Hbalance Hshift Hnow Hagrees) as [Hkept _].
  exact Hkept.
Defined.

(** ** [cleanupExpiredPoints] *)


















(** ** [createReferralDiscount] *)

(** X12. [createReferralDiscount] stores one coupon of 10 percent for
    the user.  In any store that still holds that coupon unused, a
    booking of the user without a code, made up to 89 days after the
    coupon less what the offset of the host's zone moves by, that
    succeeds with a totalAmount that is not negative takes at least 10
    percent off, through a coupon of that user, which it marks used. *)
Theorem referral_coupon_is_applied cenv env userId d s s1 later t s2 shift :
  createReferralDiscount cenv userId s = Some s1 ->
  In (referralCoupon cenv userId) (discountCoupons later) ->
  truthy (couponCode d) = None ->
  (forall a b,
     Z.abs (couponLocalTZA cenv a true - couponLocalTZA cenv b false)
     <= shift) ->
  couponClock env <= discountClock cenv + 89 * JSDate.msPerDay - shift ->
  bookTickets env userId d later = (Ok t, s2) ->
  0 <= Transaction.totalAmount t ->
  discountCoupons s1 = discountCoupons s ++ [referralCoupon cenv userId]
  /\ Transaction.totalAmount t * 10 / 100 <= Transaction.discountAmount t
  /\ exists k,
       In k (discountCoupons later)
       /\ DiscountCoupon.userId k = userId
       /\ 10 <= DiscountCoupon.discountPercent k
       /\ Transaction.discountAmount t
          = Transaction.totalAmount t * DiscountCoupon.discountPercent k / 100
       /\ discountCoupons s2
          = update DiscountCoupon.id (DiscountCoupon.id k)
              DiscountCoupon.setUsed (discountCoupons later).
Proof.
  intros Hcreate Hkept Hcode Hshift Hclock H Htotal.
  unfold createReferralDiscount in Hcreate.
  destruct (_ || _); [discriminate |].
  injection Hcreate as Hs1.
  split; [rewrite <- Hs1; reflexivity |].
  assert (In (referralCoupon cenv userId)
             (candidates env userId (discountCoupons later))) as Hcand.
  { unfold candidates. apply filter_In. split; [exact Hkept |].
    unfold referralCoupon.
    cbn [DiscountCoupon.userId DiscountCoupon.isUsed
         DiscountCoupon.expiresAt negb].
    rewrite String.eqb_refl. cbn [andb]. apply Z.leb_le.
    pose proof (setMonth_three_months_shift (couponLocalTZA cenv) shift
                  (discountClock cenv) Hshift). lia. }
  apply bookTickets_Ok in H
    as (event & user & totalAmount & ticketUpdates & discountAmount
        & usedCoupons & Hp & Ht & Hs2 & _).
  destruct Hp as (_ & _ & _ & _ & Hcoupon & _).
  rewrite (applyCoupon_auto _ _ _ _ _ Hcode) in Hcoupon.
  cbn [inTx] in Hcoupon.
  destruct (settled_coupons env userId d event user totalAmount ticketUpdates
              discountAmount usedCoupons later) as [Hc _].
  cbv zeta in Hc. rewrite <- Hs2 in Hc. rewrite Hc. clear Hc.
  pose proof (hd_sortBy_desc DiscountCoupon.discountPercent
                (candidates env userId (discountCoupons later))) as Hhd.
  destruct (hd_error _) as [k |].
  - assert (discountAmount
            = totalAmount * DiscountCoupon.discountPercent k / 100
            /\ usedCoupons = [DiscountCoupon.id k]) as [Hdisc Hused]
      by (split; congruence).
    destruct Hhd as (before & after & Hsplit & Hbefore & Hafter).
    assert (In k (candidates env userId (discountCoupons later)))
      as Hk by (rewrite Hsplit; apply in_or_app; right; now left).
    assert (10 <= DiscountCoupon.discountPercent k) as Hpct.
    { rewrite Hsplit in Hcand.
      apply in_app_or in Hcand as [Hin | [E | Hin]].
      - specialize (Hbefore _ Hin). unfold referralCoupon in Hbefore.
        cbn [DiscountCoupon.discountPercent] in Hbefore. lia.
      - rewrite E. unfold referralCoupon.
        cbn [DiscountCoupon.discountPercent]. lia.
      - specialize (Hafter _ Hin). unfold referralCoupon in Hafter.
        cbn [DiscountCoupon.discountPercent] in Hafter. exact Hafter. }
    rewrite Ht in *. unfold transactionOf in *.
    cbn [Transaction.totalAmount Transaction.discountAmount] in *.
    rewrite Hdisc, Hused.
    split.
    + apply Z.div_le_mono; nia.
    + unfold candidates in Hk. apply filter_In in Hk as [Hin Hown].
      apply andb_prop in Hown as [Hown _].
      apply andb_prop in Hown as [Hown _].
      apply String.eqb_eq in Hown.
      exists k. repeat split; auto.
  - rewrite Hhd in Hcand. destruct Hcand.
Qed.

Lemma referral_coupon_is_applied_witness :
  exists s1 t s2,
    createReferralDiscount Sample2.couponEnv Sample.alice Sample.store
    = Some s1
    /\ bookTickets Sample.env Sample.alice Sample.paidInFull s1 = (Ok t, s2)
    /\ Transaction.totalAmount t * 10 / 100 <= Transaction.discountAmount t.
Proof.
  do 3 eexists.
  match goal with
  | |- createReferralDiscount _ _ _ = Some ?s1
       /\ bookTickets _ _ _ _ = (Ok ?t, ?s2) /\ _ =>
      assert (createReferralDiscount Sample2.couponEnv Sample.alice
                Sample.store = Some s1) as Hcreate
        by (vm_compute; reflexivity);
      assert (bookTickets Sample.env Sample.alice Sample.paidInFull s1
              = (Ok t, s2)) as Hbook
        by (vm_compute; reflexivity);
      assert (In (referralCoupon Sample2.couponEnv Sample.alice)
                 (discountCoupons s1)) as Hkept
        by (left; vm_compute; reflexivity)
  end.
  split; [exact Hcreate |]. split; [exact Hbook |].
  assert (forall a b,
            Z.abs (couponLocalTZA Sample2.couponEnv a true
                   - couponLocalTZA Sample2.couponEnv b false) <= 0)
    as Hshift by (intros a b; vm_compute; discriminate).
  assert (couponClock Sample.env
          <= discountClock Sample2.couponEnv + 89 * JSDate.msPerDay - 0)
    as Hclock by (vm_compute; discriminate).
  match type of Hbook with
  | _ = (Ok ?t, _) =>
      assert (0 <= Transaction.totalAmount t) as Htotal
        by (vm_compute; discriminate)
  end.
  destruct (referral_coupon_is_applied Sample2.couponEnv Sample.env
              Sample.alice Sample.paidInFull Sample.store _ _ _ _ 0
              Hcreate Hkept eq_refl Hshift Hclock Hbook Htotal)
    as (_ & Hle & _).
  exact Hle.
Defined.

(** ** The pages of a listing *)

Lemma firstn_skipn_add {A} (a b : nat) (l : list A) :
  firstn a l ++ firstn b (skipn a l) = firstn (a + b) l.
Proof.
  revert l. induction a as [| a IH]; intros l; [reflexivity |].
  destruct l as [| x l]; cbn [firstn skipn Nat.add app].
  - now rewrite firstn_nil.
  - now rewrite IH.
Qed.

Lemma In_firstn {A} (n : nat) (l : list A) x :
  In x (firstn n l) -> In x l.
Proof.
  intros H. rewrite <- (firstn_skipn n l). apply in_or_app. now left.
Qed.

Lemma In_skipn {A} (n : nat) (l : list A) x :
  In x (skipn n l) -> In x l.
Proof.
  intros H. rewrite <- (firstn_skipn n l). apply in_or_app. now right.
Qed.

Lemma pages_concat {A} (k : nat) (l : list A) n :
  List.concat (map (fun p => firstn k (skipn ((p - 1) * k) l)) (seq 1 n))
  = firstn (n * k) l.
Proof.
  induction n as [| n IH]; [reflexivity |].
  rewrite seq_S, map_app, concat_app, IH.
  cbn [map List.concat Nat.add]. rewrite app_nil_r.
  replace (S n - 1)%nat with n by lia.
  rewrite firstn_skipn_add. f_equal. lia.
Qed.

Lemma Math_ceil_div_bounds a b :
  1 <= b ->
  a <= Math_ceil_div a b * b < a + b.
Proof.
  intros Hb. unfold Math_ceil_div.
  pose proof (Z.mul_div_le (- a) b ltac:(lia)).
  pose proof (Z.mul_succ_div_gt (- a) b ltac:(lia)).
  nia.
Qed.

Lemma skip_of_page page limit :
  1 <= page -> 1 <= limit ->
  Z.to_nat (skip (paginate page limit))
  = ((Z.to_nat page - 1) * Z.to_nat limit)%nat.
Proof.
  intros Hp Hl. unfold paginate. cbn [skip].
  rewrite Z2Nat.inj_mul by lia. f_equal. lia.
Qed.

Lemma listing_page {A} (where_ : A -> bool) le page limit table :
  1 <= page -> 1 <= limit ->
  let total := Z.of_nat (List.length (filter where_ table)) in
  let totalPages := Math_ceil_div total limit in
  exists rows,
    listing where_ le page limit table
    = Some (Listing.mk rows page limit total totalPages)
    /\ Z.of_nat (List.length rows)
       = Z.max 0 (Z.min limit (total - (page - 1) * limit))
    /\ (rows <> [] <-> page <= totalPages)
    /\ Forall (fun row => where_ row = true) rows.
Proof.
  intros Hp Hl total totalPages.
  unfold listing.
  destruct (Z.ltb_spec page 1); [lia |].
  destruct (Z.ltb_spec limit 1); [lia |]. cbn [orb].
  eexists. split; [reflexivity |].
  assert (List.length (findMany where_ le table)
          = List.length (filter where_ table)) as Hlen
    by (apply Permutation_length, sortBy_perm).
  assert (Z.of_nat (List.length
            (firstn (Z.to_nat (take (paginate page limit)))
               (skipn (Z.to_nat (skip (paginate page limit)))
                  (findMany where_ le table))))
          = Z.max 0 (Z.min limit (total - (page - 1) * limit))) as Hrows.
  { rewrite length_firstn, length_skipn, Hlen.
    unfold paginate. cbn [skip take]. subst total. nia. }
  split; [exact Hrows |]. split.
  - pose proof (Math_ceil_div_bounds total limit Hl) as Hb.
    fold totalPages in Hb.
    destruct (firstn _ _) as [| x rows]; cbn [List.length] in Hrows.
    + split; [congruence |]. intros Hle. exfalso. nia.
    + split; [| discriminate]. intros _.
      destruct (Z_le_gt_dec page totalPages); [assumption |]. exfalso. nia.
  - apply Forall_forall. intros row Hin.
    apply In_firstn, In_skipn in Hin.
    unfold findMany in Hin.
    apply (Permutation_in _ (sortBy_perm le _)) in Hin.
    now apply filter_In in Hin.
Qed.

Lemma listing_pages {A} (where_ : A -> bool) le limit table :
  1 <= limit ->
  let total := Z.of_nat (List.length (filter where_ table)) in
  List.concat (map (fun p => rowsOf (listing where_ le (Z.of_nat p) limit table))
              (seq 1 (Z.to_nat (Math_ceil_div total limit))))
  = findMany where_ le table.
Proof.
  intros Hl total.
  pose proof (Math_ceil_div_bounds total limit Hl) as Hb.
  rewrite (map_ext_in _
    (fun p => firstn (Z.to_nat limit)
                (skipn ((p - 1) * Z.to_nat limit) (findMany where_ le table)))).
  - rewrite pages_concat. apply firstn_all2.
    assert (List.length (findMany where_ le table)
            = List.length (filter where_ table)) as ->
      by (apply Permutation_length, sortBy_perm).
    subst total. nia.
  - intros p Hin. apply in_seq in Hin.
    unfold listing.
    destruct (Z.ltb_spec (Z.of_nat p) 1); [lia |].
    destruct (Z.ltb_spec limit 1); [lia |]. cbn [orb rowsOf Listing.rows].
    rewrite skip_of_page by lia. rewrite Nat2Z.id. reflexivity.
Qed.

(** X13.  [GET /my-transactions], for a [limit] of at least 1: every
    page from 1 on reports the number of the user's transactions as
    [total] and [Math.ceil(total / limit)] as [totalPages], holds only
    transactions of the user, has [min(limit, total - (page - 1) * limit)]
    rows (none when that is negative), and is empty exactly when it lies
    beyond [totalPages]; the pages 1 to [totalPages] laid end to end are
    the user's transactions, newest first, each of them once. *)
Theorem my_transactions_pages createdAt userId limit s :
  1 <= limit ->
  let mine :=
    filter (fun t => String.eqb (Transaction.userId t) userId)
           (transactions s) in
  let total := Z.of_nat (List.length mine) in
  let totalPages := Math_ceil_div total limit in
  (forall page, 1 <= page ->
     exists rows,
       myTransactions createdAt userId page limit s
       = Some (Listing.mk rows page limit total totalPages)
       /\ Z.of_nat (List.length rows)
          = Z.max 0 (Z.min limit (total - (page - 1) * limit))
       /\ (rows <> [] <-> page <= totalPages)
       /\ Forall (fun t => Transaction.userId t = userId) rows)
  /\ List.concat (map (fun p =>
                    rowsOf (myTransactions createdAt userId (Z.of_nat p)
                              limit s))
                 (seq 1 (Z.to_nat totalPages)))
     = sortBy (desc createdAt) mine.
Proof.
  intros Hl mine total totalPages. split.
  - intros page Hp.
    destruct (listing_page
                (fun t => String.eqb (Transaction.userId t) userId)
                (desc createdAt) page limit (transactions s) Hp Hl)
      as (rows & Hrows & Hlen & Hempty & Hmine).
    exists rows. repeat split; try assumption; try apply Hempty.
    eapply Forall_impl; [| exact Hmine].
    intros t Ht. now apply String.eqb_eq.
  - apply (listing_pages
             (fun t => String.eqb (Transaction.userId t) userId)
             (desc createdAt) limit (transactions s) Hl).
Qed.

Lemma my_transactions_pages_witness :
  1 <= 2
  /\ List.concat
       (map (fun p =>
               rowsOf (myTransactions Sample2.createdAt Sample.alice
                         (Z.of_nat p) 2 Sample2.history))
            (seq 1 2))
     = [Sample2.latest; Sample2.middle; Sample2.earliest].
Proof.
  assert (1 <= 2) as Hlimit by lia.
  split; [exact Hlimit |].
  destruct (my_transactions_pages Sample2.createdAt Sample.alice 2
              Sample2.history Hlimit) as [_ Hpages].
  vm_compute in Hpages. vm_compute. exact Hpages.
Defined.

(** ** Reading a booking back *)

Lemma find_app {A} (f : A -> bool) l1 l2 :
  find f (l1 ++ l2)
  = match find f l1 with
    | Some x => Some x
    | None => find f l2
    end.
Proof.
  induction l1 as [| x l1 IH]; [reflexivity |].
  cbn [app find]. now destruct (f x).
Qed.

Lemma find_none {A} (f : A -> bool) l :
  (forall x, In x l -> f x = false) -> find f l = None.
Proof.
  intros Hf. induction l as [| x l IH]; [reflexivity |].
  cbn [find]. rewrite (Hf x) by now left.
  apply IH. intros y Hin. apply Hf. now right.
Qed.

(** X14.  A booking that went through, under a key no earlier
    transaction has: the read that follows it ([findUnique] by the new
    id) returns the transaction the callback returned, so does
    [GET /:id] for the buyer, [GET /:id] for anybody else is the 404,
    and what either read returns for any other id is what it returned
    before the booking. *)
Theorem booking_is_read_back env userId d s t s' :
  bookTickets env userId d s = (Ok t, s') ->
  (forall old, In old (transactions s) ->
     Transaction.id old <> transactionUuid env) ->
  completeTransaction (Transaction.id t) s' = Some t
  /\ transactionById (Transaction.id t) userId s' = Some t
  /\ (forall other, other <> userId ->
        transactionById (Transaction.id t) other s' = None)
  /\ (forall id, id <> Transaction.id t ->
        completeTransaction id s' = completeTransaction id s
        /\ forall anyone,
             transactionById id anyone s' = transactionById id anyone s).
Proof.
  intros H Hfresh.
  apply bookTickets_Ok in H
    as (event & user & totalAmount & ticketUpdates & discountAmount
        & usedCoupons & _ & Ht & Hs' & _).
  pose proof (settled_transactions env userId d event user totalAmount
                ticketUpdates discountAmount usedCoupons (begin s)) as Hrows.
  rewrite <- Hs', <- Ht in Hrows. cbn [inTx] in Hrows.
  assert (Transaction.id t = transactionUuid env) as Hid
    by (rewrite Ht; reflexivity).
  assert (Transaction.userId t = userId) as Huser
    by (rewrite Ht; reflexivity).
  assert (forall old, In old (transactions s) ->
            String.eqb (Transaction.id old) (transactionUuid env) = false)
    as Hnew by (intros old Hin; now apply String.eqb_neq, Hfresh).
  unfold completeTransaction, transactionById, findFirst.
  rewrite Hrows, Hid.
  split; [| split; [| split]].
  - rewrite find_app, (find_none _ _ Hnew). cbn [find].
    now rewrite Hid, String.eqb_refl.
  - rewrite find_app, find_none.
    + cbn [find]. now rewrite Hid, Huser, !String.eqb_refl.
    + intros old Hin. now rewrite (Hnew old Hin).
  - intros other Hother. rewrite find_app, find_none.
    + cbn [find]. rewrite Hid, Huser, String.eqb_refl. cbn [andb].
      apply String.eqb_neq in Hother. rewrite String.eqb_sym.
      now rewrite Hother.
    + intros old Hin. now rewrite (Hnew old Hin).
  - intros id Hid'.
    assert (String.eqb (Transaction.id t) id = false) as Hne
      by (apply String.eqb_neq; rewrite Hid; congruence).
    split; [| intros anyone]; rewrite find_app; cbn [find];
      rewrite Hne; cbn [andb]; now destruct (find _ _).
Qed.

Lemma booking_is_read_back_witness :
  exists t s',
    bookTickets Sample.env Sample.alice Sample.paidInFull Sample2.history
    = (Ok t, s')
    /\ completeTransaction (Transaction.id t) s' = Some t
    /\ transactionById (Transaction.id t) Sample.bob s' = None.
Proof.
  do 2 eexists.
  match goal with
  | |- bookTickets _ _ _ _ = (Ok ?t, ?s') /\ _ =>
      assert (bookTickets Sample.env Sample.alice Sample.paidInFull
                Sample2.history = (Ok t, s')) as Hbook
        by (vm_compute; reflexivity)
  end.
  split; [exact Hbook |].
  assert (forall old, In old (transactions Sample2.history) ->
            Transaction.id old <> transactionUuid Sample.env) as Hfresh.
  { intros old Hin.
    assert (forallb (fun old => negb (String.eqb (Transaction.id old)
                                        (transactionUuid Sample.env)))
                    (transactions Sample2.history) = true) as Hall
      by (vm_compute; reflexivity).
    rewrite forallb_forall in Hall. specialize (Hall old Hin).
    apply String.eqb_neq. now destruct (String.eqb _ _). }
  destruct (booking_is_read_back Sample.env Sample.alice Sample.paidInFull
              Sample2.history _ _ Hbook Hfresh)
    as (Hread & _ & Hothers & _).
  split; [exact Hread |].
  apply Hothers. vm_compute. discriminate.
Defined.

(** ** The booking: numbers out of range and transactions that expire *)



(** X16. When the store would commit, a booking ends as not committed
    in one case only: it has passed every check, taken points off the
    balance and earned points.  Of all it wrote the credit alone is in
    the store: the balance of the user is up by the points earned (the
    debit has been rolled back with the rest), one grant has been added,
    and the other tables are as before. *)
Theorem not_committed_is_spend_and_earn env userId d s s' :
  commits env = true ->
  bookTickets env userId d s = (Err Transaction_not_committed, s') ->
  exists balance earned description,
    balanceOf userId s = Some balance
    /\ 0 < Z.min (pointsToUse d) balance
    /\ 0 < earned
    /\ balanceOf userId s' = Some (balance + earned)
    /\ points s' = points s ++ [grant env userId earned description]
    /\ events s' = events s
    /\ tickets s' = tickets s
    /\ transactions s' = transactions s
    /\ transactionItems s' = transactionItems s
    /\ discountCoupons s' = discountCoupons s
    /\ transactionCoupons s' = transactionCoupons s.
Proof.
  intros Hcommit H. unfold bookTickets, run_transaction in H.
  destruct (callback env userId d (begin s)) as [t st | e st] eqn:Hc.
  2:{ injection H as -> _. apply callback_Thrown in Hc as (Hne & _).
      now destruct Hne. }
  apply callback_Returned in Hc
    as (event & user & totalAmount & ticketUpdates & discountAmount
        & usedCoupons & Hp & -> & -> & _).
  rewrite settled_expired, Hcommit in H. cbn [andb] in H.
  destruct (spendsAndEarns _) eqn:Hboth; [| discriminate].
  injection H as <-.
  unfold spendsAndEarns in Hboth.
  apply andb_prop in Hboth as [Hused Hearned].
  apply Z.ltb_lt in Hused.
  destruct Hp as (_ & _ & _ & _ & _ & Huser). cbn [inTx] in Huser.
  assert (balanceOf userId s = Some (User.pointsBalance user)) as Hbalance
    by (unfold balanceOf; now rewrite Huser).
  set (t := transactionOf env userId d user totalAmount discountAmount) in *.
  exists (User.pointsBalance user), (calculatePoints (Transaction.finalAmount t)),
         ("Purchase points for " ++ Event.name event)%string.
  split; [exact Hbalance |].
  split.
  { assert (Transaction.pointsUsed t
            = Math_min (pointsToUse d) (User.pointsBalance user)
                       (totalAmount - discountAmount)) as E by reflexivity.
    rewrite E in Hused. unfold Math_min in Hused. lia. }
  split; [now apply Z.ltb_lt |].
  unfold settled. cbn [outside]. fold t.
  split.
  { rewrite balanceOf_credited
      by (apply Z.lt_le_incl, Z.ltb_lt; exact Hearned).
    now rewrite Hbalance. }
  match goal with |- points (credited ?e ?u ?n ?ds ?x) = _ /\ _ =>
    destruct (credited_frame e u n ds x) as (-> & -> & -> & -> & ->);
    rewrite (credited_items e u n ds x) end.
  split; [| repeat split].
  unfold credited.
  match goal with |- context [if ?b then _ else _] =>
    replace b with true by (symmetry; exact Hearned) end.
  reflexivity.
Qed.

Lemma not_committed_is_spend_and_earn_witness :
  exists s' balance earned,
    bookTickets Sample.env Sample.alice Sample.twoTickets Sample.store
    = (Err Transaction_not_committed, s')
    /\ balanceOf Sample.alice Sample.store = Some balance
    /\ 0 < earned
    /\ balanceOf Sample.alice s' = Some (balance + earned)
    /\ transactions s' = transactions Sample.store.
Proof.
  eexists.
  match goal with
  | |- exists balance earned, bookTickets _ _ _ _ = (_, ?s') /\ _ =>
      assert (bookTickets Sample.env Sample.alice Sample.twoTickets
                Sample.store = (Err Transaction_not_committed, s')) as Hbook
        by (vm_compute; reflexivity)
  end.
  destruct (not_committed_is_spend_and_earn Sample.env Sample.alice
              Sample.twoTickets Sample.store _ eq_refl Hbook)
    as (balance & earned & description & Hbalance & _ & Hearned & Hafter
        & _ & _ & _ & Htable & _).
  exists balance, earned. repeat split; assumption.
Defined.
